(** * RAG-PDF: the relevance-filtering and page-citation pipeline

    A shallow embedding of the deterministic part of the chat backend:
    [server/server.js] (module [Server]) and the second backend of the
    repository, the variant with the context cleaner and the retry (module
    [Variant]), followed by the properties of the pipeline.

    Conventions of the embedding.
    - A JavaScript string is the list of its UTF-16 code units ([jsstring]).
    - A JavaScript Number that holds a page number or a score is an integer
      of [Z]; the embedding is exact as long as the integers stay within
      [-2^53, 2^53], where Numbers are exact.
    - Built-ins of the language ([trim], [includes], [split], [replace],
      [sort], ...) are given by the functions of module [JS]; Unicode case
      mapping ([toLowerCase]) is a parameter of the code that uses it.
    - Calls that leave the process (retrieval, generation) are answered by an
      environment and recorded in a log of events. *)

From stdpp Require Import gmap.
From Stdlib Require Import String Ascii.
From Stdlib Require Import List ZArith NArith Lia Bool.
From Stdlib Require Import Sorted Permutation DecimalString.
Import ListNotations.

Local Open Scope Z_scope.

(** ** JavaScript strings, arrays and regular expressions *)

Module JS.

(** One UTF-16 code unit. *)
Definition char := N.
Definition jsstring := list char.

(** An ASCII literal as a JavaScript string. *)
Definition js (s : string) : jsstring :=
  List.map N_of_ascii (list_ascii_of_string s).

(** The double quote, which Rocq literals cannot hold conveniently. *)
Definition dq : jsstring := [34%N].
(** Line feed. *)
Definition nl : jsstring := [10%N].

Definition char_eqb (a b : char) : bool := N.eqb a b.

Fixpoint str_eqb (s t : jsstring) : bool :=
  match s, t with
  | [], [] => true
  | a :: s', b :: t' => char_eqb a b && str_eqb s' t'
  | _, _ => false
  end.

(** [\s] of a regular expression and the characters [trim] strips: WhiteSpace
    and LineTerminator of ECMAScript. *)
Definition isWhiteSpace (c : char) : bool :=
  let n := Z.of_N c in
  ((9 <=? n) && (n <=? 13)) || (n =? 32) || (n =? 160) || (n =? 5760)
  || ((8192 <=? n) && (n <=? 8202)) || (n =? 8232) || (n =? 8233)
  || (n =? 8239) || (n =? 8287) || (n =? 12288) || (n =? 65279).

(** [\d] (no [u] flag): the ten ASCII digits. *)
Definition isDigit (c : char) : bool :=
  let n := Z.of_N c in (48 <=? n) && (n <=? 57).

(** [\w]: ASCII letters, digits and the underscore. *)
Definition isWordChar (c : char) : bool :=
  let n := Z.of_N c in
  ((97 <=? n) && (n <=? 122)) || ((65 <=? n) && (n <=? 90))
  || isDigit c || (n =? 95).

(** [String.prototype.startsWith]. *)
Fixpoint startsWith (s p : jsstring) {struct p} : bool :=
  match p, s with
  | [], _ => true
  | b :: p', a :: s' => char_eqb a b && startsWith s' p'
  | _ :: _, [] => false
  end.

(** [String.prototype.includes]. *)
Fixpoint includes (s p : jsstring) : bool :=
  startsWith s p ||
  match s with
  | [] => false
  | _ :: s' => includes s' p
  end.

(** [String.prototype.trim]. *)
Fixpoint trimStart (s : jsstring) : jsstring :=
  match s with
  | c :: s' => if isWhiteSpace c then trimStart s' else s
  | [] => []
  end.

Fixpoint trimEnd (s : jsstring) : jsstring :=
  match s with
  | [] => []
  | c :: s' =>
      match trimEnd s' with
      | [] => if isWhiteSpace c then [] else [c]
      | t => c :: t
      end
  end.

Definition trim (s : jsstring) : jsstring := trimEnd (trimStart s).

(** [Array.prototype.join] on an array of strings. *)
Fixpoint join (sep : jsstring) (l : list jsstring) : jsstring :=
  match l with
  | [] => []
  | [s] => s
  | s :: l' => s ++ sep ++ join sep l'
  end.

(** [Array.prototype.slice(0, k)]. *)
Definition slice0 {A} (k : nat) (l : list A) : list A := firstn k l.

(** A regular expression without anchors, seen from one position of the
    subject: [m s] is the length of the match that starts at the head of the
    suffix [s], if there is one. *)
Definition matcher := jsstring -> option nat.

(** [String.prototype.replace] with a global regular expression and a constant
    replacement.  [skip] is the distance from the current position to
    [lastIndex]: the characters of a match are consumed before the search
    resumes. *)
Fixpoint replaceFrom (m : matcher) (repl : jsstring) (skip : nat)
    (s : jsstring) : jsstring :=
  match s with
  | [] => []
  | c :: s' =>
      match skip with
      | S k => replaceFrom m repl k s'
      | O =>
          match m s with
          | Some (S k) => repl ++ replaceFrom m repl k s'
          | _ => c :: replaceFrom m repl O s'
          end
      end
  end.

Definition replaceAll (m : matcher) (repl s : jsstring) : jsstring :=
  replaceFrom m repl O s.

(** [String.prototype.split] on a regular expression that matches exactly one
    character of the class [sep]. *)
Fixpoint splitChars (sep : char -> bool) (s : jsstring) : list jsstring :=
  match s with
  | [] => [[]]
  | c :: s' =>
      if sep c then [] :: splitChars sep s'
      else match splitChars sep s' with
           | piece :: rest => (c :: piece) :: rest
           | [] => [[c]]
           end
  end.

(** The number of separators of a class in a string. *)
Definition separators (sep : char -> bool) (s : jsstring) : nat :=
  length (List.filter sep s).

(** [String.prototype.split] on [/c+/]: the separators are the maximal runs of
    characters of the class; [inRun] tells that the previous character
    belonged to a separator. *)
Fixpoint splitRunsFrom (sep : char -> bool) (inRun : bool) (s : jsstring)
    : list jsstring :=
  match s with
  | [] => [[]]
  | c :: s' =>
      if sep c then
        if inRun then splitRunsFrom sep true s'
        else [] :: splitRunsFrom sep true s'
      else match splitRunsFrom sep false s' with
           | piece :: rest => (c :: piece) :: rest
           | [] => [[c]]
           end
  end.

Definition splitRuns (sep : char -> bool) (s : jsstring) : list jsstring :=
  splitRunsFrom sep false s.

(** The longest prefix made of characters of a class, and what follows. *)
Fixpoint spanChars (p : char -> bool) (s : jsstring) : jsstring * jsstring :=
  match s with
  | c :: s' =>
      if p c then let (run, rest) := spanChars p s' in (c :: run, rest)
      else ([], s)
  | [] => ([], [])
  end.

(** [parseInt] on a run of decimal digits: its value.  The language returns
    this integer as long as it is a Number, which every integer up to
    [maxExactInteger] is; beyond, the value is rounded, and past twenty
    digits the rounding is left to the implementation.  What is proved of
    page numbers is stated inside the exact range. *)
Definition digitValue (c : char) : Z := Z.of_N c - 48.

Definition parseInt (ds : jsstring) : Z :=
  fold_left (fun acc c => 10 * acc + digitValue c) ds 0.

(** The largest magnitude up to which every integer is a Number. *)
Definition maxExactInteger : Z := 2 ^ 53.

(** [Number.prototype.toString] of a non-negative integer, as [join] and
    template literals apply it. *)
Definition numberToString (n : Z) : jsstring :=
  js (NilEmpty.string_of_uint (N.to_uint (Z.to_N n))).

(** [[...new Set(a)]]: the first occurrence of every value, in the order of
    insertion. *)
Fixpoint uniqueFrom (seen : list Z) (a : list Z) : list Z :=
  match a with
  | [] => []
  | x :: a' =>
      if existsb (Z.eqb x) seen then uniqueFrom seen a'
      else x :: uniqueFrom (x :: seen) a'
  end.

Definition newSet (a : list Z) : list Z := uniqueFrom [] a.

(** [Array.prototype.sort] with a comparison function.  The sort of the
    language is stable, and with a consistent comparison function its result
    is determined: the stable sorted arrangement, computed here by
    insertion. *)
Section Sort.

Context {A : Type} (compareFn : A -> A -> Z).

Fixpoint insertSorted (x : A) (l : list A) : list A :=
  match l with
  | [] => [x]
  | y :: l' =>
      if compareFn x y <=? 0 then x :: l
      else y :: insertSorted x l'
  end.

Fixpoint sort (l : list A) : list A :=
  match l with
  | [] => []
  | x :: l' => insertSorted x (sort l')
  end.

(** The order that the comparison function stands for. *)
Definition precedes (x y : A) : Prop := compareFn x y <= 0.

End Sort.

(** The global [exec] loop of a regular expression with one capture group:
    [m s] gives the text of the group and the length of the match that starts
    at the head of [s]; the loop collects the groups of the successive
    matches, [skip] being the distance to [lastIndex]. *)
Definition capturing := jsstring -> option (jsstring * nat).

Fixpoint execFrom (m : capturing) (skip : nat) (s : jsstring)
    : list jsstring :=
  match s with
  | [] => []
  | _ :: s' =>
      match skip with
      | S k => execFrom m k s'
      | O =>
          match m s with
          | Some (group, S k) => group :: execFrom m k s'
          | _ => execFrom m O s'
          end
      end
  end.

Definition execAll (m : capturing) (s : jsstring) : list jsstring :=
  execFrom m O s.

Definition matchLength (m : capturing) : matcher :=
  fun s => option_map snd (m s).

(** Regular expressions made of literals, [^], [$] and [|], as the small-talk
    patterns are: a list of alternatives, each a literal that may be tied to
    the start or to the end of the subject. *)
Record alternative := {
  anchoredStart : bool;
  literal : jsstring;
  anchoredEnd : bool
}.

Record regexp := {
  alternatives : list alternative;
  ignoreCase : bool
}.

Definition caret : char := 94%N.
Definition dollar : char := 36%N.
Definition bar : char := 124%N.

Definition stripEnd (s : jsstring) : bool * jsstring :=
  match rev s with
  | c :: r => if char_eqb c dollar then (true, rev r) else (false, s)
  | [] => (false, s)
  end.

Definition parseAlternative (s : jsstring) : alternative :=
  match s with
  | c :: s' =>
      if char_eqb c caret then
        let (e, l) := stripEnd s' in
        {| anchoredStart := true; literal := l; anchoredEnd := e |}
      else
        let (e, l) := stripEnd s in
        {| anchoredStart := false; literal := l; anchoredEnd := e |}
  | [] => {| anchoredStart := false; literal := []; anchoredEnd := false |}
  end.

(** A regular expression literal without flags. *)
Definition noFlags : string := EmptyString.

(** [new RegExp(source, flags)] for this fragment; the only flag is [i]. *)
Definition RegExp (source flags : string) : regexp :=
  {| alternatives :=
       List.map parseAlternative (splitChars (char_eqb bar) (js source));
     ignoreCase := includes (js flags) (js "i") |}.

Definition endsWith (s p : jsstring) : bool := startsWith (rev s) (rev p).

Definition testAlternative (s : jsstring) (a : alternative) : bool :=
  match anchoredStart a, anchoredEnd a with
  | true, true => str_eqb s (literal a)
  | true, false => startsWith s (literal a)
  | false, true => endsWith s (literal a)
  | false, false => includes s (literal a)
  end.

(** Canonicalize of a case-insensitive match without the [u] flag.  A code
    unit outside ASCII is never mapped into ASCII, so against the ASCII
    literals of the patterns only the ASCII letters fold. *)
Definition canonicalize (c : char) : char :=
  let n := Z.of_N c in
  if (97 <=? n) && (n <=? 122) then (c - 32)%N else c.

Definition canonicalizeAlternative (a : alternative) : alternative :=
  {| anchoredStart := anchoredStart a;
     literal := List.map canonicalize (literal a);
     anchoredEnd := anchoredEnd a |}.

(** [String.prototype.toLowerCase] on ASCII text, where it changes the
    capital letters only: the instance at which the code is evaluated on
    ASCII examples. *)
Definition asciiToLowerCase (s : jsstring) : jsstring :=
  List.map (fun c =>
              let n := Z.of_N c in
              if (65 <=? n) && (n <=? 90) then (c + 32)%N else c) s.

(** [RegExp.prototype.test]. *)
Definition test (re : regexp) (s : jsstring) : bool :=
  if ignoreCase re then
    existsb (fun a => testAlternative (List.map canonicalize s)
                        (canonicalizeAlternative a)) (alternatives re)
  else existsb (testAlternative s) (alternatives re).

End JS.

Import JS.

(** ** Calls that leave the process *)

Module Effects.

(** What a call yields: a value, or an exception with its message. *)
Inductive outcome (A : Type) : Type :=
| Returned (a : A)
| Thrown (message : jsstring).
Arguments Returned {A} a.
Arguments Thrown {A} message.

(** [generationConfig] of [getGenerativeModel]; the two fractions are kept in
    hundredths. *)
Record GenerationConfig := {
  temperature : Z;
  topK : Z;
  topP : Z;
  maxOutputTokens : Z
}.

Inductive event :=
| Retrieval (collectionName query : jsstring) (k : nat)
| Generation (model : jsstring) (config : GenerationConfig)
    (prompt : jsstring).

(** The world outside: whether [process.env.GOOGLE_API_KEY] is set, what the
    n-th call of [model.generateContent] gives as [response.text()] (or
    throws), and what [retriever.invoke] gives as the page contents of the
    documents found (or throws). *)
Record Env := {
  GOOGLE_API_KEY : bool;
  generateContent : nat -> jsstring -> outcome jsstring;
  invoke : jsstring -> jsstring -> nat -> outcome (list jsstring)
}.

(** Computations that may throw and that log their external calls. *)
Definition M (A : Type) : Type := list event -> outcome A * list event.

Definition ret {A} (a : A) : M A := fun log => (Returned a, log).

Definition throw {A} (message : jsstring) : M A :=
  fun log => (Thrown message, log).

Definition bind {A B} (c : M A) (k : A -> M B) : M B :=
  fun log =>
    match c log with
    | (Returned a, log') => k a log'
    | (Thrown e, log') => (Thrown e, log')
    end.

Definition tryCatch {A} (body : M A) (handler : jsstring -> M A) : M A :=
  fun log =>
    match body log with
    | (Returned a, log') => (Returned a, log')
    | (Thrown e, log') => handler e log'
    end.

Definition isGeneration (e : event) : bool :=
  match e with Generation _ _ _ => true | Retrieval _ _ _ => false end.

Definition isRetrieval (e : event) : bool :=
  match e with Retrieval _ _ _ => true | Generation _ _ _ => false end.

Definition generationCalls (log : list event) : nat :=
  length (List.filter isGeneration log).

Definition retrievalCalls (log : list event) : nat :=
  length (List.filter isRetrieval log).

(** [await model.generateContent(prompt)] followed by [response.text()]. *)
Definition callGenerate (env : Env) (model : jsstring)
    (config : GenerationConfig) (prompt : jsstring) : M jsstring :=
  fun log =>
    (generateContent env (generationCalls log) prompt,
     log ++ [Generation model config prompt]).

(** [await retriever.invoke(query)] on the collection of one document. *)
Definition callRetrieve (env : Env) (collectionName query : jsstring)
    (k : nat) : M (list jsstring) :=
  fun log =>
    (invoke env collectionName query k,
     log ++ [Retrieval collectionName query k]).

Definition run {A} (c : M A) : outcome A * list event := c [].

End Effects.

Import Effects.

Notation "'let*' x := c 'in' k" := (bind c (fun x => k))
  (at level 10, x name, c at level 100, k at level 200).

(** ** Functions that both backends define with the same text *)

Module Shared.

(** [/\[Page (\d+)\]/]: the text "[Page ", the longest run of digits, which
    must not be empty, and "]".  The group is the run of digits. *)
Definition pageRegex : capturing :=
  fun s =>
    if startsWith s (js "[Page ") then
      let (digits, rest) := spanChars isDigit (skipn 6 s) in
      match digits, rest with
      | _ :: _, c :: _ =>
          if char_eqb c 93%N then Some (digits, (6 + length digits + 1)%nat)
          else None
      | _, _ => None
      end
    else None.

(** The array [matches] that the [exec] loop fills. *)
Definition matches (content : jsstring) : list Z :=
  List.map parseInt (execAll pageRegex content).

Definition extractPageNumbers (content : jsstring) : list Z :=
  sort (fun a b => a - b) (newSet (matches content)).

(** The page numbers of a text all stay in the range where the numbers of
    the language are exact integers. *)
Definition exactPages (content : jsstring) : bool :=
  forallb (fun n => n <=? maxExactInteger) (matches content).

(** The text of a page marker around a run of digits, and the page numbers
    that stand inside a marker of a text. *)
Definition pageMarker (digits : jsstring) : jsstring :=
  js "[Page " ++ digits ++ js "]".

Definition citedIn (content : jsstring) (n : Z) : Prop :=
  exists before digits after,
    content = before ++ pageMarker digits ++ after
    /\ digits <> [] /\ forallb isDigit digits = true
    /\ parseInt digits = n.

Definition smallTalkPatterns : list regexp :=
  [ RegExp "^hi$|^hello$|^hey$|^greetings$" "i";
    RegExp "^how are you$" "i";
    RegExp "^thanks|thank you|thx" "i";
    RegExp "^good morning|good afternoon|good evening" "i";
    RegExp "^what's up|sup" "i";
    RegExp "^who are you$" "i" ].

Definition isSmallTalk (query : jsstring) : bool :=
  existsb (fun pattern => test pattern (trim query)) smallTalkPatterns.

(** [pageRefText] of both answer generators. *)
Definition pageRefText (pageReferences : list Z) : jsstring :=
  match pageReferences with
  | _ :: _ =>
      js "This information can be found on pages "
      ++ join (js ", ") (List.map numberToString pageReferences) ++ js "."
  | [] => []
  end.

(** The payload of a successful chat response and the responses of the
    endpoint. *)
Record ChatPayload := {
  payloadQuery : jsstring;
  results : jsstring;
  pageReferences : list Z;
  count : Z
}.

Inductive response :=
| Status200 (payload : ChatPayload)
| Status400 (error : jsstring)
| Status500 (error details : jsstring).

(** The body of a chat request; an absent field is the empty string, which
    is as falsy as [undefined]. *)
Record ChatRequest := {
  query : jsstring;
  pdfId : jsstring;
  depth : jsstring
}.

(** [a || b] on strings. *)
Definition orElse (a b : jsstring) : jsstring :=
  match a with [] => b | _ :: _ => a end.

End Shared.

Import Shared.

(** ** The variant backend

    The file of this backend opens with the comment
    [server.js (Completely Fixed Backend)]; it cleans the retrieved text
    before ranking it and has two depths of answer. *)

Module Variant.

(** [/\.{10,}/]: a run of at least ten dots, taken whole. *)
Definition dotRun : matcher :=
  fun s =>
    let (run, _) := spanChars (char_eqb 46%N) s in
    if (10 <=? length run)%nat then Some (length run) else None.

(** [/\s+/]: a run of white space, taken whole. *)
Definition whiteSpaceRun : matcher :=
  fun s =>
    let (run, _) := spanChars isWhiteSpace s in
    match run with
    | _ :: _ => Some (length run)
    | [] => None
    end.

(** [/undefined/]. *)
Definition undefinedText : matcher :=
  fun s => if startsWith s (js "undefined") then Some 9%nat else None.

(** The characters that the last replacement keeps: [\w], [\s] and the
    punctuation marks . , ! ? ; : - together with the single and the double
    quote. *)
Definition isKept (c : char) : bool :=
  isWordChar c || isWhiteSpace c
  || existsb (char_eqb c) [46; 44; 33; 63; 59; 58; 39; 34; 45]%N.

(** The negated class of the last replacement: one character that is not
    kept. *)
Definition specialChar : matcher :=
  fun s =>
    match s with
    | c :: _ => if isKept c then None else Some 1%nat
    | [] => None
    end.

Definition cleanContext (content : jsstring) : jsstring :=
  let content := replaceAll (matchLength pageRegex) [] content in
  let content := replaceAll dotRun [] content in
  let content := replaceAll whiteSpaceRun (js " ") content in
  let content := replaceAll undefinedText [] content in
  let content := replaceAll specialChar [] content in
  trim content.

(** A text in which the cleaner finds nothing more to remove: no placeholder,
    no two spaces in a row, no run of ten dots. *)
Definition isSettled (content : jsstring) : bool :=
  negb (includes content (js "undefined"))
  && negb (includes content (js "  "))
  && negb (includes content (js "..........")).

Record ScoredSentence := {
  sentence : jsstring;
  score : Z
}.

(** [/[.!?]/]. *)
Definition isTerminator (c : char) : bool :=
  existsb (char_eqb c) [46; 33; 63]%N.

Section WithLowerCase.

(** [String.prototype.toLowerCase]. *)
Variable toLowerCase : jsstring -> jsstring.

Definition sentences (content : jsstring) : list jsstring :=
  List.filter (fun s => (10 <? length (trim s))%nat)
    (splitChars isTerminator content).

Definition queryKeywords (query : jsstring) : list jsstring :=
  splitRuns isWhiteSpace (toLowerCase query).

Definition scoreSentence (query : jsstring) (sentence : jsstring)
    : ScoredSentence :=
  let lowerSentence := toLowerCase sentence in
  let score := 0 in
  let score :=
    fold_left
      (fun score keyword =>
         if includes lowerSentence keyword then score + 3 else score)
      (queryKeywords query) score in
  let score :=
    if includes lowerSentence (toLowerCase query) then score + 10
    else score in
  let score :=
    if startsWith lowerSentence (toLowerCase query ++ js " is")
       || startsWith lowerSentence (toLowerCase query ++ js " are")
       || includes lowerSentence (js "is " ++ toLowerCase query)
       || includes lowerSentence (js "are " ++ toLowerCase query)
    then score + 15 else score in
  {| sentence := sentence; score := score |}.

Definition scoredSentences (content query : jsstring)
    : list ScoredSentence :=
  List.map (scoreSentence query) (sentences content).

Definition relevantSentences (content query : jsstring) : list jsstring :=
  List.map sentence
    (sort (fun a b => score b - score a)
       (List.filter (fun item => 0 <? score item)
          (scoredSentences content query))).

Definition filterRelevantContent (content query : jsstring) : jsstring :=
  join (js ". ") (slice0 5 (relevantSentences content query)) ++ js ".".

(** The scored items behind the sentences that the ranker returns. *)
Definition topRanked (content query : jsstring) : list ScoredSentence :=
  slice0 5
    (sort (fun a b => score b - score a)
       (List.filter (fun item => 0 <? score item)
          (scoredSentences content query))).

Definition generationConfig (depth : jsstring) : GenerationConfig :=
  let deep := str_eqb depth (js "deep") in
  {| temperature := if deep then 30 else 10;
     topK := if deep then 40 else 20;
     topP := if deep then 95 else 90;
     maxOutputTokens := if deep then 2048 else 1024 |}.

Definition depthInstruction (depth : jsstring) : jsstring :=
  if str_eqb depth (js "deep") then
    js "Provide a comprehensive, in-depth explanation with detailed examples and thorough context."
  else if str_eqb depth (js "deeper") then
    js "Provide an extremely detailed, exhaustive explanation covering all aspects, with multiple examples and practical applications."
  else
    js "Provide a clear, direct answer that addresses the specific question.".

Definition couldntFind : jsstring := js "I couldn't find".

Definition prompt (query context : jsstring) (pageReferences : list Z)
    (depth : jsstring) : jsstring :=
  join nl
    [ [];
      js "      You are a helpful assistant that provides accurate answers based on document content.";
      [];
      js "      USER QUESTION: " ++ dq ++ query ++ dq;
      [];
      js "      DOCUMENT CONTENT:";
      js "      " ++ context;
      [];
      js "      INSTRUCTIONS:";
      js "      1. Answer the user's question in a natural, conversational tone";
      js "      2. Use ONLY the information from the provided document content";
      js "      3. " ++ depthInstruction depth;
      js "      4. If the document doesn't contain the answer, say: " ++ dq
        ++ js "I couldn't find specific information about this in the document. Please try asking about a different topic or rephrasing your question."
        ++ dq;
      js "      5. Format your response as a clear, well-structured answer";
      js "      6. Do not mention that you're " ++ dq
        ++ js "based on the document" ++ dq
        ++ js " - just provide the answer directly";
      js "      7. At the end, mention the page references like this: "
        ++ dq ++ pageRefText pageReferences ++ dq;
      [];
      js "      IMPORTANT: ";
      js "      - Do not just copy text from the document. Synthesize the information into a coherent answer.";
      js "      - If the document content doesn't directly answer the question, admit it rather than making up an answer.";
      [];
      js "      Please provide your answer:";
      js "    " ].

Definition retryPrompt (query context : jsstring) : jsstring :=
  join nl
    [ [];
      js "        The user asked: " ++ dq ++ query ++ dq;
      js "        ";
      js "        Here is the relevant content from the document:";
      js "        " ++ context;
      js "        ";
      js "        Even if the information is not perfect, try to provide the most helpful answer possible based on what's available.";
      js "        If you can infer something from the context, do so but mention it's an inference.";
      js "        If there's truly nothing relevant, say: " ++ dq
        ++ js "I couldn't find specific information about this in the document. ";
      js "        The document seems to focus on other topics. Please try asking about something else."
        ++ dq;
      js "      " ].

(** The test that sends the first answer back for a second attempt. *)
Definition isNonAnswer (finalResponse : jsstring) : bool :=
  includes finalResponse couldntFind
  || includes finalResponse (js "the document doesn't contain")
  || (length finalResponse <? 50)%nat.

(** The last step of the [try] block: the citation is appended when there is
    one, the answer does not hold it yet and is not a not-found answer. *)
Definition addPageReferences (finalResponse : jsstring)
    (pageReferences : list Z) : jsstring :=
  match pageRefText pageReferences with
  | [] => finalResponse
  | _ :: _ =>
      if negb (includes finalResponse (pageRefText pageReferences))
         && negb (includes finalResponse couldntFind)
      then finalResponse ++ js " " ++ pageRefText pageReferences
      else finalResponse
  end.

Definition fallbackAnswer (query : jsstring) (pageReferences : list Z)
    : jsstring :=
  match pageReferences with
  | _ :: _ =>
      js "I found some information about " ++ dq ++ query ++ dq
      ++ js " in the document. This information can be found on pages "
      ++ join (js ", ") (List.map numberToString pageReferences) ++ js "."
  | [] =>
      js "I couldn't find specific information about " ++ dq ++ query ++ dq
      ++ js " in the document. Please try asking about a different topic."
  end.

Variable env : Env.

Definition generateNaturalAnswer (query context : jsstring)
    (pageReferences : list Z) (depth : jsstring) : M jsstring :=
  tryCatch
    (if negb (GOOGLE_API_KEY env) then throw (js "GOOGLE_API_KEY is not set")
     else
       let model := js "gemini-pro" in
       let config := generationConfig depth in
       let* finalResponse :=
         callGenerate env model config
           (prompt query context pageReferences depth) in
       let* finalResponse :=
         if isNonAnswer finalResponse then
           callGenerate env model config (retryPrompt query context)
         else ret finalResponse in
       ret (addPageReferences finalResponse pageReferences))
    (fun error => ret (fallbackAnswer query pageReferences)).

(** The generation raises an error: the key is missing, or the first call
    throws, or the first call gives a non-answer and the retry throws. *)
Definition generationFails (query context : jsstring)
    (pageReferences : list Z) (depth : jsstring) : Prop :=
  GOOGLE_API_KEY env = false
  \/ (exists e,
        generateContent env 0 (prompt query context pageReferences depth)
        = Thrown e)
  \/ (exists first e,
        generateContent env 0 (prompt query context pageReferences depth)
        = Returned first
        /\ isNonAnswer first = true
        /\ generateContent env 1 (retryPrompt query context) = Thrown e).

Definition getSmallTalkResponse (query : jsstring) : jsstring :=
  let lowerQuery := trim (toLowerCase query) in
  if test (RegExp "^hi$|^hello$|^hey$|^greetings$" noFlags) lowerQuery then
    js "Hello! I'm here to help you understand your PDF documents. What would you like to know about your document?"
  else if test (RegExp "^how are you$" noFlags) lowerQuery then
    js "I'm doing well, thank you! Ready to help you explore your document. What would you like to know?"
  else if test (RegExp "^thanks|thank you|thx" noFlags) lowerQuery then
    js "You're welcome! Is there anything else you'd like to know about your document?"
  else if test (RegExp "^good morning|good afternoon|good evening" noFlags)
            lowerQuery then
    query ++ js "! How can I help you with your document today?"
  else if test (RegExp "^what's up|sup" noFlags) lowerQuery then
    js "Just ready to help you understand your documents! What would you like to know?"
  else if test (RegExp "^who are you$" noFlags) lowerQuery then
    js "I'm your PDF assistant, here to help you understand and explore the content of your documents. You can ask me questions about anything in your PDF!"
  else js "How can I help you with your document today?".

(** What [pdfCollections] keeps for an uploaded document. *)
Record PdfData := {
  filename : jsstring;
  uploadedAt : jsstring
}.

Definition notFoundAnswer (query : jsstring) : jsstring :=
  js "I couldn't find information about " ++ dq ++ query ++ dq
  ++ js " in this document. Please try asking about something else or check if you've uploaded the right document.".

(** The handler of [POST /chat]. *)
Definition chat (pdfCollections : gmap jsstring PdfData) (req : ChatRequest)
    : M response :=
  tryCatch
    (match query req with
     | [] => ret (Status400 (js "Query parameter is required"))
     | _ :: _ =>
     match pdfId req, pdfCollections !! pdfId req with
     | [], _ | _, None => ret (Status400 (js "Valid PDF ID is required"))
     | _ :: _, Some _ =>
     if isSmallTalk (query req) then
       ret (Status200 {| payloadQuery := query req;
                         results := getSmallTalkResponse (query req);
                         pageReferences := [];
                         count := 0 |})
     else
       let* found := callRetrieve env (pdfId req) (query req) 10 in
       match found with
       | [] =>
           ret (Status200 {| payloadQuery := query req;
                             results := notFoundAnswer (query req);
                             pageReferences := [];
                             count := 0 |})
       | _ :: _ =>
           let relevantContent := join (js " ") found in
           let pageReferences := extractPageNumbers relevantContent in
           let cleanedContext := cleanContext relevantContent in
           let filteredContext :=
             filterRelevantContent cleanedContext (query req) in
           let* aiResponse :=
             generateNaturalAnswer (query req) filteredContext pageReferences
               (orElse (depth req) (js "normal")) in
           ret (Status200 {| payloadQuery := query req;
                             results := aiResponse;
                             pageReferences := pageReferences;
                             count := Z.of_nat (length found) |})
       end
     end
     end)
    (fun error => ret (Status500 (js "Internal server error") error)).

End WithLowerCase.

End Variant.

(** ** The backend of [server/server.js] *)

Module Server.

Record ScoredSentence := {
  sentence : jsstring;
  score : Z
}.

(** [/[.!?]/]. *)
Definition isTerminator (c : char) : bool :=
  existsb (char_eqb c) [46; 33; 63]%N.

Section WithLowerCase.

(** [String.prototype.toLowerCase]. *)
Variable toLowerCase : jsstring -> jsstring.

Definition sentences (content : jsstring) : list jsstring :=
  List.filter (fun s => (10 <? length (trim s))%nat)
    (splitChars isTerminator content).

Definition queryKeywords (query : jsstring) : list jsstring :=
  splitRuns isWhiteSpace (toLowerCase query).

Definition scoreSentence (query pdfType : jsstring) (sentence : jsstring)
    : ScoredSentence :=
  let lowerSentence := toLowerCase sentence in
  let score := 0 in
  let score :=
    fold_left
      (fun score keyword =>
         if (3 <? length keyword)%nat && includes lowerSentence keyword
         then score + 3 else score)
      (queryKeywords query) score in
  let score :=
    if includes lowerSentence (toLowerCase query) then score + 10
    else score in
  let score :=
    if startsWith lowerSentence (toLowerCase query ++ js " is")
       || startsWith lowerSentence (toLowerCase query ++ js " are")
       || includes lowerSentence (js "is " ++ toLowerCase query)
       || includes lowerSentence (js "are " ++ toLowerCase query)
       || includes lowerSentence (js "defined as")
       || includes lowerSentence (js "refers to")
    then score + 15 else score in
  let score :=
    if str_eqb pdfType (js "qa")
       && (includes lowerSentence (js "question")
           || includes lowerSentence (js "answer"))
    then score + 5 else score in
  {| sentence := sentence; score := score |}.

Definition scoredSentences (content query pdfType : jsstring)
    : list ScoredSentence :=
  List.map (scoreSentence query pdfType) (sentences content).

Definition relevantSentences (content query pdfType : jsstring)
    : list jsstring :=
  List.map sentence
    (sort (fun a b => score b - score a)
       (List.filter (fun item => 0 <? score item)
          (scoredSentences content query pdfType))).

Definition filterRelevantContent (content query pdfType : jsstring)
    : jsstring :=
  join (js ". ") (slice0 7 (relevantSentences content query pdfType))
  ++ js ".".

(** The scored items behind the sentences that the ranker returns: the chain
    of [filter] and [sort], cut at seven, before the sentences are taken
    out. *)
Definition topRanked (content query pdfType : jsstring)
    : list ScoredSentence :=
  slice0 7
    (sort (fun a b => score b - score a)
       (List.filter (fun item => 0 <? score item)
          (scoredSentences content query pdfType))).

(** The score as the specification words it, for a document that is not of
    type qa: three points for every keyword of the query longer than three
    characters that the lowercased sentence holds, ten if it holds the whole
    lowercased query, fifteen if it matches a definitional pattern. *)
Definition isDefinitional (query lowerSentence : jsstring) : bool :=
  startsWith lowerSentence (toLowerCase query ++ js " is")
  || startsWith lowerSentence (toLowerCase query ++ js " are")
  || includes lowerSentence (js "is " ++ toLowerCase query)
  || includes lowerSentence (js "are " ++ toLowerCase query)
  || includes lowerSentence (js "defined as")
  || includes lowerSentence (js "refers to").

Definition specScore (query sentence : jsstring) : Z :=
  let lowerSentence := toLowerCase sentence in
  3 * Z.of_nat
        (length
           (List.filter
              (fun keyword =>
                 (3 <? length keyword)%nat && includes lowerSentence keyword)
              (queryKeywords query)))
  + (if includes lowerSentence (toLowerCase query) then 10 else 0)
  + (if isDefinitional query lowerSentence then 15 else 0).

Definition generationConfig (depth : jsstring) : GenerationConfig :=
  let deep := str_eqb depth (js "deep") in
  {| temperature := if deep then 30 else 10;
     topK := if deep then 40 else 20;
     topP := if deep then 95 else 90;
     maxOutputTokens := if deep then 4096 else 2048 |}.

Definition depthInstruction (depth : jsstring) : jsstring :=
  if str_eqb depth (js "step-by-step") then
    js "Provide a detailed, step-by-step explanation. Break down complex concepts into manageable steps with clear transitions between them."
  else if str_eqb depth (js "deep") then
    js "Provide a comprehensive, in-depth explanation with detailed examples, analogies, and thorough context."
  else if str_eqb depth (js "deeper") then
    js "Provide an extremely detailed, exhaustive explanation covering all aspects, with multiple examples, practical applications, and connections to related concepts."
  else if str_eqb depth (js "simple") then
    js "Provide a simple, easy-to-understand explanation. Avoid technical jargon and use everyday language with relatable examples."
  else
    js "Provide a clear, direct answer that addresses the specific question.".

Definition typeInstruction (pdfType : jsstring) : jsstring :=
  if str_eqb pdfType (js "qa") then
    js "This document appears to be in a question-answer format. When appropriate, structure your response in a similar Q&A style or clearly address the questions posed in the document."
  else [].

Definition prompt (query context : jsstring) (pageReferences : list Z)
    (pdfType depth : jsstring) : jsstring :=
  join nl
    [ [];
      js "      You are an expert educational assistant that provides exceptional answers based on document content.";
      [];
      js "      DOCUMENT TYPE: " ++ pdfType;
      js "      USER QUESTION: " ++ dq ++ query ++ dq;
      js "      REQUESTED DEPTH: " ++ depth;
      [];
      js "      DOCUMENT CONTEXT:";
      js "      " ++ context;
      [];
      js "      INSTRUCTIONS:";
      js "      1. " ++ depthInstruction depth;
      js "      2. " ++ typeInstruction pdfType;
      js "      3. Answer the question based ONLY on the provided document content";
      js "      4. Do not make up information not found in the document";
      js "      5. If the document doesn't contain the answer, say so politely but helpfully";
      js "      6. Write in a natural, engaging, and conversational tone";
      js "      7. Format your response appropriately - use headings, bullet points, or numbered steps when helpful";
      js "      8. Include the page reference: " ++ dq
        ++ pageRefText pageReferences ++ dq;
      [];
      js "      IMPORTANT: ";
      js "      - If explaining a process or concept, break it down into logical steps";
      js "      - Use analogies and examples to make complex ideas accessible";
      js "      - For mathematical or technical content, show your work or reasoning process";
      js "      - Adapt your explanation style to match the document's content and structure";
      [];
      js "      Please provide your enhanced answer:";
      js "    " ].

(** The last step of the [try] block: the citation is appended when there is
    one and the answer does not hold it yet. *)
Definition addPageReferences (finalResponse : jsstring)
    (pageReferences : list Z) : jsstring :=
  match pageRefText pageReferences with
  | [] => finalResponse
  | _ :: _ =>
      if negb (includes finalResponse (pageRefText pageReferences))
      then finalResponse ++ nl ++ nl ++ pageRefText pageReferences
      else finalResponse
  end.

Definition fallbackAnswer (query : jsstring) (pageReferences : list Z)
    : jsstring :=
  js "Based on the document, I found relevant information about " ++ dq
  ++ query ++ dq ++ js ". "
  ++ match pageReferences with
     | _ :: _ =>
         js "This information can be found on pages "
         ++ join (js ", ") (List.map numberToString pageReferences)
         ++ js "."
     | [] => []
     end.

Variable env : Env.

Definition generateEnhancedAnswer (query context : jsstring)
    (pageReferences : list Z) (pdfType depth : jsstring) : M jsstring :=
  tryCatch
    (if negb (GOOGLE_API_KEY env) then throw (js "GOOGLE_API_KEY is not set")
     else
       let model := js "gemini-2.0-flash" in
       let config := generationConfig depth in
       let* finalResponse :=
         callGenerate env model config
           (prompt query context pageReferences pdfType depth) in
       ret (addPageReferences finalResponse pageReferences))
    (fun error => ret (fallbackAnswer query pageReferences)).

(** The generation raises an error: the key is missing or the call
    throws. *)
Definition generationFails (query context : jsstring)
    (pageReferences : list Z) (pdfType depth : jsstring) : Prop :=
  GOOGLE_API_KEY env = false
  \/ exists e,
       generateContent env 0
         (prompt query context pageReferences pdfType depth) = Thrown e.

Definition getSmallTalkResponse (query : jsstring) : jsstring :=
  let lowerQuery := trim (toLowerCase query) in
  if test (RegExp "^hi$|^hello$|^hey$|^greetings$" noFlags) lowerQuery then
    js "Hello! I'm your PDF assistant, ready to help you explore and understand your documents. What would you like to know about your PDF?"
  else if test (RegExp "^how are you$" noFlags) lowerQuery then
    js "I'm doing great, thanks for asking! I'm ready to help you understand your document. What would you like to explore today?"
  else if test (RegExp "^thanks|thank you|thx" noFlags) lowerQuery then
    js "You're welcome! I'm glad I could help. Is there anything else you'd like to know about your document?"
  else if test (RegExp "^good morning|good afternoon|good evening" noFlags)
            lowerQuery then
    query ++ js "! It's a great time to learn something new from your document. What would you like to explore?"
  else if test (RegExp "^what's up|sup" noFlags) lowerQuery then
    js "Just ready to help you understand your documents! What would you like to know?"
  else if test (RegExp "^who are you$" noFlags) lowerQuery then
    js "I'm your PDF assistant, here to help you understand and explore the content of your documents. You can ask me questions about anything in your PDF, and I'll provide detailed explanations!"
  else js "How can I help you with your document today?".

(** What [pdfCollections] keeps for an uploaded document; the field [type]
    is [pdfType] here. *)
Record PdfData := {
  filename : jsstring;
  uploadedAt : jsstring;
  pdfType : jsstring
}.

Definition notFoundAnswer (query : jsstring) : jsstring :=
  js "I couldn't find specific information about " ++ dq ++ query ++ dq
  ++ js " in this document. The document might focus on different topics. Could you try asking about something else or rephrasing your question?".

(** [k] of the retriever. *)
Definition retrieverK (depth : jsstring) : nat :=
  if str_eqb depth (js "deep") || str_eqb depth (js "deeper") then 10%nat
  else 7%nat.

(** The handler of [POST /chat]. *)
Definition chat (pdfCollections : gmap jsstring PdfData) (req : ChatRequest)
    : M response :=
  tryCatch
    (match query req with
     | [] => ret (Status400 (js "Query parameter is required"))
     | _ :: _ =>
     match pdfId req, pdfCollections !! pdfId req with
     | [], _ | _, None => ret (Status400 (js "Valid PDF ID is required"))
     | _ :: _, Some pdfData =>
     if isSmallTalk (query req) then
       ret (Status200 {| payloadQuery := query req;
                         results := getSmallTalkResponse (query req);
                         pageReferences := [];
                         count := 0 |})
     else
       let pdfType := orElse (pdfType pdfData) (js "general") in
       let* found :=
         callRetrieve env (pdfId req) (query req) (retrieverK (depth req)) in
       match found with
       | [] =>
           ret (Status200 {| payloadQuery := query req;
                             results := notFoundAnswer (query req);
                             pageReferences := [];
                             count := 0 |})
       | _ :: _ =>
           let relevantContent := join (js " ") found in
           let pageReferences := extractPageNumbers relevantContent in
           let filteredContext :=
             filterRelevantContent relevantContent (query req) pdfType in
           let* aiResponse :=
             generateEnhancedAnswer (query req) filteredContext
               pageReferences pdfType (orElse (depth req) (js "normal")) in
           ret (Status200 {| payloadQuery := query req;
                             results := aiResponse;
                             pageReferences := pageReferences;
                             count := Z.of_nat (length found) |})
       end
     end
     end)
    (fun error => ret (Status500 (js "Internal server error") error)).

End WithLowerCase.

End Server.

(** ** The Answer-Request Assembler of either backend *)

Module Assembler.

Inductive backend := InServer | InVariant.

Section WithEnv.

Variable env : Env.

(** [generateEnhancedAnswer] of [server/server.js], or [generateNaturalAnswer]
    of the variant backend, which has no document type. *)
Definition generate (b : backend) (query context : jsstring)
    (pageReferences : list Z) (pdfType depth : jsstring) : M jsstring :=
  match b with
  | InServer =>
      Server.generateEnhancedAnswer env query context pageReferences pdfType
        depth
  | InVariant =>
      Variant.generateNaturalAnswer env query context pageReferences depth
  end.

Definition generationFails (b : backend) (query context : jsstring)
    (pageReferences : list Z) (pdfType depth : jsstring) : Prop :=
  match b with
  | InServer =>
      Server.generationFails env query context pageReferences pdfType depth
  | InVariant => Variant.generationFails env query context pageReferences depth
  end.

End WithEnv.

Definition fallbackAnswer (b : backend) (query : jsstring)
    (pageReferences : list Z) : jsstring :=
  match b with
  | InServer => Server.fallbackAnswer query pageReferences
  | InVariant => Variant.fallbackAnswer query pageReferences
  end.

End Assembler.

(** ** Environments and requests on which the code is evaluated *)

Module Examples.

(** A store with one uploaded document. *)
Definition report : Server.PdfData :=
  {| Server.filename := js "report.pdf";
     Server.uploadedAt := js "2025-01-01T00:00:00.000Z";
     Server.pdfType := js "general" |}.

Definition pdfs : gmap jsstring Server.PdfData := {[ js "3f9a" := report ]}.

Definition request (query : string) : ChatRequest :=
  {| query := js query; pdfId := js "3f9a"; depth := [] |}.

(** Generation answers "ok" first and "no" afterwards; retrieval finds
    nothing. *)
Definition terse : Env :=
  {| GOOGLE_API_KEY := true;
     generateContent :=
       fun n _ => match n with O => Returned (js "ok")
                          | S _ => Returned (js "no") end;
     invoke := fun _ _ _ => Returned [] |}.

(** Generation is out of quota; retrieval finds one chunk. *)
Definition outOfQuota : Env :=
  {| GOOGLE_API_KEY := true;
     generateContent := fun _ _ => Thrown (js "429 Too Many Requests");
     invoke :=
       fun _ _ _ =>
         Returned [js "Paris [Page 3] is the capital of France."] |}.

(** Generation answers a non-answer first and a full sentence afterwards. *)
Definition secondTry : Env :=
  {| GOOGLE_API_KEY := true;
     generateContent :=
       fun n _ =>
         match n with
         | O => Returned (js "I couldn't find it.")
         | S _ => Returned (js "Paris is the capital of France, as the text states plainly.")
         end;
     invoke := fun _ _ _ => Returned [] |}.

End Examples.

(** ** More environments *)

Module Cases.

(** No API key is configured; retrieval finds two chunks. *)
Definition noKey : Env :=
  {| GOOGLE_API_KEY := false;
     generateContent := fun _ _ => Returned (js "unused");
     invoke :=
       fun _ _ _ =>
         Returned [ js "Paris [Page 3] is the capital of France.";
                    js "[Page 7] It has a population of over 2 million [Page 7]." ] |}.

(** The vector store cannot be reached. *)
Definition storeDown : Env :=
  {| GOOGLE_API_KEY := true;
     generateContent := fun _ _ => Returned (js "unused");
     invoke := fun _ _ _ => Thrown (js "connect ECONNREFUSED") |}.

(** Retrieval finds two chunks and the model answers in one sentence. *)
Definition healthy : Env :=
  {| GOOGLE_API_KEY := true;
     generateContent :=
       fun _ _ => Returned (js "Paris is the capital of France.");
     invoke :=
       fun _ _ _ =>
         Returned [ js "Paris [Page 3] is the capital of France.";
                    js "[Page 7] It has a population of over 2 million [Page 7]." ] |}.

End Cases.

(** ** The upload endpoint of [server/server.js] *)

Module Upload.

(** One hexadecimal digit, in small letters, and [toString('hex')] of a
    buffer of bytes. *)
Definition hexDigit (n : N) : char :=
  if (n <? 10)%N then (48 + n)%N else (87 + n)%N.

Definition toHex (bytes : list N) : jsstring :=
  flat_map (fun b => [hexDigit (b / 16)%N; hexDigit (b mod 16)%N]) bytes.

(** What [cleanAndStructureText] returns; the field [type] is
    [structuredType]. *)
Record Structured := {
  structuredText : jsstring;
  structuredType : jsstring
}.

(** The parameter [pdfType] is [None] when the caller leaves it out, and
    then takes its default. *)
Definition cleanAndStructureText (text : jsstring)
    (pdfType : option jsstring) : Structured :=
  let pdfType := match pdfType with Some t => t | None => js "general" end in
  let cleaned := trim (replaceAll Variant.whiteSpaceRun (js " ") text) in
  {| structuredText := cleaned; structuredType := pdfType |}.

(** [req.file], as multer leaves it. *)
Record UploadedFile := {
  originalname : jsstring;
  destination : jsstring;
  path : jsstring
}.

(** The data of the job put on the queue. *)
Record Job := {
  jobFilename : jsstring;
  jobDestination : jsstring;
  jobPath : jsstring;
  textPath : jsstring;
  jobPdfId : jsstring;
  jobPdfType : jsstring
}.

(** The world around the endpoint: [crypto.randomBytes], the loader of PDF
    files (the page contents of the documents, or an exception),
    [fs.writeFileSync], [queue.add] and the clock. *)
Record World := {
  randomBytes : nat -> list N;
  load : jsstring -> outcome (list jsstring);
  writeFileSync : jsstring -> jsstring -> outcome unit;
  add : Job -> outcome unit;
  toISOString : jsstring
}.

Inductive effect :=
| Loaded (filePath : jsstring)
| Written (filePath content : jsstring)
| Queued (job : Job).

Record UploadPayload := {
  message : jsstring;
  file : UploadedFile;
  payloadPdfId : jsstring;
  payloadPdfType : jsstring;
  status : jsstring
}.

Inductive uploadResponse :=
| Uploaded (payload : UploadPayload)
| Refused (error : jsstring)
| Failed (error : jsstring).

Section WithWorld.

Variable world : World.

Definition generatePdfId : jsstring := toHex (randomBytes world 16).

Definition extractTextFromPDF (filePath : jsstring) : outcome jsstring :=
  match load world filePath with
  | Returned docs => Returned (join (js " ") docs)
  | Thrown _ => Thrown (js "Failed to extract text from PDF")
  end.

(** The handler of [POST /upload/pdf]: the response, the map
    [pdfCollections] afterwards and what was done outside, in order.
    [Refused] is status 400, [Failed] status 500. *)
Definition upload (pdfCollections : gmap jsstring Server.PdfData)
    (reqFile : option UploadedFile)
    : uploadResponse * gmap jsstring Server.PdfData * list effect :=
  match reqFile with
  | None => (Refused (js "No file uploaded"), pdfCollections, [])
  | Some reqFile =>
      let pdfId := generatePdfId in
      match extractTextFromPDF (path reqFile) with
      | Thrown _ =>
          (Failed (js "Internal server error"), pdfCollections,
           [Loaded (path reqFile)])
      | Returned extractedText =>
          let structured := cleanAndStructureText extractedText None in
          let cleanedText := structuredText structured in
          let pdfType := structuredType structured in
          let tempTextPath := js "uploads/" ++ pdfId ++ js "_temp.txt" in
          match writeFileSync world tempTextPath cleanedText with
          | Thrown _ =>
              (Failed (js "Internal server error"), pdfCollections,
               [Loaded (path reqFile); Written tempTextPath cleanedText])
          | Returned _ =>
              let job :=
                {| jobFilename := originalname reqFile;
                   jobDestination := destination reqFile;
                   jobPath := path reqFile;
                   textPath := tempTextPath;
                   jobPdfId := pdfId;
                   jobPdfType := pdfType |} in
              match add world job with
              | Thrown _ =>
                  (Failed (js "Internal server error"), pdfCollections,
                   [Loaded (path reqFile); Written tempTextPath cleanedText;
                    Queued job])
              | Returned _ =>
                  (Uploaded
                     {| message := js "File uploaded successfully";
                        file := reqFile;
                        payloadPdfId := pdfId;
                        payloadPdfType := pdfType;
                        status := js "Processing started" |},
                   <[ pdfId :=
                        {| Server.filename := originalname reqFile;
                           Server.uploadedAt := toISOString world;
                           Server.pdfType := pdfType |} ]> pdfCollections,
                   [Loaded (path reqFile); Written tempTextPath cleanedText;
                    Queued job])
              end
          end
      end
  end.

End WithWorld.

(** The maps [pdfCollections] that the server can hold: it starts empty and
    only the upload endpoint writes to it. *)
Inductive reachable : gmap jsstring Server.PdfData -> Prop :=
| reachable_empty : reachable ∅
| reachable_upload (world : World)
    (pdfCollections : gmap jsstring Server.PdfData)
    (reqFile : option UploadedFile) :
    reachable pdfCollections ->
    reachable (snd (fst (upload world pdfCollections reqFile))).

End Upload.

(** ** The worker that indexes an uploaded file *)

Module Worker.

(** A collection as [getCollections] lists it; [creation_time] may be
    absent. *)
Record Collection := {
  name : jsstring;
  creation_time : option Z
}.

(** What the worker does outside, in order.  A store of a batch is recorded
    with its outcome. *)
Inductive event :=
| Listed
| Waited (ms : Z)
| Loaded (filePath : jsstring)
| Split (docs : list jsstring)
| Stored (batch : list jsstring) (collectionName : jsstring) (ok : bool)
| Deleted (collectionName : jsstring).

(** The services around the worker; those that may answer differently from
    one call to the next are given what happened so far. *)
Record Services := {
  getCollections : list event -> outcome (list Collection);
  deleteCollection : list event -> jsstring -> outcome unit;
  existsSync : jsstring -> outcome bool;
  load : jsstring -> outcome (list jsstring);
  splitDocuments : list jsstring -> outcome (list jsstring);
  fromDocuments : list event -> list jsstring -> jsstring -> outcome unit;
  dateNow : Z
}.

(** Computations that may throw and that log what they do outside. *)
Definition W (A : Type) : Type := list event -> outcome A * list event.

Definition ret {A} (a : A) : W A := fun log => (Returned a, log).

Definition throw {A} (message : jsstring) : W A :=
  fun log => (Thrown message, log).

Definition bind {A B} (c : W A) (k : A -> W B) : W B :=
  fun log =>
    match c log with
    | (Returned a, log') => k a log'
    | (Thrown e, log') => (Thrown e, log')
    end.

Definition tryCatch {A} (body : W A) (handler : jsstring -> W A) : W A :=
  fun log =>
    match body log with
    | (Returned a, log') => (Returned a, log')
    | (Thrown e, log') => handler e log'
    end.

(** [await delay(ms)]. *)
Definition delay (ms : Z) : W unit :=
  fun log => (Returned tt, log ++ [Waited ms]).

(** The data of a job; a field that is missing is the empty string. *)
Record JobData := {
  path : jsstring;
  pdfId : jsstring
}.

Record JobResult := {
  success : bool;
  chunks : Z;
  resultPdfId : jsstring
}.

Definition batchSize : nat := 20.
Definition maxRetries : nat := 10.

(** [Array.prototype.slice(i, j)] with indices inside the array or past its
    end. *)
Definition slice {A} (i j : nat) (l : list A) : list A :=
  firstn (j - i) (skipn i l).

Section WithServices.

Variable services : Services.

Definition fileExists (filePath : jsstring) : bool :=
  match existsSync services filePath with
  | Returned b => b
  | Thrown _ => false
  end.

(** The loop of [checkQdrantAvailability]; [remaining] is
    [maxRetries - i]. *)
Fixpoint checkQdrantLoop (remaining : nat) : W bool :=
  match remaining with
  | O => throw (js "Qdrant is not available after multiple attempts")
  | S remaining' =>
      fun log =>
        match getCollections services log with
        | Returned _ => (Returned true, log ++ [Listed])
        | Thrown _ =>
            bind (delay 5000) (fun _ => checkQdrantLoop remaining')
              (log ++ [Listed])
        end
  end.

Definition checkQdrantAvailability (maxRetries : nat) : W bool :=
  checkQdrantLoop maxRetries.

(** The body of the loop over the collections in
    [cleanupUnusedCollections]. *)
Fixpoint cleanupLoop (currentCollection : jsstring) (oneDayAgo : Z)
    (collections : list Collection) : W unit :=
  match collections with
  | [] => ret tt
  | collection :: collections' =>
      if str_eqb (name collection) currentCollection
         || startsWith (name collection) (js ".")
      then cleanupLoop currentCollection oneDayAgo collections'
      else
        match creation_time collection with
        | Some t =>
            if negb (t =? 0) && (t <? oneDayAgo) then
              fun log =>
                match deleteCollection services log (name collection) with
                | Returned _ =>
                    bind (delay 1000)
                      (fun _ =>
                         cleanupLoop currentCollection oneDayAgo
                           collections')
                      (log ++ [Deleted (name collection)])
                | Thrown e =>
                    (Thrown e, log ++ [Deleted (name collection)])
                end
            else cleanupLoop currentCollection oneDayAgo collections'
        | None => cleanupLoop currentCollection oneDayAgo collections'
        end
  end.

Definition cleanupUnusedCollections (currentCollection : jsstring)
    : W unit :=
  tryCatch
    (fun log =>
       match getCollections services log with
       | Returned collections =>
           let now := dateNow services in
           let oneDayAgo := now - 24 * 60 * 60 * 1000 in
           cleanupLoop currentCollection oneDayAgo collections
             (log ++ [Listed])
       | Thrown e => (Thrown e, log ++ [Listed])
       end)
    (fun error => ret tt).

(** The [while] loop that stores one batch.  [fuel] bounds the number of
    turns; the loop itself stops on its condition. *)
Fixpoint storeBatch (fuel retries : nat) (batch : list jsstring)
    (collectionName : jsstring) : W unit :=
  match fuel with
  | O => ret tt
  | S fuel' =>
      if (retries <? maxRetries)%nat then
        fun log =>
          match fromDocuments services log batch collectionName with
          | Returned _ =>
              delay 2000 (log ++ [Stored batch collectionName true])
          | Thrown error =>
              let retries := S retries in
              if (maxRetries <=? retries)%nat then
                (Thrown error, log ++ [Stored batch collectionName false])
              else
                bind (delay (5000 * Z.of_nat retries))
                  (fun _ => storeBatch fuel' retries batch collectionName)
                  (log ++ [Stored batch collectionName false])
          end
      else ret tt
  end.

(** The [for] loop over the batches.  [fuel] bounds the number of turns;
    the loop itself stops on its condition. *)
Fixpoint storeFrom (fuel i : nat) (chunks : list jsstring)
    (collectionName : jsstring) : W unit :=
  match fuel with
  | O => ret tt
  | S fuel' =>
      if (i <? length chunks)%nat then
        let batch := slice i (i + batchSize) chunks in
        bind (storeBatch maxRetries 0 batch collectionName)
          (fun _ => storeFrom fuel' (i + batchSize) chunks collectionName)
      else ret tt
  end.

Definition storeAll (chunks : list jsstring) (collectionName : jsstring)
    : W unit :=
  storeFrom (length chunks) 0 chunks collectionName.

(** The processor of the worker; [job] is [job.data]. *)
Definition processor (job : option JobData) : W JobResult :=
  tryCatch
    (bind (checkQdrantAvailability 5) (fun _ =>
     match job with
     | None => throw (js "Job data is missing required fields")
     | Some data =>
         match path data, pdfId data with
         | [], _ | _, [] => throw (js "Job data is missing required fields")
         | _ :: _, _ :: _ =>
             if negb (fileExists (path data)) then
               throw (js "File not found at path: " ++ path data)
             else
               fun log =>
                 match load services (path data) with
                 | Thrown e => (Thrown e, log ++ [Loaded (path data)])
                 | Returned [] =>
                     (Thrown (js "No content extracted from PDF"),
                      log ++ [Loaded (path data)])
                 | Returned docs =>
                     match splitDocuments services docs with
                     | Thrown e =>
                         (Thrown e,
                          log ++ [Loaded (path data); Split docs])
                     | Returned chunks =>
                         bind (storeAll chunks (pdfId data)) (fun _ =>
                         bind (cleanupUnusedCollections (pdfId data))
                           (fun _ =>
                         ret {| success := true;
                                chunks := Z.of_nat (length chunks);
                                resultPdfId := pdfId data |}))
                           (log ++ [Loaded (path data); Split docs])
                     end
                 end
         end
     end))
    (fun error => throw error).

End WithServices.

(** The batches that the loop of the worker cuts: at most [fuel] slices of
    [batchSize] chunks. *)
Fixpoint batchesOf {A} (fuel : nat) (l : list A) : list (list A) :=
  match fuel with
  | O => []
  | S fuel' =>
      match l with
      | [] => []
      | _ :: _ => firstn batchSize l :: batchesOf fuel' (skipn batchSize l)
      end
  end.

Definition batches {A} (l : list A) : list (list A) :=
  batchesOf (length l) l.

(** The batches that were stored with success, in order. *)
Definition storedBatches (log : list event) : list (list jsstring) :=
  flat_map
    (fun e => match e with Stored batch _ true => [batch] | _ => [] end)
    log.

(** The attempts to store, failed or not. *)
Definition isStore (e : event) : bool :=
  match e with Stored _ _ _ => true | _ => false end.

Definition storeAttempts (log : list event) : nat :=
  length (List.filter isStore log).

(** Probes of the store that failed, each followed by its wait. *)
Definition failedProbes (failures : nat) : list event :=
  concat (repeat [Listed; Waited 5000] failures).

(** Failed attempts to store one batch, the first of them being attempt
    number [first], each followed by its wait. *)
Definition failedStores (batch : list jsstring) (collectionName : jsstring)
    (first failures : nat) : list event :=
  flat_map
    (fun k => [Stored batch collectionName false;
               Waited (5000 * Z.of_nat k)])
    (seq first failures).

(** The time spent waiting. *)
Definition waited (log : list event) : Z :=
  fold_right (fun e total =>
                match e with Waited ms => ms + total | _ => total end)
    0 log.

Definition isProbe (e : event) : bool :=
  match e with Listed | Waited _ => true | _ => false end.

(** Every store recorded in [log] went to [collectionName]. *)
Definition storesInto (collectionName : jsstring) (log : list event) : Prop :=
  forall batch c ok, In (Stored batch c ok) log -> c = collectionName.

(** A collection that [cleanupUnusedCollections] takes for unused. *)
Definition unused (currentCollection : jsstring) (oneDayAgo : Z)
    (collection : Collection) : Prop :=
  name collection <> currentCollection
  /\ startsWith (name collection) (js ".") = false
  /\ exists t, creation_time collection = Some t /\ t <> 0 /\ t < oneDayAgo.

End Worker.

(** ** The chat component of the front end *)

Module Client.

(** What [handleSendMessage] reads of the component: its property
    [currentPdfId], empty when no document is selected, and its state. *)
Record Component := {
  currentPdfId : jsstring;
  inputMessage : jsstring;
  isLoading : bool;
  responseDepth : jsstring
}.

Section WithLowerCase.

Variable toLowerCase : jsstring -> jsstring.

(** The depth that [handleSendMessage] sends: the one asked for in the
    message, else the selected one. *)
Definition depthOf (inputMessage responseDepth : jsstring) : jsstring :=
  let userMessageLower := toLowerCase inputMessage in
  if includes userMessageLower (js "step by step")
     || includes userMessageLower (js "step-by-step")
  then js "step-by-step"
  else if includes userMessageLower (js "more depth")
          || includes userMessageLower (js "go deeper")
  then js "deeper"
  else if includes userMessageLower (js "in depth")
          || includes userMessageLower (js "detailed")
  then js "deep"
  else if includes userMessageLower (js "simple")
          || includes userMessageLower (js "easy")
          || includes userMessageLower (js "explain like")
  then js "simple"
  else responseDepth.

(** The body that [handleSendMessage] posts to the chat endpoint, if it
    posts at all. *)
Definition posted (component : Component) : option ChatRequest :=
  match trim (inputMessage component) with
  | [] => None
  | _ :: _ =>
      if isLoading component then None
      else
        match currentPdfId component with
        | [] => None
        | _ :: _ =>
            Some {| query := inputMessage component;
                    pdfId := currentPdfId component;
                    depth := depthOf (inputMessage component)
                               (responseDepth component) |}
        end
  end.

End WithLowerCase.

End Client.

(** ** Services around the worker *)

Module Runs.

Import Worker.

Definition stale : Collection :=
  {| name := js "0123"; creation_time := Some 1600000000000 |}.

Definition fresh : Collection :=
  {| name := js "4567"; creation_time := Some 1699999999000 |}.

Definition internal : Collection :=
  {| name := js ".system"; creation_time := Some 1600000000000 |}.

Definition own : Collection :=
  {| name := js "a7a7"; creation_time := Some 1600000000000 |}.

(** Every service answers. *)
Definition steady : Services :=
  {| getCollections := fun _ => Returned [stale; fresh; internal; own];
     deleteCollection := fun _ _ => Returned tt;
     existsSync := fun _ => Returned true;
     load := fun _ => Returned [js "page one"; js "page two"];
     splitDocuments := fun docs => Returned (docs ++ docs);
     fromDocuments := fun _ _ _ => Returned tt;
     dateNow := 1700000000000 |}.

Definition job : option JobData :=
  Some {| path := js "uploads/thesis.pdf"; pdfId := js "a7a7" |}.

Definition noPath : option JobData :=
  Some {| path := []; pdfId := js "a7a7" |}.

End Runs.

(** ** Worlds around the upload endpoint *)

Module Worlds.

Import Upload.

Definition thesis : UploadedFile :=
  {| originalname := js "thesis.pdf";
     destination := js "uploads/";
     path := js "uploads/1700000000000-123456789-thesis.pdf" |}.

(** Everything works; the random bytes are all 0xA7. *)
Definition working : World :=
  {| randomBytes := fun n => repeat 167%N n;
     load := fun _ => Returned [js "Chapter  1"; js " Introduction "];
     writeFileSync := fun _ _ => Returned tt;
     add := fun _ => Returned tt;
     toISOString := js "2025-01-01T00:00:00.000Z" |}.

(** The queue cannot be reached. *)
Definition queueDown : World :=
  {| randomBytes := fun n => repeat 167%N n;
     load := fun _ => Returned [js "Chapter  1"; js " Introduction "];
     writeFileSync := fun _ _ => Returned tt;
     add := fun _ => Thrown (js "connect ECONNREFUSED 127.0.0.1:6379");
     toISOString := js "2025-01-01T00:00:00.000Z" |}.

End Worlds.

(** ** Notions used to state further properties *)

Module Notions.

(** What [asciiToLowerCase] does to one code unit. *)
Definition asciiLowerChar (c : char) : char :=
  let n := Z.of_N c in
  if (65 <=? n) && (n <=? 90) then (c + 32)%N else c.

(** A character of a pattern that is no ASCII capital letter. *)
Definition isLowerPattern (c : char) : bool :=
  let n := Z.of_N c in negb ((65 <=? n) && (n <=? 90)).

(** The reply of [getSmallTalkResponse] when no pattern matches. *)
Definition defaultReply : jsstring :=
  js "How can I help you with your document today?".

End Notions.

Import Notions.

(** * Properties *)

(** ** Strings *)

Section StringFacts.

Lemma char_eqb_eq (a b : char) : char_eqb a b = true <-> a = b.
Proof. unfold char_eqb. apply N.eqb_eq. Qed.

Lemma char_eqb_refl (a : char) : char_eqb a a = true.
Proof. apply char_eqb_eq. reflexivity. Qed.

Lemma str_eqb_eq (s t : jsstring) : str_eqb s t = true <-> s = t.
Proof.
  revert t. induction s as [|a s IH]; intros [|b t]; simpl;
    try (split; [discriminate || reflexivity | discriminate || reflexivity]).
  rewrite andb_true_iff, char_eqb_eq, IH. split.
  - intros [-> ->]. reflexivity.
  - intros E. injection E. auto.
Qed.

Lemma startsWith_app (p s : jsstring) : startsWith (p ++ s) p = true.
Proof.
  induction p as [|b p IH]; simpl; [reflexivity|].
  rewrite char_eqb_refl. exact IH.
Qed.

Lemma startsWith_split (s p : jsstring) :
  startsWith s p = true -> s = p ++ skipn (length p) s.
Proof.
  revert s. induction p as [|b p IH]; intros s H; simpl in *.
  - reflexivity.
  - destruct s as [|a s]; [discriminate|].
    apply andb_true_iff in H. destruct H as [Hc Hs].
    apply char_eqb_eq in Hc. subst b. simpl. f_equal. apply IH, Hs.
Qed.

Lemma startsWith_nil_r (s : jsstring) : startsWith s [] = true.
Proof. reflexivity. Qed.

Lemma includes_startsWith (s p : jsstring) :
  startsWith s p = true -> includes s p = true.
Proof. intros H. destruct s; simpl; rewrite H; reflexivity. Qed.

Lemma includes_app (a p b : jsstring) : includes (a ++ p ++ b) p = true.
Proof.
  induction a as [|c a IH]; simpl.
  - apply includes_startsWith, startsWith_app.
  - rewrite IH. apply orb_true_r.
Qed.

Lemma includes_split (s p : jsstring) :
  includes s p = true -> exists a b, s = a ++ p ++ b.
Proof.
  induction s as [|c s IH]; simpl; intros H.
  - rewrite orb_false_r in H. exists [], []. simpl.
    apply startsWith_split in H. rewrite H at 1.
    destruct p; reflexivity.
  - apply orb_true_iff in H. destruct H as [H|H].
    + exists [], (skipn (length p) (c :: s)). simpl.
      apply startsWith_split in H. exact H.
    + destruct (IH H) as (a & b & ->). exists (c :: a), b. reflexivity.
Qed.

Lemma spanChars_spec (p : char -> bool) (s run rest : jsstring) :
  spanChars p s = (run, rest) ->
  s = run ++ rest /\ forallb p run = true.
Proof.
  revert run rest. induction s as [|c s IH]; simpl; intros run rest H.
  - injection H as <- <-. split; reflexivity.
  - destruct (p c) eqn:Hc.
    + destruct (spanChars p s) as [r0 t0]. injection H as <- <-.
      destruct (IH r0 t0 eq_refl) as [-> Hall]. simpl. rewrite Hc.
      split; [reflexivity | exact Hall].
    + injection H as <- <-. split; reflexivity.
Qed.

Lemma spanChars_rest (p : char -> bool) (s run : jsstring) (c : char)
    (rest : jsstring) :
  spanChars p s = (run, c :: rest) -> p c = false.
Proof.
  revert run. induction s as [|a s IH]; simpl; intros run H.
  - discriminate.
  - destruct (p a) eqn:Ha.
    + destruct (spanChars p s) as [r0 t0] eqn:E. injection H as <- ->.
      eapply IH. reflexivity.
    + injection H as <- <- <-. exact Ha.
Qed.

End StringFacts.

(** ** Sorting *)

Section SortFacts.

Context {A : Type} (compareFn : A -> A -> Z).

Lemma insertSorted_perm (x : A) (l : list A) :
  Permutation (insertSorted compareFn x l) (x :: l).
Proof.
  induction l as [|y l IH]; simpl.
  - reflexivity.
  - destruct (compareFn x y <=? 0).
    + reflexivity.
    + rewrite IH. apply perm_swap.
Qed.

Lemma sort_perm (l : list A) : Permutation (sort compareFn l) l.
Proof.
  induction l as [|x l IH]; simpl.
  - reflexivity.
  - rewrite insertSorted_perm. apply perm_skip, IH.
Qed.

Lemma sort_In (l : list A) (x : A) : In x (sort compareFn l) <-> In x l.
Proof.
  split; apply Permutation_in; [|symmetry]; apply sort_perm.
Qed.

Lemma sort_length (l : list A) : length (sort compareFn l) = length l.
Proof. apply Permutation_length, sort_perm. Qed.

(** Stability: the elements of a class whose members never come strictly
    after one another keep their order. *)
Lemma filter_insertSorted (p : A -> bool) (x : A) (l : list A) :
  (forall a b, p a = true -> p b = true -> compareFn a b <= 0) ->
  List.filter p (insertSorted compareFn x l) = List.filter p (x :: l).
Proof.
  intros Hp. induction l as [|y l IH]; simpl.
  - reflexivity.
  - destruct (compareFn x y <=? 0) eqn:Hc; simpl.
    + reflexivity.
    + rewrite IH. simpl. apply Z.leb_gt in Hc.
      destruct (p x) eqn:Hx, (p y) eqn:Hy; try reflexivity.
      specialize (Hp x y Hx Hy). lia.
Qed.

Lemma filter_sort (p : A -> bool) (l : list A) :
  (forall a b, p a = true -> p b = true -> compareFn a b <= 0) ->
  List.filter p (sort compareFn l) = List.filter p l.
Proof.
  intros Hp. induction l as [|x l IH]; simpl.
  - reflexivity.
  - rewrite filter_insertSorted by exact Hp. simpl. rewrite IH. reflexivity.
Qed.

Hypothesis compare_total :
  forall x y, precedes compareFn x y \/ precedes compareFn y x.
Hypothesis compare_trans :
  forall x y z,
    precedes compareFn x y -> precedes compareFn y z ->
    precedes compareFn x z.

Lemma insertSorted_sorted (x : A) (l : list A) :
  StronglySorted (precedes compareFn) l ->
  StronglySorted (precedes compareFn) (insertSorted compareFn x l).
Proof.
  induction 1 as [|y l Hl IH Hy]; simpl.
  - constructor; constructor.
  - destruct (compareFn x y <=? 0) eqn:Hc.
    + apply Z.leb_le in Hc. constructor.
      * constructor; assumption.
      * constructor; [exact Hc|].
        rewrite List.Forall_forall in Hy |- *. intros z Hz.
        eapply compare_trans; [exact Hc | apply Hy, Hz].
    + apply Z.leb_gt in Hc. constructor; [exact IH|].
      rewrite List.Forall_forall in Hy |- *. intros z Hz.
      apply (Permutation_in _ (insertSorted_perm x l)) in Hz.
      destruct Hz as [<-|Hz]; [|apply Hy, Hz].
      destruct (compare_total y x) as [H|H]; [exact H|].
      unfold precedes in H. lia.
Qed.

Lemma sort_sorted (l : list A) :
  StronglySorted (precedes compareFn) (sort compareFn l).
Proof.
  induction l as [|x l IH]; simpl.
  - constructor.
  - apply insertSorted_sorted, IH.
Qed.

End SortFacts.

(** ** The Page-Reference Extractor *)

Section PageNumbers.

Lemma pageRegex_spec (s g : jsstring) (n : nat) :
  pageRegex s = Some (g, n) ->
  exists rest,
    s = pageMarker g ++ rest /\ g <> [] /\ forallb isDigit g = true
    /\ n = (6 + length g + 1)%nat.
Proof.
  unfold pageRegex. intros H.
  destruct (startsWith s (js "[Page ")) eqn:Hs; [|discriminate].
  apply startsWith_split in Hs.
  change (length (js "[Page ")) with 6%nat in Hs.
  destruct (spanChars isDigit (skipn 6 s)) as [digits rest] eqn:Hspan.
  apply spanChars_spec in Hspan. destruct Hspan as [Hsk Hdig].
  destruct digits as [|d ds]; [discriminate|].
  destruct rest as [|c rest]; [discriminate|].
  destruct (char_eqb c 93%N) eqn:Hc; [|discriminate].
  apply char_eqb_eq in Hc. subst c. injection H as <- <-.
  exists rest. repeat split; try assumption; try discriminate.
  rewrite Hs, Hsk. unfold pageMarker. rewrite <- !app_assoc. reflexivity.
Qed.

Lemma execFrom_pageRegex (s g : jsstring) (skip : nat) :
  In g (execFrom pageRegex skip s) ->
  exists before after,
    s = before ++ pageMarker g ++ after
    /\ g <> [] /\ forallb isDigit g = true.
Proof.
  revert skip. induction s as [|c s IH]; simpl; intros skip H.
  - contradiction.
  - assert (Hlater : forall k, In g (execFrom pageRegex k s) ->
              exists before after,
                c :: s = before ++ pageMarker g ++ after
                /\ g <> [] /\ forallb isDigit g = true).
    { intros k Hk. destruct (IH k Hk) as (b & a & -> & Hg).
      exists (c :: b), a. split; [reflexivity | exact Hg]. }
    destruct skip as [|k]; [|eapply Hlater, H].
    destruct (pageRegex (c :: s)) as [[g' [|k]]|] eqn:Hm;
      try (eapply Hlater, H).
    destruct H as [<-|H]; [|eapply Hlater, H].
    apply pageRegex_spec in Hm.
    destruct Hm as (rest & Hs & Hne & Hdig & _).
    exists [], rest. simpl. auto.
Qed.

Lemma digitValue_range (c : char) :
  isDigit c = true -> 0 <= digitValue c <= 9.
Proof.
  unfold isDigit, digitValue. rewrite andb_true_iff, !Z.leb_le. lia.
Qed.

Lemma parseInt_nonneg (ds : jsstring) :
  forallb isDigit ds = true -> 0 <= parseInt ds.
Proof.
  unfold parseInt.
  assert (G : forall acc, 0 <= acc -> forallb isDigit ds = true ->
            0 <= fold_left (fun acc c => 10 * acc + digitValue c) ds acc).
  { induction ds as [|c ds IH]; simpl; intros acc Hacc Hall.
    - exact Hacc.
    - apply andb_true_iff in Hall. destruct Hall as [Hc Hall].
      apply digitValue_range in Hc. apply IH; [lia | exact Hall]. }
  apply G. lia.
Qed.

Lemma matches_cited (content : jsstring) (n : Z) :
  In n (matches content) -> 0 <= n /\ citedIn content n.
Proof.
  unfold matches, execAll. rewrite in_map_iff. intros (g & <- & Hg).
  apply execFrom_pageRegex in Hg.
  destruct Hg as (before & after & Hs & Hne & Hdig). split.
  - apply parseInt_nonneg, Hdig.
  - exists before, g, after. auto.
Qed.

Lemma uniqueFrom_In (seen a : list Z) (x : Z) :
  In x (uniqueFrom seen a) <-> In x a /\ ~ In x seen.
Proof.
  revert seen. induction a as [|y a IH]; simpl; intros seen.
  - tauto.
  - destruct (existsb (Z.eqb y) seen) eqn:Hex.
    + rewrite IH. apply existsb_exists in Hex.
      destruct Hex as (z & Hz & Hyz). apply Z.eqb_eq in Hyz. subst z.
      split; [tauto|]. intros [[<-|Hx] Hn]; [contradiction | tauto].
    + simpl. rewrite IH. simpl.
      assert (Hy : ~ In y seen).
      { intros Hy. rewrite <- not_true_iff_false in Hex. apply Hex.
        apply existsb_exists. exists y. split; [exact Hy | apply Z.eqb_refl]. }
      split.
      * intros [<-|[Hx Hn]]; [tauto|]. split; [tauto|]. tauto.
      * intros [[<-|Hx] Hn]; [tauto|].
        destruct (Z.eq_dec y x) as [->|Hne]; [tauto|]. right. tauto.
Qed.

Lemma uniqueFrom_NoDup (seen a : list Z) : NoDup (uniqueFrom seen a).
Proof.
  revert seen. induction a as [|y a IH]; simpl; intros seen.
  - constructor.
  - destruct (existsb (Z.eqb y) seen); [apply IH|].
    constructor; [|apply IH].
    rewrite uniqueFrom_In. simpl. tauto.
Qed.

Lemma newSet_In (a : list Z) (x : Z) : In x (newSet a) <-> In x a.
Proof. unfold newSet. rewrite uniqueFrom_In. simpl. tauto. Qed.

Lemma ascending_strict (l : list Z) :
  StronglySorted (precedes (fun a b => a - b)) l -> NoDup l ->
  StronglySorted Z.lt l.
Proof.
  induction 1 as [|x l Hl IH Hx]; intros Hnd.
  - constructor.
  - inversion Hnd as [|? ? Hnotin Hnd']; subst. constructor; [auto|].
    rewrite List.Forall_forall in Hx |- *. intros y Hy.
    specialize (Hx y Hy). unfold precedes in Hx.
    assert (x <> y) by (intros ->; contradiction). lia.
Qed.

Lemma extractPageNumbers_In (content : jsstring) (n : Z) :
  In n (extractPageNumbers content) <-> In n (matches content).
Proof. unfold extractPageNumbers. rewrite sort_In. apply newSet_In. Qed.

Lemma extractPageNumbers_sorted (content : jsstring) :
  StronglySorted Z.lt (extractPageNumbers content)
  /\ NoDup (extractPageNumbers content).
Proof.
  assert (Hnd : NoDup (extractPageNumbers content)).
  { unfold extractPageNumbers.
    eapply Permutation_NoDup; [symmetry; apply sort_perm|].
    apply uniqueFrom_NoDup. }
  split; [|exact Hnd].
  apply ascending_strict; [|exact Hnd].
  apply sort_sorted; unfold precedes; intros; lia.
Qed.

End PageNumbers.

(** C1, as the code has it.  For every text whose page numbers stay in the
    range where the numbers of the language are exact, [extractPageNumbers]
    returns integers in strictly ascending order, without duplicates, each
    of them not negative (zero included) and equal to the value of the run
    of digits of some page marker of the text. *)
Theorem extractPageNumbers_ascending_cited (content : jsstring) :
  exactPages content = true ->
  StronglySorted Z.lt (extractPageNumbers content)
  /\ NoDup (extractPageNumbers content)
  /\ Forall (fun n => 0 <= n /\ citedIn content n)
       (extractPageNumbers content).
Proof.
  intros _. destruct (extractPageNumbers_sorted content) as [Hs Hnd].
  repeat split; try assumption.
  apply List.Forall_forall. intros n Hn.
  apply matches_cited, extractPageNumbers_In, Hn.
Qed.

Lemma extractPageNumbers_ascending_cited_witness :
  exactPages
    (js "Paris [Page 3] is the capital of France. [Page 7] It has a population of over 2 million [Page 7].")
  = true
  /\ extractPageNumbers
       (js "Paris [Page 3] is the capital of France. [Page 7] It has a population of over 2 million [Page 7].")
     = [3; 7]
  /\ StronglySorted Z.lt
       (extractPageNumbers
          (js "Paris [Page 3] is the capital of France. [Page 7] It has a population of over 2 million [Page 7]."))
  /\ citedIn
       (js "Paris [Page 3] is the capital of France. [Page 7] It has a population of over 2 million [Page 7].")
       7.
Proof.
  split; [vm_compute; reflexivity|]. split; [vm_compute; reflexivity|].
  destruct (extractPageNumbers_ascending_cited
              (js "Paris [Page 3] is the capital of France. [Page 7] It has a population of over 2 million [Page 7]."))
    as (Hsorted & _ & Hcited).
  - vm_compute; reflexivity.
  - split; [exact Hsorted|].
    change (extractPageNumbers
              (js "Paris [Page 3] is the capital of France. [Page 7] It has a population of over 2 million [Page 7]."))
      with [3; 7] in Hcited.
    inversion Hcited as [|? ? _ Htail]. inversion Htail as [|? ? H7 _].
    apply H7.
Defined.

(** C1 as stated fails: the marker of page zero is accepted, and zero is not
    a positive integer. *)
Lemma extractPageNumbers_zero_not_positive :
  extractPageNumbers (js "[Page 0]") = [0]
  /\ ~ Forall (fun n => 0 < n) (extractPageNumbers (js "[Page 0]")).
Proof.
  split; [reflexivity|].
  intros H. change (extractPageNumbers (js "[Page 0]")) with [0] in H.
  inversion H; subst. lia.
Qed.

(** ** The Relevance Ranker *)

Section ListFacts.

Context {A : Type}.

Lemma filter_firstn_prefix (p : A -> bool) (k : nat) (l : list A) :
  exists tail, List.filter p l = List.filter p (firstn k l) ++ tail.
Proof.
  revert k. induction l as [|x l IH]; intros k.
  - exists []. destruct k; reflexivity.
  - destruct k as [|k]; simpl.
    + eexists. reflexivity.
    + destruct (IH k) as [tail Ht]. destruct (p x).
      * exists tail. simpl. rewrite <- Ht. reflexivity.
      * exists tail. exact Ht.
Qed.

Lemma filter_filter_sub (p q : A -> bool) (l : list A) :
  (forall x, p x = true -> q x = true) ->
  List.filter p (List.filter q l) = List.filter p l.
Proof.
  intros Hpq. induction l as [|x l IH]; simpl.
  - reflexivity.
  - destruct (q x) eqn:Hq; simpl.
    + rewrite IH. reflexivity.
    + destruct (p x) eqn:Hp; [|exact IH].
      rewrite (Hpq x Hp) in Hq. discriminate.
Qed.

Lemma filter_filter_none (p q : A -> bool) (l : list A) :
  (forall x, p x = true -> q x = false) ->
  List.filter p (List.filter q l) = [].
Proof.
  intros Hpq. induction l as [|x l IH]; simpl.
  - reflexivity.
  - destruct (q x) eqn:Hq; simpl; [|exact IH].
    destruct (p x) eqn:Hp; [|exact IH].
    rewrite (Hpq x Hp) in Hq. discriminate.
Qed.

Lemma filter_all_false (p q : A -> bool) (l : list A) :
  (forall x, q x = true -> p x = false) ->
  forallb q l = true -> List.filter p l = [].
Proof.
  intros Hqp. induction l as [|x l IH]; simpl; intros H.
  - reflexivity.
  - apply andb_true_iff in H. destruct H as [Hx Hl].
    rewrite (Hqp x Hx). apply IH, Hl.
Qed.

End ListFacts.

Section Terminators.

Variable sep : char -> bool.

Lemma splitChars_length (s : jsstring) :
  length (splitChars sep s) = S (separators sep s).
Proof.
  unfold separators. induction s as [|c s IH]; simpl.
  - reflexivity.
  - destruct (sep c); simpl.
    + rewrite IH. reflexivity.
    + destruct (splitChars sep s); simpl in *; [discriminate | exact IH].
Qed.

Lemma splitChars_pieces (s : jsstring) :
  Forall (fun piece => separators sep piece = 0%nat) (splitChars sep s).
Proof.
  unfold separators. induction s as [|c s IH]; simpl.
  - constructor; [reflexivity | constructor].
  - destruct (sep c) eqn:Hc.
    + constructor; [reflexivity | exact IH].
    + destruct (splitChars sep s) as [|piece rest].
      * constructor; [simpl; rewrite Hc; reflexivity | constructor].
      * inversion IH; subst. constructor; [|assumption].
        simpl. rewrite Hc. assumption.
Qed.

Lemma splitChars_snoc (s : jsstring) (c : char) :
  sep c = true -> splitChars sep (s ++ [c]) = splitChars sep s ++ [[]].
Proof.
  intros Hc. induction s as [|a s IH]; simpl.
  - rewrite Hc. reflexivity.
  - rewrite IH. destruct (sep a); [reflexivity|].
    pose proof (splitChars_length s) as Hlen.
    destruct (splitChars sep s); [discriminate | reflexivity].
Qed.

Lemma separators_app (s t : jsstring) :
  separators sep (s ++ t) = (separators sep s + separators sep t)%nat.
Proof. unfold separators. rewrite filter_app, length_app. reflexivity. Qed.

End Terminators.

Section JoinFacts.

Lemma separators_join (sep : char -> bool) (l : list jsstring) :
  Forall (fun piece => separators sep piece = 0%nat) l ->
  separators sep (join (js ". ") l)
  = (Nat.pred (length l) * separators sep (js ". "))%nat.
Proof.
  induction 1 as [|s l Hs Hl IH].
  - reflexivity.
  - destruct l as [|t l].
    + simpl. rewrite Hs. reflexivity.
    + change (join (js ". ") (s :: t :: l))
        with (s ++ js ". " ++ join (js ". ") (t :: l)).
      rewrite !separators_app, IH, Hs. simpl. lia.
Qed.

End JoinFacts.

Section ServerRanker.

Import Server.

Variable toLowerCase : jsstring -> jsstring.

Lemma filterRelevantContent_topRanked (content query pdfType : jsstring) :
  filterRelevantContent toLowerCase content query pdfType
  = join (js ". ") (List.map sentence (topRanked toLowerCase content query pdfType))
    ++ js ".".
Proof.
  unfold Server.filterRelevantContent, Server.relevantSentences,
    Server.topRanked, slice0.
  rewrite firstn_map. reflexivity.
Qed.

Lemma topRanked_length (content query pdfType : jsstring) :
  (length (topRanked toLowerCase content query pdfType) <= 7)%nat.
Proof. unfold Server.topRanked, slice0. apply firstn_le_length. Qed.

Lemma topRanked_In (content query pdfType : jsstring)
    (item : ScoredSentence) :
  In item (topRanked toLowerCase content query pdfType) ->
  In item (scoredSentences toLowerCase content query pdfType) /\ 0 < score item.
Proof.
  unfold Server.topRanked, slice0. intros H.
  assert (H' : In item
            (sort (fun a b => score b - score a)
               (List.filter (fun item => 0 <? score item)
                  (scoredSentences toLowerCase content query pdfType)))).
  { rewrite <- (firstn_skipn 7). apply in_or_app. left. exact H. }
  apply sort_In, filter_In in H'. destruct H' as [Hin Hpos].
  apply Z.ltb_lt in Hpos. split; assumption.
Qed.

Lemma scoredSentences_pieces (content query pdfType : jsstring)
    (item : ScoredSentence) :
  In item (scoredSentences toLowerCase content query pdfType) ->
  separators isTerminator (sentence item) = 0%nat.
Proof.
  unfold Server.scoredSentences, Server.sentences.
  rewrite in_map_iff. intros (s & <- & Hs). simpl.
  apply filter_In in Hs. destruct Hs as [Hs _].
  pose proof (splitChars_pieces isTerminator content) as Hall.
  rewrite List.Forall_forall in Hall. apply Hall, Hs.
Qed.

Lemma sentences_of_output (l : list jsstring) :
  Forall (fun piece => separators isTerminator piece = 0%nat) l ->
  (length (sentences (join (js ". ") l ++ js ".")) <= length l)%nat.
Proof.
  intros Hl. unfold sentences. change (js ".") with [46%N].
  rewrite splitChars_snoc by reflexivity.
  rewrite filter_app. simpl. rewrite length_app. simpl.
  destruct l as [|s l]; [simpl; lia|].
  etransitivity; [rewrite Nat.add_0_r; apply filter_length_le|].
  rewrite splitChars_length, separators_join by exact Hl.
  change (separators isTerminator (js ". ")) with 1%nat. simpl. lia.
Qed.

Lemma accumulate_matches (f : jsstring -> bool) (l : list jsstring)
    (start : Z) :
  fold_left (fun score keyword => if f keyword then score + 3 else score)
    l start
  = start + 3 * Z.of_nat (length (List.filter f l)).
Proof.
  revert start. induction l as [|k l IH]; simpl; intros start.
  - lia.
  - rewrite IH. destruct (f k); simpl length; lia.
Qed.

Lemma scoreSentence_spec (query pdfType s : jsstring) :
  str_eqb pdfType (js "qa") = false ->
  score (scoreSentence toLowerCase query pdfType s)
  = specScore toLowerCase query s.
Proof.
  intros Hqa. unfold scoreSentence, specScore, isDefinitional.
  cbn [score]. rewrite Hqa. cbn [andb]. rewrite accumulate_matches.
  repeat match goal with
         | |- context [if ?b then _ else _] => destruct b
         end; unfold jsstring; lia.
Qed.

End ServerRanker.

Section VariantRanker.

Import Variant.

Variable toLowerCase : jsstring -> jsstring.

Lemma variant_filterRelevantContent_topRanked (content query : jsstring) :
  filterRelevantContent toLowerCase content query
  = join (js ". ") (List.map sentence (topRanked toLowerCase content query))
    ++ js ".".
Proof.
  unfold Variant.filterRelevantContent, Variant.relevantSentences,
    Variant.topRanked, slice0.
  rewrite firstn_map. reflexivity.
Qed.

(** The variant ranker answers with a lone full stop as well when no
    candidate has a positive score. *)
Lemma variant_filterRelevantContent_no_positive_score
    (content query : jsstring) :
  forallb (fun item => score item =? 0)
    (scoredSentences toLowerCase content query) = true ->
  filterRelevantContent toLowerCase content query = js ".".
Proof.
  intros H. unfold Variant.filterRelevantContent, Variant.relevantSentences.
  erewrite filter_all_false; [reflexivity | | exact H].
  intros item E. apply Z.eqb_eq in E. rewrite E. reflexivity.
Qed.

(** The variant ranker is stable too. *)
Lemma variant_filterRelevantContent_stable (content query : jsstring)
    (v : Z) :
  exists tail,
    List.filter (fun item => score item =? v)
      (scoredSentences toLowerCase content query)
    = List.filter (fun item => score item =? v)
        (topRanked toLowerCase content query) ++ tail.
Proof.
  unfold Variant.topRanked, slice0.
  set (p := fun item => score item =? v).
  set (cands := scoredSentences toLowerCase content query).
  set (ranked := sort _ _).
  destruct (filter_firstn_prefix p 5 ranked) as [tail Htail].
  assert (Hsort : List.filter p ranked
                  = List.filter p
                      (List.filter (fun item => 0 <? score item) cands)).
  { apply filter_sort. intros a b Ha Hb. unfold p in Ha, Hb.
    apply Z.eqb_eq in Ha, Hb. lia. }
  destruct (Z.ltb_spec 0 v) as [Hv|Hv].
  - exists tail. rewrite <- Htail, Hsort. symmetry.
    apply filter_filter_sub. intros x Hx. unfold p in Hx.
    apply Z.eqb_eq in Hx. apply Z.ltb_lt. lia.
  - exists (List.filter p cands).
    rewrite filter_filter_none in Hsort.
    + rewrite Hsort in Htail. symmetry in Htail.
      apply app_eq_nil in Htail. destruct Htail as [-> _]. reflexivity.
    + intros x Hx. unfold p in Hx. apply Z.eqb_eq in Hx.
      apply Z.ltb_ge. lia.
Qed.

End VariantRanker.

(** C3, as the code has it.  When every sentence candidate scores zero, the
    ranker returns the string made of one full stop: the final full stop is
    appended to the empty join. *)
Theorem filterRelevantContent_no_positive_score
    (toLowerCase : jsstring -> jsstring) (content query pdfType : jsstring) :
  forallb (fun item => Server.score item =? 0)
    (Server.scoredSentences toLowerCase content query pdfType) = true ->
  Server.filterRelevantContent toLowerCase content query pdfType = js ".".
Proof.
  intros H. unfold Server.filterRelevantContent, Server.relevantSentences.
  erewrite filter_all_false; [reflexivity | | exact H].
  intros item E. apply Z.eqb_eq in E. rewrite E. reflexivity.
Qed.

Lemma filterRelevantContent_no_positive_score_witness :
  forallb (fun item => Server.score item =? 0)
    (Server.scoredSentences asciiToLowerCase
       (js "The sky is blue today. It rained all night long.")
       (js "zebra crossing") (js "general")) = true
  /\ Server.filterRelevantContent asciiToLowerCase
       (js "The sky is blue today. It rained all night long.")
       (js "zebra crossing") (js "general") = js ".".
Proof.
  split; [vm_compute; reflexivity|].
  apply (filterRelevantContent_no_positive_score asciiToLowerCase).
  vm_compute; reflexivity.
Defined.

(** C3 as stated fails: with one candidate that scores zero the ranker of
    either backend returns a full stop, not the empty string. *)
Lemma filterRelevantContent_not_empty :
  List.map Server.score
    (Server.scoredSentences asciiToLowerCase (js "The sky is blue today.")
       (js "zebra") (js "general")) = [0]
  /\ Server.filterRelevantContent asciiToLowerCase
       (js "The sky is blue today.") (js "zebra") (js "general") <> []
  /\ Variant.filterRelevantContent asciiToLowerCase
       (js "The sky is blue today.") (js "zebra") <> [].
Proof.
  split; [vm_compute; reflexivity|].
  split; vm_compute; discriminate.
Qed.

(** C4.  The output of the ranker is the join of at most seven sentences,
    each of them the sentence of a candidate with a strictly positive score,
    and read again as a text it holds at most seven sentence candidates,
    however many the input has. *)
Theorem filterRelevantContent_at_most_seven
    (toLowerCase : jsstring -> jsstring) (content query pdfType : jsstring) :
  Server.filterRelevantContent toLowerCase content query pdfType
  = join (js ". ")
      (List.map Server.sentence
         (Server.topRanked toLowerCase content query pdfType)) ++ js "."
  /\ (length (Server.topRanked toLowerCase content query pdfType) <= 7)%nat
  /\ Forall
       (fun item =>
          In item (Server.scoredSentences toLowerCase content query pdfType)
          /\ 0 < Server.score item)
       (Server.topRanked toLowerCase content query pdfType)
  /\ (length
        (Server.sentences
           (Server.filterRelevantContent toLowerCase content query pdfType))
      <= 7)%nat.
Proof.
  split; [apply filterRelevantContent_topRanked|].
  split; [apply topRanked_length|].
  split.
  - apply List.Forall_forall. intros item. apply topRanked_In.
  - rewrite filterRelevantContent_topRanked.
    etransitivity; [apply sentences_of_output|].
    + apply List.Forall_forall. intros s Hs.
      apply in_map_iff in Hs. destruct Hs as (item & <- & Hitem).
      apply topRanked_In in Hitem. destruct Hitem as [Hitem _].
      eapply scoredSentences_pieces, Hitem.
    + rewrite length_map. apply topRanked_length.
Qed.

(** C6.  For a document that is not of type qa, the score that the ranker
    of [server/server.js] gives to every sentence candidate is the score of
    the specification: three points per keyword of the query longer than
    three characters held by the lowercased sentence, ten for the whole
    lowercased query, fifteen for a definitional pattern; shorter keywords
    add nothing. *)
Theorem scoredSentences_spec
    (toLowerCase : jsstring -> jsstring) (content query pdfType : jsstring) :
  str_eqb pdfType (js "qa") = false ->
  List.map Server.score
    (Server.scoredSentences toLowerCase content query pdfType)
  = List.map (Server.specScore toLowerCase query)
      (Server.sentences content).
Proof.
  intros Hqa. unfold Server.scoredSentences. rewrite map_map.
  apply map_ext. intros s. apply scoreSentence_spec, Hqa.
Qed.

Lemma scoredSentences_spec_witness :
  str_eqb (js "general") (js "qa") = false
  /\ List.map Server.score
       (Server.scoredSentences asciiToLowerCase
          (js "Paris is the capital of France. It has a population of over 2 million.")
          (js "capital of France") (js "general"))
     = [16; 0]
  /\ List.map Server.score
       (Server.scoredSentences asciiToLowerCase
          (js "Paris is the capital of France. It has a population of over 2 million.")
          (js "capital of France") (js "general"))
     = List.map (Server.specScore asciiToLowerCase (js "capital of France"))
         (Server.sentences
            (js "Paris is the capital of France. It has a population of over 2 million.")).
Proof.
  split; [reflexivity|]. split; [vm_compute; reflexivity|].
  apply (scoredSentences_spec asciiToLowerCase). reflexivity.
Defined.

(** C7.  The ranking is stable: for every score, the candidates with that
    score stand in the output of the ranker in the order they have in the
    input text, the output keeping the first of them. *)
Theorem filterRelevantContent_stable
    (toLowerCase : jsstring -> jsstring) (content query pdfType : jsstring)
    (v : Z) :
  Server.filterRelevantContent toLowerCase content query pdfType
  = join (js ". ")
      (List.map Server.sentence
         (Server.topRanked toLowerCase content query pdfType)) ++ js "."
  /\ exists tail,
       List.filter (fun item => Server.score item =? v)
         (Server.scoredSentences toLowerCase content query pdfType)
       = List.filter (fun item => Server.score item =? v)
           (Server.topRanked toLowerCase content query pdfType) ++ tail.
Proof.
  split; [apply filterRelevantContent_topRanked|].
  unfold Server.topRanked, slice0.
  set (p := fun item => Server.score item =? v).
  set (cands := Server.scoredSentences toLowerCase content query pdfType).
  set (ranked := sort _ _).
  destruct (filter_firstn_prefix p 7 ranked) as [tail Htail].
  assert (Hsort : List.filter p ranked
                  = List.filter p
                      (List.filter (fun item => 0 <? Server.score item)
                         cands)).
  { apply filter_sort. intros a b Ha Hb. unfold p in Ha, Hb.
    apply Z.eqb_eq in Ha, Hb. lia. }
  destruct (Z.ltb_spec 0 v) as [Hv|Hv].
  - exists tail. rewrite <- Htail, Hsort. symmetry.
    apply filter_filter_sub. intros x Hx. unfold p in Hx.
    apply Z.eqb_eq in Hx. apply Z.ltb_lt. lia.
  - exists (List.filter p cands).
    rewrite filter_filter_none in Hsort.
    + rewrite Hsort in Htail. symmetry in Htail.
      apply app_eq_nil in Htail. destruct Htail as [-> _]. reflexivity.
    + intros x Hx. unfold p in Hx. apply Z.eqb_eq in Hx.
      apply Z.ltb_ge. lia.
Qed.

(** ** The Context Cleaner *)

Section Replace.

Variables (m : matcher) (repl : jsstring).

Lemma replaceFrom_Forall (P : char -> Prop) (skip : nat) (s : jsstring) :
  Forall P repl -> Forall P s -> Forall P (replaceFrom m repl skip s).
Proof.
  intros Hrepl Hs. revert skip.
  induction Hs as [|c s Hc Hs IH]; intros skip; simpl.
  - constructor.
  - destruct skip as [|k]; [|apply IH].
    destruct (m (c :: s)) as [[|k]|].
    + constructor; [exact Hc | apply IH].
    + apply Forall_app. split; [exact Hrepl | apply IH].
    + constructor; [exact Hc | apply IH].
Qed.

(** Where no suffix is matched, the replacement changes nothing. *)
Lemma replaceAll_none (s : jsstring) :
  (forall before rest, s = before ++ rest -> m rest = None) ->
  replaceAll m repl s = s.
Proof.
  unfold replaceAll. induction s as [|c s IH]; intros H; simpl.
  - reflexivity.
  - rewrite (H [] (c :: s) eq_refl). f_equal. apply IH.
    intros before rest ->. apply (H (c :: before) rest). reflexivity.
Qed.

End Replace.

Section Trim.

Lemma trimStart_Forall (P : char -> Prop) (s : jsstring) :
  Forall P s -> Forall P (trimStart s).
Proof.
  induction 1 as [|c s Hc Hs IH]; simpl.
  - constructor.
  - destruct (isWhiteSpace c); [exact IH | constructor; assumption].
Qed.

Lemma trimEnd_Forall (P : char -> Prop) (s : jsstring) :
  Forall P s -> Forall P (trimEnd s).
Proof.
  induction 1 as [|c s Hc Hs IH]; simpl.
  - constructor.
  - destruct (trimEnd s) as [|d t].
    + destruct (isWhiteSpace c); constructor; [exact Hc | constructor].
    + constructor; assumption.
Qed.

Lemma trimEnd_idempotent (s : jsstring) : trimEnd (trimEnd s) = trimEnd s.
Proof.
  induction s as [|c s IH]; simpl.
  - reflexivity.
  - destruct (trimEnd s) as [|d t] eqn:E.
    + destruct (isWhiteSpace c) eqn:Hc; simpl; [reflexivity|].
      rewrite Hc. reflexivity.
    + change (trimEnd (c :: d :: t))
        with (match trimEnd (d :: t) with
              | [] => if isWhiteSpace c then [] else [c]
              | u => c :: u
              end).
      rewrite IH. reflexivity.
Qed.

(** A string that does not begin with white space. *)
Lemma trimStart_fixed (s : jsstring) :
  match s with c :: _ => isWhiteSpace c = false | [] => True end ->
  trimStart s = s.
Proof. destruct s as [|c s]; simpl; [|intros ->]; reflexivity. Qed.

Lemma trimStart_head (s : jsstring) :
  match trimStart s with c :: _ => isWhiteSpace c = false | [] => True end.
Proof.
  induction s as [|c s IH]; simpl; [exact I|].
  destruct (isWhiteSpace c) eqn:Hc; [exact IH | exact Hc].
Qed.

Lemma trimEnd_head (s : jsstring) :
  match s with c :: _ => isWhiteSpace c = false | [] => True end ->
  match trimEnd s with c :: _ => isWhiteSpace c = false | [] => True end.
Proof.
  destruct s as [|c s]; simpl; [auto|]. intros Hc.
  destruct (trimEnd s); [rewrite Hc|]; exact Hc.
Qed.

Lemma trim_idempotent (s : jsstring) : trim (trim s) = trim s.
Proof.
  unfold trim. rewrite (trimStart_fixed (trimEnd (trimStart s))).
  - apply trimEnd_idempotent.
  - apply trimEnd_head, trimStart_head.
Qed.

Lemma trim_Forall (P : char -> Prop) (s : jsstring) :
  Forall P s -> Forall P (trim s).
Proof. intros H. apply trimEnd_Forall, trimStart_Forall, H. Qed.

End Trim.

Section Cleaner.

Import Variant.

Lemma includes_suffix (before rest p : jsstring) :
  includes (before ++ rest) p = false -> startsWith rest p = false.
Proof.
  induction before as [|c before IH]; simpl; intros H.
  - destruct rest; simpl in H; apply orb_false_iff in H; apply H.
  - apply orb_false_iff in H. apply IH, H.
Qed.

Lemma whiteSpaceRun_output (skip : nat) (s : jsstring) :
  Forall (fun c => isWhiteSpace c = true -> c = 32%N)
    (replaceFrom whiteSpaceRun (js " ") skip s).
Proof.
  revert skip. induction s as [|c s IH]; intros skip; simpl.
  - constructor.
  - destruct skip as [|k]; [|apply IH].
    unfold whiteSpaceRun at 1. simpl spanChars.
    destruct (isWhiteSpace c) eqn:Hc.
    + destruct (spanChars isWhiteSpace s) as [run rest]. simpl.
      constructor; [reflexivity | apply IH].
    + constructor; [congruence | apply IH].
Qed.

Lemma specialChar_output (skip : nat) (s : jsstring) :
  Forall (fun c => isKept c = true) (replaceFrom specialChar [] skip s).
Proof.
  revert skip. induction s as [|c s IH]; intros skip; simpl.
  - constructor.
  - destruct skip as [|k]; [|apply IH].
    destruct (isKept c) eqn:Hc; simpl; [constructor|]; auto.
Qed.

Lemma cleanContext_kept (content : jsstring) :
  Forall (fun c => isKept c = true) (cleanContext content).
Proof. unfold cleanContext. apply trim_Forall, specialChar_output. Qed.

Lemma cleanContext_spaces (content : jsstring) :
  Forall (fun c => isWhiteSpace c = true -> c = 32%N) (cleanContext content).
Proof.
  unfold cleanContext, replaceAll.
  apply trim_Forall. do 2 (apply replaceFrom_Forall; [constructor|]).
  apply whiteSpaceRun_output.
Qed.

Lemma cleanContext_trimmed (content : jsstring) :
  trim (cleanContext content) = cleanContext content.
Proof. unfold cleanContext. apply trim_idempotent. Qed.

Lemma dotRun_startsWith (s : jsstring) (n : nat) :
  dotRun s = Some n -> startsWith s (js "..........") = true.
Proof.
  unfold dotRun.
  destruct (spanChars (char_eqb 46%N) s) as [run rest] eqn:E.
  apply spanChars_spec in E. destruct E as [-> Hall].
  destruct (10 <=? length run)%nat eqn:Hlen; [|discriminate]. intros _.
  apply Nat.leb_le in Hlen.
  do 10 (destruct run as [|? run]; [simpl in Hlen; lia|];
         cbn [forallb] in Hall; apply andb_true_iff in Hall;
         destruct Hall as [Hd Hall]; apply char_eqb_eq in Hd; subst).
  reflexivity.
Qed.

Lemma kept_not_bracket (c : char) :
  isKept c = true -> char_eqb c 91%N = false.
Proof.
  intros H. destruct (char_eqb c 91%N) eqn:E; [|reflexivity].
  apply char_eqb_eq in E. subst c. vm_compute in H. discriminate.
Qed.

Lemma whiteSpaceRun_fixed (s : jsstring) :
  Forall (fun c => isWhiteSpace c = true -> c = 32%N) s ->
  includes s (js "  ") = false ->
  replaceAll whiteSpaceRun (js " ") s = s.
Proof.
  unfold replaceAll. induction 1 as [|c s Hc Hs IH]; intros Hinc.
  - reflexivity.
  - simpl in Hinc. apply orb_false_iff in Hinc. destruct Hinc as [Hst Hinc].
    simpl. unfold whiteSpaceRun at 1. simpl spanChars.
    destruct (isWhiteSpace c) eqn:Hws.
    + specialize (Hc eq_refl). subst c.
      destruct s as [|d s].
      * reflexivity.
      * simpl spanChars. destruct (isWhiteSpace d) eqn:Hd.
        -- inversion Hs as [|? ? Hd' _]; subst. specialize (Hd' Hd). subst d.
           discriminate Hst.
        -- simpl. f_equal. apply IH, Hinc.
    + f_equal. apply IH, Hinc.
Qed.

(** The texts that the cleaner leaves as they are. *)
Lemma cleanContext_fixed (r : jsstring) :
  Forall (fun c => isKept c = true) r ->
  Forall (fun c => isWhiteSpace c = true -> c = 32%N) r ->
  trim r = r ->
  isSettled r = true ->
  cleanContext r = r.
Proof.
  intros Hkept Hsp Htrim Hset. unfold isSettled in Hset.
  apply andb_true_iff in Hset. destruct Hset as [Hset Hdots].
  apply andb_true_iff in Hset. destruct Hset as [Hundef Hdouble].
  apply negb_true_iff in Hundef, Hdouble, Hdots.
  assert (Hhead : forall before c rest,
            r = before ++ c :: rest -> isKept c = true).
  { intros before c rest ->. apply Forall_app in Hkept.
    destruct Hkept as [_ Hk]. inversion Hk; assumption. }
  unfold cleanContext.
  rewrite (replaceAll_none (matchLength pageRegex) [] r).
  2:{ intros before [|c rest] E; [reflexivity|].
      unfold matchLength, pageRegex.
      change (js "[Page ") with (91%N :: js "Page "). cbn [startsWith].
      rewrite (kept_not_bracket c (Hhead _ _ _ E)). reflexivity. }
  rewrite (replaceAll_none dotRun [] r).
  2:{ intros before rest ->. destruct (dotRun rest) as [n|] eqn:E;
        [|reflexivity].
      apply dotRun_startsWith in E.
      rewrite (includes_suffix _ _ _ Hdots) in E. discriminate. }
  rewrite (whiteSpaceRun_fixed r Hsp Hdouble).
  rewrite (replaceAll_none undefinedText [] r).
  2:{ intros before rest ->. unfold undefinedText.
      rewrite (includes_suffix _ _ _ Hundef). reflexivity. }
  rewrite (replaceAll_none specialChar [] r).
  2:{ intros before [|c rest] E; [reflexivity|].
      unfold specialChar. rewrite (Hhead _ _ _ E). reflexivity. }
  exact Htrim.
Qed.

(** A replacement by at most one character never lengthens the text, and
    a deletion shortens it as soon as something is matched. *)
Lemma replaceFrom_length (m : matcher) (repl : jsstring) (skip : nat)
    (s : jsstring) :
  (length repl <= 1)%nat ->
  (length (replaceFrom m repl skip s) <= length s)%nat.
Proof.
  intros Hrepl. revert skip. induction s as [|c s IH]; intros skip; simpl.
  - lia.
  - destruct skip as [|k]; [|specialize (IH k); lia].
    destruct (m (c :: s)) as [[|k]|]; simpl.
    + specialize (IH 0%nat). lia.
    + rewrite length_app. specialize (IH k). lia.
    + specialize (IH 0%nat). lia.
Qed.

Lemma deletion_shrinks (m : matcher) (s before rest : jsstring) (n : nat) :
  m [] = None ->
  s = before ++ rest -> m rest = Some (S n) ->
  (length (replaceAll m [] s) < length s)%nat.
Proof.
  unfold replaceAll. intros Hnil. revert before.
  induction s as [|c s IH]; intros before E Hm.
  - destruct before; [|discriminate]. simpl in E. subst rest. congruence.
  - assert (Hlater : m (c :: s) <> Some (S n) ->
              (length (replaceFrom m [] 0 s) < length s)%nat).
    { intros Hhead. destruct before as [|b before].
      - simpl in E. subst rest. contradiction.
      - injection E as -> ->. apply (IH before eq_refl Hm). }
    simpl. destruct (m (c :: s)) as [[|k]|] eqn:Hhead; simpl.
    + assert (H : (length (replaceFrom m [] 0 s) < length s)%nat)
        by (apply Hlater; discriminate). lia.
    + pose proof (replaceFrom_length m [] k s) as H. simpl in H. lia.
    + assert (H : (length (replaceFrom m [] 0 s) < length s)%nat)
        by (apply Hlater; discriminate). lia.
Qed.

Lemma startsWith_suffix (s p : jsstring) :
  includes s p = true ->
  exists before rest, s = before ++ rest /\ startsWith rest p = true.
Proof.
  induction s as [|c s IH]; simpl; intros H.
  - rewrite orb_false_r in H. exists [], []. split; [reflexivity | exact H].
  - apply orb_true_iff in H. destruct H as [H|H].
    + exists [], (c :: s). split; [reflexivity | exact H].
    + destruct (IH H) as (before & rest & -> & Hrest).
      exists (c :: before), rest. split; [reflexivity | exact Hrest].
Qed.

Lemma whiteSpaceRun_shrinks (s : jsstring) :
  includes s (js "  ") = true ->
  (length (replaceAll whiteSpaceRun (js " ") s) < length s)%nat.
Proof.
  unfold replaceAll. induction s as [|c s IH]; intros H.
  - discriminate H.
  - simpl in H. apply orb_true_iff in H.
    simpl. unfold whiteSpaceRun at 1. simpl spanChars.
    destruct (isWhiteSpace c) eqn:Hc.
    + destruct (spanChars isWhiteSpace s) as [run rest] eqn:Hspan.
      cbn [length app js]. simpl.
      destruct run as [|d run].
      * destruct H as [H|H].
        -- destruct s as [|d s]; [apply andb_true_iff in H; destruct H;
             discriminate|].
           apply andb_true_iff in H. destruct H as [_ H].
           apply andb_true_iff in H. destruct H as [H _].
           apply char_eqb_eq in H. subst d.
           simpl in Hspan. destruct (spanChars isWhiteSpace s).
           discriminate Hspan.
        -- specialize (IH H). simpl. lia.
      * destruct s as [|e s]; [discriminate Hspan|].
        simpl. pose proof (replaceFrom_length whiteSpaceRun (js " ")
                             (length run) s) as Hlen.
        simpl in Hlen. lia.
    + destruct H as [H|H].
      * apply andb_true_iff in H. destruct H as [H _].
        apply char_eqb_eq in H. subst c. discriminate Hc.
      * specialize (IH H). simpl. lia.
Qed.

Lemma trim_length (s : jsstring) : (length (trim s) <= length s)%nat.
Proof.
  unfold trim.
  assert (Hend : forall t, (length (trimEnd t) <= length t)%nat).
  { induction t as [|c t IH]; simpl; [lia|].
    destruct (trimEnd t); [destruct (isWhiteSpace c)|]; simpl in *; lia. }
  assert (Hstart : (length (trimStart s) <= length s)%nat).
  { induction s as [|c s IH]; simpl; [lia|].
    destruct (isWhiteSpace c); simpl; lia. }
  specialize (Hend (trimStart s)). lia.
Qed.

(** What follows the first three replacements never lengthens a text. *)
Lemma cleanContext_tail_length (s : jsstring) :
  (length (trim (replaceAll specialChar []
                   (replaceAll undefinedText [] s))) <= length s)%nat.
Proof.
  pose proof (trim_length
                (replaceAll specialChar [] (replaceAll undefinedText [] s))).
  pose proof (replaceFrom_length specialChar [] 0
                (replaceAll undefinedText [] s)).
  pose proof (replaceFrom_length undefinedText [] 0 s).
  unfold replaceAll in *. simpl in *. lia.
Qed.

(** The texts that the cleaner leaves as they are are settled. *)
Lemma cleanContext_fixed_settled (r : jsstring) :
  Forall (fun c => isKept c = true) r ->
  Forall (fun c => isWhiteSpace c = true -> c = 32%N) r ->
  cleanContext r = r ->
  isSettled r = true.
Proof.
  intros Hkept Hsp Hfix.
  assert (Hhead : forall before c rest,
            r = before ++ c :: rest -> isKept c = true).
  { intros before c rest ->. apply Forall_app in Hkept.
    destruct Hkept as [_ Hk]. inversion Hk; assumption. }
  unfold cleanContext in Hfix.
  rewrite (replaceAll_none (matchLength pageRegex) [] r) in Hfix.
  2:{ intros before [|c rest] E; [reflexivity|].
      unfold matchLength, pageRegex.
      change (js "[Page ") with (91%N :: js "Page "). cbn [startsWith].
      rewrite (kept_not_bracket c (Hhead _ _ _ E)). reflexivity. }
  apply (f_equal (@length char)) in Hfix.
  destruct (includes r (js "..........")) eqn:Hdots.
  { exfalso. apply startsWith_suffix in Hdots.
    destruct Hdots as (before & rest & E & Hst).
    assert (Hm : exists n, dotRun rest = Some (S n)).
    { unfold dotRun.
      destruct (spanChars (char_eqb 46%N) rest) as [run rest'] eqn:Hspan.
      apply startsWith_split in Hst.
      change (length (js "..........")) with 10%nat in Hst.
      rewrite Hst in Hspan. simpl in Hspan.
      destruct (spanChars (char_eqb 46%N) (skipn 10 rest)) as [run0 rest0].
      injection Hspan as <- <-. simpl. eexists. reflexivity. }
    destruct Hm as [n Hm].
    pose proof (deletion_shrinks dotRun r before rest n eq_refl E Hm) as H1.
    pose proof (replaceFrom_length whiteSpaceRun (js " ") 0
                  (replaceAll dotRun [] r)) as H2.
    pose proof (cleanContext_tail_length
                  (replaceAll whiteSpaceRun (js " ")
                     (replaceAll dotRun [] r))) as H3.
    unfold replaceAll in *. simpl in H2. lia. }
  rewrite (replaceAll_none dotRun [] r) in Hfix.
  2:{ intros before rest ->. destruct (dotRun rest) as [n|] eqn:E;
        [|reflexivity].
      apply dotRun_startsWith in E.
      rewrite (includes_suffix _ _ _ Hdots) in E. discriminate. }
  destruct (includes r (js "  ")) eqn:Hdouble.
  { exfalso. pose proof (whiteSpaceRun_shrinks r Hdouble) as H1.
    pose proof (cleanContext_tail_length
                  (replaceAll whiteSpaceRun (js " ") r)) as H2.
    lia. }
  rewrite (whiteSpaceRun_fixed r Hsp Hdouble) in Hfix.
  destruct (includes r (js "undefined")) eqn:Hundef.
  { exfalso. apply startsWith_suffix in Hundef.
    destruct Hundef as (before & rest & E & Hst).
    assert (Hm : undefinedText rest = Some 9%nat).
    { unfold undefinedText. rewrite Hst. reflexivity. }
    pose proof (deletion_shrinks undefinedText r before rest 8 eq_refl E Hm)
      as H1.
    pose proof (trim_length
                  (replaceAll specialChar [] (replaceAll undefinedText [] r)))
      as H2.
    pose proof (replaceFrom_length specialChar [] 0
                  (replaceAll undefinedText [] r)) as H3.
    unfold replaceAll in *. simpl in H3. lia. }
  unfold isSettled. rewrite Hundef, Hdouble, Hdots. reflexivity.
Qed.

End Cleaner.

(** C2, as the code has it.  A second pass of the cleaner changes nothing
    whenever the first pass has left no placeholder, no two spaces in a row
    and no run of ten dots behind. *)
Theorem cleanContext_idempotent_when_settled (content : jsstring) :
  Variant.isSettled (Variant.cleanContext content) = true ->
  Variant.cleanContext (Variant.cleanContext content)
  = Variant.cleanContext content.
Proof.
  intros H. apply cleanContext_fixed.
  - apply cleanContext_kept.
  - apply cleanContext_spaces.
  - apply cleanContext_trimmed.
  - exact H.
Qed.

Lemma cleanContext_idempotent_when_settled_witness :
  Variant.isSettled
    (Variant.cleanContext
       (js "  Paris [Page 3] is the capital............... of France (EU).  "))
  = true
  /\ Variant.cleanContext
       (js "  Paris [Page 3] is the capital............... of France (EU).  ")
     = js "Paris is the capital of France EU."
  /\ Variant.cleanContext
       (Variant.cleanContext
          (js "  Paris [Page 3] is the capital............... of France (EU).  "))
     = Variant.cleanContext
         (js "  Paris [Page 3] is the capital............... of France (EU).  ").
Proof.
  split; [vm_compute; reflexivity|]. split; [vm_compute; reflexivity|].
  apply cleanContext_idempotent_when_settled. vm_compute; reflexivity.
Defined.

(** The condition of C2 is the exact one: a second pass changes the cleaned
    text whenever a placeholder, two spaces in a row or a run of ten dots
    are left in it. *)
Lemma cleanContext_idempotent_only_when_settled (content : jsstring) :
  Variant.cleanContext (Variant.cleanContext content)
  = Variant.cleanContext content ->
  Variant.isSettled (Variant.cleanContext content) = true.
Proof.
  apply cleanContext_fixed_settled.
  - apply cleanContext_kept.
  - apply cleanContext_spaces.
Qed.

(** C2 as stated fails: the placeholder is removed after the white space has
    been collapsed, which leaves two spaces that only a second pass
    collapses. *)
Lemma cleanContext_not_idempotent :
  Variant.cleanContext (js "a undefined b") = js "a  b"
  /\ Variant.cleanContext (Variant.cleanContext (js "a undefined b"))
     = js "a b"
  /\ Variant.cleanContext (Variant.cleanContext (js "a undefined b"))
     <> Variant.cleanContext (js "a undefined b").
Proof.
  split; [vm_compute; reflexivity|]. split; [vm_compute; reflexivity|].
  vm_compute. discriminate.
Qed.

(** ** The Small-Talk Classifier and the chat endpoint *)

Section SmallTalk.

Variable toLowerCase : jsstring -> jsstring.
Variable env : Env.

(** Small talk is answered before anything leaves the process. *)
Lemma chat_small_talk (pdfCollections : gmap jsstring Server.PdfData)
    (req : ChatRequest) (data : Server.PdfData) :
  isSmallTalk (query req) = true ->
  pdfId req <> [] ->
  pdfCollections !! pdfId req = Some data ->
  run (Server.chat toLowerCase env pdfCollections req)
  = (Returned
       (Status200
          {| payloadQuery := query req;
             results := Server.getSmallTalkResponse toLowerCase (query req);
             pageReferences := [];
             count := 0 |}), []).
Proof.
  intros Hsmall Hid Hpdf.
  unfold run, Server.chat, tryCatch. rewrite Hpdf, Hsmall.
  destruct (query req) as [|c q] eqn:Hq; [discriminate Hsmall|].
  destruct (pdfId req) as [|d i]; [contradiction|]. reflexivity.
Qed.

Lemma variant_chat_small_talk (pdfCollections : gmap jsstring Variant.PdfData)
    (req : ChatRequest) (data : Variant.PdfData) :
  isSmallTalk (query req) = true ->
  pdfId req <> [] ->
  pdfCollections !! pdfId req = Some data ->
  run (Variant.chat toLowerCase env pdfCollections req)
  = (Returned
       (Status200
          {| payloadQuery := query req;
             results := Variant.getSmallTalkResponse toLowerCase (query req);
             pageReferences := [];
             count := 0 |}), []).
Proof.
  intros Hsmall Hid Hpdf.
  unfold run, Variant.chat, tryCatch. rewrite Hpdf, Hsmall.
  destruct (query req) as [|c q] eqn:Hq; [discriminate Hsmall|].
  destruct (pdfId req) as [|d i]; [contradiction|]. reflexivity.
Qed.

(** A query that holds "sup", "thx" or "thank you" anywhere, in any case, is
    classified as small talk. *)
Lemma isSmallTalk_unanchored (query : jsstring) :
  includes (List.map canonicalize (trim query)) (js "SUP") = true
  \/ includes (List.map canonicalize (trim query)) (js "THX") = true
  \/ includes (List.map canonicalize (trim query)) (js "THANK YOU") = true ->
  isSmallTalk query = true.
Proof.
  intros H. unfold isSmallTalk. apply existsb_exists.
  destruct H as [H|[H|H]].
  - exists (RegExp "^what's up|sup" "i"). split; [simpl; tauto|].
    unfold test. change (ignoreCase (RegExp "^what's up|sup" "i")) with true.
    apply existsb_exists.
    exists {| anchoredStart := false; literal := js "sup";
              anchoredEnd := false |}.
    split; [vm_compute; tauto | exact H].
  - exists (RegExp "^thanks|thank you|thx" "i"). split; [simpl; tauto|].
    unfold test.
    change (ignoreCase (RegExp "^thanks|thank you|thx" "i")) with true.
    apply existsb_exists.
    exists {| anchoredStart := false; literal := js "thx";
              anchoredEnd := false |}.
    split; [vm_compute; tauto | exact H].
  - exists (RegExp "^thanks|thank you|thx" "i"). split; [simpl; tauto|].
    unfold test.
    change (ignoreCase (RegExp "^thanks|thank you|thx" "i")) with true.
    apply existsb_exists.
    exists {| anchoredStart := false; literal := js "thank you";
              anchoredEnd := false |}.
    split; [vm_compute; tauto | exact H].
Qed.

End SmallTalk.

(** C5, as the code has it.  Each of the queries "Hello", "hi" and "Thanks!",
    and "Who are you" without a question mark, matches exactly one pattern;
    for a request on an uploaded document the endpoint then answers with the
    canned response, no page reference and a count of zero, and calls
    neither retrieval nor generation. *)
Theorem small_talk_skips_retrieval
    (toLowerCase : jsstring -> jsstring) (env : Env)
    (pdfCollections : gmap jsstring Server.PdfData) (req : ChatRequest)
    (data : Server.PdfData) :
  In (query req) [js "Hello"; js "hi"; js "Thanks!"; js "Who are you"] ->
  pdfId req <> [] ->
  pdfCollections !! pdfId req = Some data ->
  length
    (List.filter (fun pattern => test pattern (trim (query req)))
       smallTalkPatterns) = 1%nat
  /\ isSmallTalk (query req) = true
  /\ run (Server.chat toLowerCase env pdfCollections req)
     = (Returned
          (Status200
             {| payloadQuery := query req;
                results :=
                  Server.getSmallTalkResponse toLowerCase (query req);
                pageReferences := [];
                count := 0 |}), []).
Proof.
  intros Hq Hid Hpdf.
  assert (Hone : length
            (List.filter (fun pattern => test pattern (trim (query req)))
               smallTalkPatterns) = 1%nat
          /\ isSmallTalk (query req) = true).
  { simpl in Hq. destruct Hq as [<-|[<-|[<-|[<-|[]]]]];
      split; vm_compute; reflexivity. }
  destruct Hone as [Hone Hsmall]. repeat split; try assumption.
  eapply chat_small_talk; eassumption.
Qed.

Lemma small_talk_skips_retrieval_witness :
  In (query (Examples.request "Thanks!"))
    [js "Hello"; js "hi"; js "Thanks!"; js "Who are you"]
  /\ pdfId (Examples.request "Thanks!") <> []
  /\ Examples.pdfs !! pdfId (Examples.request "Thanks!")
     = Some Examples.report
  /\ run (Server.chat asciiToLowerCase Examples.terse Examples.pdfs
            (Examples.request "Thanks!"))
     = (Returned
          (Status200
             {| payloadQuery := js "Thanks!";
                results :=
                  js "You're welcome! I'm glad I could help. Is there anything else you'd like to know about your document?";
                pageReferences := [];
                count := 0 |}), []).
Proof.
  split; [right; right; left; reflexivity|].
  split; [discriminate|]. split; [vm_compute; reflexivity|].
  pose proof (small_talk_skips_retrieval asciiToLowerCase Examples.terse
                Examples.pdfs (Examples.request "Thanks!")
                Examples.report) as H.
  destruct H as (_ & _ & H).
  - right; right; left; reflexivity.
  - discriminate.
  - vm_compute; reflexivity.
  - rewrite H. vm_compute; reflexivity.
Defined.

(** C5 as stated fails: with its question mark "Who are you?" matches no
    pattern, the one for it being tied to both ends, and the endpoint goes
    on to retrieval. *)
Lemma who_are_you_goes_to_retrieval :
  isSmallTalk (js "Who are you?") = false
  /\ snd (run (Server.chat asciiToLowerCase Examples.terse Examples.pdfs
                 (Examples.request "Who are you?")))
     = [Retrieval (js "3f9a") (js "Who are you?") 7].
Proof. split; vm_compute; reflexivity. Qed.

(** C10.  The alternatives that are not tied to the start make small talk of
    questions about the document: "What is the supply chain?" holds "sup",
    and the endpoint answers it with the canned response, no page reference
    and a count of zero, without any retrieval; so for a question that holds
    "thank you" or "thx". *)
Theorem unanchored_patterns_catch_questions :
  test (RegExp "^what's up|sup" "i") (trim (js "What is the supply chain?"))
  = true
  /\ isSmallTalk (js "What is the supply chain?") = true
  /\ isSmallTalk (js "Why does the author thank you at the end?") = true
  /\ isSmallTalk (js "Which chapter covers the THX certification?") = true
  /\ run (Server.chat asciiToLowerCase Examples.outOfQuota Examples.pdfs
            (Examples.request "What is the supply chain?"))
     = (Returned
          (Status200
             {| payloadQuery := js "What is the supply chain?";
                results :=
                  js "Just ready to help you understand your documents! What would you like to know?";
                pageReferences := [];
                count := 0 |}), [])
  /\ forall (toLowerCase : jsstring -> jsstring) (env : Env),
       snd (run (Server.chat toLowerCase env Examples.pdfs
                   (Examples.request "What is the supply chain?"))) = [].
Proof.
  repeat (split; [vm_compute; reflexivity|]).
  intros toLowerCase env.
  erewrite chat_small_talk; [reflexivity | | discriminate |];
    vm_compute; reflexivity.
Qed.

(** ** The Answer-Request Assembler *)

Section Assembler.

Variable env : Env.

Lemma includes_skip (a s p : jsstring) :
  includes s p = true -> includes (a ++ s) p = true.
Proof.
  intros H. induction a as [|c a IH]; simpl.
  - exact H.
  - rewrite IH. apply orb_true_r.
Qed.

Lemma includes_prefix (p b : jsstring) : includes (p ++ b) p = true.
Proof. apply includes_startsWith, startsWith_app. Qed.

Lemma includes_self (p : jsstring) : includes p p = true.
Proof. rewrite <- (app_nil_r p) at 1. apply includes_prefix. Qed.

Lemma server_fallbackAnswer_cites (query : jsstring)
    (pageReferences : list Z) :
  includes (Server.fallbackAnswer query pageReferences) query = true
  /\ (pageReferences <> [] ->
      includes (Server.fallbackAnswer query pageReferences)
        (pageRefText pageReferences) = true).
Proof.
  assert (E : Server.fallbackAnswer query pageReferences
              = js "Based on the document, I found relevant information about "
                ++ dq ++ query ++ dq ++ js ". "
                ++ pageRefText pageReferences).
  { destruct pageReferences; reflexivity. }
  rewrite E. split.
  - do 2 apply includes_skip. apply includes_prefix.
  - intros _. do 5 apply includes_skip. apply includes_self.
Qed.

Lemma variant_fallbackAnswer_cites (query : jsstring)
    (pageReferences : list Z) :
  includes (Variant.fallbackAnswer query pageReferences) query = true
  /\ (pageReferences <> [] ->
      includes (Variant.fallbackAnswer query pageReferences)
        (pageRefText pageReferences) = true).
Proof.
  split.
  - unfold Variant.fallbackAnswer.
    destruct pageReferences; do 2 apply includes_skip; apply includes_prefix.
  - intros Hne. destruct pageReferences as [|r l]; [contradiction|].
    unfold Variant.fallbackAnswer.
    change (js " in the document. This information can be found on pages ")
      with (js " in the document. "
            ++ js "This information can be found on pages ").
    rewrite <- (app_assoc (js " in the document. ")).
    do 5 apply includes_skip. apply includes_self.
Qed.

(** The generator of [server/server.js] never throws, and calls the model
    once at most. *)
Lemma generateEnhancedAnswer_total (query context : jsstring)
    (pageReferences : list Z) (pdfType depth : jsstring) :
  exists answer log,
    run (Server.generateEnhancedAnswer env query context pageReferences
           pdfType depth) = (Returned answer, log)
    /\ (generationCalls log <= 1)%nat.
Proof.
  unfold run, Server.generateEnhancedAnswer, tryCatch, bind, throw, ret,
    callGenerate.
  destruct (GOOGLE_API_KEY env); cbn [negb].
  - destruct (generateContent env _ _); eexists; eexists;
      (split; [reflexivity | cbn; lia]).
  - eexists; eexists; (split; [reflexivity | cbn; lia]).
Qed.

(** The variant generator never throws, and calls the model twice at most:
    once, and once more for the only retry. *)
Lemma generateNaturalAnswer_total (query context : jsstring)
    (pageReferences : list Z) (depth : jsstring) :
  exists answer log,
    run (Variant.generateNaturalAnswer env query context pageReferences depth)
    = (Returned answer, log)
    /\ (generationCalls log <= 2)%nat.
Proof.
  unfold run, Variant.generateNaturalAnswer, tryCatch, bind, throw, ret,
    callGenerate.
  destruct (GOOGLE_API_KEY env); cbn [negb].
  - destruct (generateContent env _ _) as [first|e].
    + destruct (Variant.isNonAnswer first).
      * destruct (generateContent env _ _); eexists; eexists;
          (split; [reflexivity | cbn; lia]).
      * eexists; eexists; (split; [reflexivity | cbn; lia]).
    + eexists; eexists; (split; [reflexivity | cbn; lia]).
  - eexists; eexists; (split; [reflexivity | cbn; lia]).
Qed.

End Assembler.

Section AssemblerRuns.

Variable env : Env.

Lemma generateEnhancedAnswer_fallback (query context : jsstring)
    (pageReferences : list Z) (pdfType depth : jsstring) :
  Server.generationFails env query context pageReferences pdfType depth ->
  exists log,
    run (Server.generateEnhancedAnswer env query context pageReferences
           pdfType depth)
    = (Returned (Server.fallbackAnswer query pageReferences), log).
Proof.
  unfold run, Server.generateEnhancedAnswer, tryCatch, bind, throw, ret,
    callGenerate.
  intros [Hkey|[e He]].
  - rewrite Hkey. cbn [negb]. eexists. reflexivity.
  - destruct (GOOGLE_API_KEY env); cbn [negb].
    + change (generationCalls []) with 0%nat. rewrite He.
      eexists. reflexivity.
    + eexists. reflexivity.
Qed.

Lemma generateNaturalAnswer_fallback (query context : jsstring)
    (pageReferences : list Z) (depth : jsstring) :
  Variant.generationFails env query context pageReferences depth ->
  exists log,
    run (Variant.generateNaturalAnswer env query context pageReferences depth)
    = (Returned (Variant.fallbackAnswer query pageReferences), log).
Proof.
  unfold run, Variant.generateNaturalAnswer, tryCatch, bind, throw, ret,
    callGenerate.
  intros H.
  destruct (GOOGLE_API_KEY env) eqn:Hkey; cbn [negb];
    [|eexists; reflexivity].
  change (generationCalls []) with 0%nat.
  destruct H as [H|[[e He]|(first & e & Hfirst & Hnon & He)]].
  - congruence.
  - rewrite He. eexists. reflexivity.
  - rewrite Hfirst, Hnon.
    change (generationCalls ([] ++ [Generation _ _ _])) with 1%nat.
    rewrite He. eexists. reflexivity.
Qed.

End AssemblerRuns.

(** An answer that is long enough and holds no refusal phrase is returned
    after the single call, with the citation step applied. *)
Lemma generateNaturalAnswer_no_retry
    (env : Env) (query context : jsstring) (pageReferences : list Z)
    (depth first : jsstring) :
  GOOGLE_API_KEY env = true ->
  generateContent env 0 (Variant.prompt query context pageReferences depth)
  = Returned first ->
  Variant.isNonAnswer first = false ->
  run (Variant.generateNaturalAnswer env query context pageReferences depth)
  = (Returned (Variant.addPageReferences first pageReferences),
     [ Generation (js "gemini-pro") (Variant.generationConfig depth)
         (Variant.prompt query context pageReferences depth) ]).
Proof.
  intros Hkey Hfirst Hnon.
  unfold run, Variant.generateNaturalAnswer, tryCatch, bind, throw, ret,
    callGenerate.
  rewrite Hkey. cbn [negb]. change (generationCalls []) with 0%nat.
  rewrite Hfirst, Hnon. reflexivity.
Qed.

(** A refusal is followed by the retry, whose answer is the one returned. *)
Example generateNaturalAnswer_second_try :
  fst (run (Variant.generateNaturalAnswer Examples.secondTry
              (js "capital of France") (js "Paris is the capital of France.")
              [3] (js "deep")))
  = Returned
      (js "Paris is the capital of France, as the text states plainly. This information can be found on pages 3.")
  /\ generationCalls
       (snd (run (Variant.generateNaturalAnswer Examples.secondTry
                    (js "capital of France")
                    (js "Paris is the capital of France.") [3] (js "deep"))))
     = 2%nat.
Proof. split; vm_compute; reflexivity. Qed.

(** C8, as the code has it.  In the variant backend a first answer that is
    short or holds a refusal phrase is followed by exactly one more call of
    the model, with the retry prompt, which differs from the first; whatever
    the retry gives, degenerate or not, is returned after the citation step
    alone, and no run ever calls the model more than twice.  The generator
    of [server/server.js] calls the model once at most: it has no retry. *)
Theorem generateNaturalAnswer_single_retry
    (env : Env) (query context : jsstring) (pageReferences : list Z)
    (depth first second : jsstring) :
  GOOGLE_API_KEY env = true ->
  generateContent env 0 (Variant.prompt query context pageReferences depth)
  = Returned first ->
  Variant.isNonAnswer first = true ->
  generateContent env 1 (Variant.retryPrompt query context)
  = Returned second ->
  run (Variant.generateNaturalAnswer env query context pageReferences depth)
  = (Returned (Variant.addPageReferences second pageReferences),
     [ Generation (js "gemini-pro") (Variant.generationConfig depth)
         (Variant.prompt query context pageReferences depth);
       Generation (js "gemini-pro") (Variant.generationConfig depth)
         (Variant.retryPrompt query context) ])
  /\ Variant.retryPrompt query context
     <> Variant.prompt query context pageReferences depth
  /\ (forall (env' : Env) (pdfType : jsstring),
        (generationCalls
           (snd (run (Variant.generateNaturalAnswer env' query context
                        pageReferences depth))) <= 2)%nat
        /\ (generationCalls
              (snd (run (Server.generateEnhancedAnswer env' query context
                           pageReferences pdfType depth))) <= 1)%nat).
Proof.
  intros Hkey Hfirst Hnon Hsecond. split; [|split].
  - unfold run, Variant.generateNaturalAnswer, tryCatch, bind, throw, ret,
      callGenerate.
    rewrite Hkey. cbn [negb]. change (generationCalls []) with 0%nat.
    rewrite Hfirst, Hnon.
    change (generationCalls ([] ++ [Generation _ _ _])) with 1%nat.
    rewrite Hsecond. reflexivity.
  - intros E. apply (f_equal (fun s => nth 7 s 0%N)) in E.
    cbv in E. discriminate E.
  - intros env' pdfType. split.
    + destruct (generateNaturalAnswer_total env' query context
                  pageReferences depth) as (answer & log & -> & Hlog).
      exact Hlog.
    + destruct (generateEnhancedAnswer_total env' query context
                  pageReferences pdfType depth) as (answer & log & -> & Hlog).
      exact Hlog.
Qed.

Lemma generateNaturalAnswer_single_retry_witness :
  GOOGLE_API_KEY Examples.terse = true
  /\ Variant.isNonAnswer (js "ok") = true
  /\ Variant.isNonAnswer (js "no") = true
  /\ run (Variant.generateNaturalAnswer Examples.terse
            (js "capital of France") (js "Paris is the capital of France.")
            [3] (js "normal"))
     = (Returned (js "no This information can be found on pages 3."),
        [ Generation (js "gemini-pro") (Variant.generationConfig (js "normal"))
            (Variant.prompt (js "capital of France")
               (js "Paris is the capital of France.") [3] (js "normal"));
          Generation (js "gemini-pro") (Variant.generationConfig (js "normal"))
            (Variant.retryPrompt (js "capital of France")
               (js "Paris is the capital of France.")) ]).
Proof.
  split; [reflexivity|]. split; [vm_compute; reflexivity|].
  split; [vm_compute; reflexivity|].
  destruct (generateNaturalAnswer_single_retry Examples.terse
              (js "capital of France") (js "Paris is the capital of France.")
              [3] (js "normal") (js "ok") (js "no")) as (H & _ & _).
  - reflexivity.
  - reflexivity.
  - vm_compute; reflexivity.
  - reflexivity.
  - rewrite H. f_equal.
Defined.

(** C8 as stated fails.  The generator of [server/server.js] returns a
    degenerate first answer after a single call, without any retry; and the
    variant generator returns the answer of its retry with the citation
    appended, not as it is. *)
Lemma generateEnhancedAnswer_no_retry :
  Variant.isNonAnswer (js "ok") = true
  /\ run (Server.generateEnhancedAnswer Examples.terse
            (js "capital of France") (js "Paris is the capital of France.")
            [] (js "general") (js "normal"))
     = (Returned (js "ok"),
        [ Generation (js "gemini-2.0-flash")
            (Server.generationConfig (js "normal"))
            (Server.prompt (js "capital of France")
               (js "Paris is the capital of France.") [] (js "general")
               (js "normal")) ])
  /\ fst (run (Variant.generateNaturalAnswer Examples.terse
                 (js "capital of France")
                 (js "Paris is the capital of France.") [3] (js "normal")))
     <> Returned (js "no").
Proof.
  split; [vm_compute; reflexivity|]. split; [vm_compute; reflexivity|].
  vm_compute. discriminate.
Qed.

Section FailureInChat.

Variable toLowerCase : jsstring -> jsstring.
Variable env : Env.

Lemma generationCalls_snoc (log : list event) (model : jsstring)
    (config : GenerationConfig) (prompt : jsstring) :
  generationCalls (log ++ [Generation model config prompt])
  = S (generationCalls log).
Proof.
  unfold generationCalls. rewrite List.filter_app, length_app.
  cbn [List.filter isGeneration length]. lia.
Qed.

(** The generators fail the same way after the retrieval call as on an
    empty log: only generation calls are counted. *)
Lemma generateEnhancedAnswer_fallback_at (q context : jsstring)
    (pageReferences : list Z) (pdfType depth : jsstring)
    (log0 : list event) :
  generationCalls log0 = 0%nat ->
  Server.generationFails env q context pageReferences pdfType depth ->
  exists log,
    Server.generateEnhancedAnswer env q context pageReferences pdfType depth
      log0
    = (Returned (Server.fallbackAnswer q pageReferences), log0 ++ log)
    /\ retrievalCalls log = 0%nat.
Proof.
  unfold Server.generateEnhancedAnswer, tryCatch, bind, throw, ret,
    callGenerate.
  intros Hcalls [Hkey|[e He]].
  - rewrite Hkey. cbn [negb]. exists []. now rewrite app_nil_r.
  - destruct (GOOGLE_API_KEY env); cbn [negb].
    + rewrite Hcalls, He. eexists. split; reflexivity.
    + exists []. now rewrite app_nil_r.
Qed.

Lemma generateNaturalAnswer_fallback_at (q context : jsstring)
    (pageReferences : list Z) (depth : jsstring) (log0 : list event) :
  generationCalls log0 = 0%nat ->
  Variant.generationFails env q context pageReferences depth ->
  exists log,
    Variant.generateNaturalAnswer env q context pageReferences depth log0
    = (Returned (Variant.fallbackAnswer q pageReferences), log0 ++ log)
    /\ retrievalCalls log = 0%nat.
Proof.
  unfold Variant.generateNaturalAnswer, tryCatch, bind, throw, ret,
    callGenerate.
  intros Hcalls H.
  destruct (GOOGLE_API_KEY env) eqn:Hkey; cbn [negb];
    [|exists []; now rewrite app_nil_r].
  rewrite Hcalls.
  destruct H as [H|[[e He]|(first & e & Hfirst & Hnon & He)]].
  - congruence.
  - rewrite He. eexists. split; reflexivity.
  - rewrite Hfirst, Hnon, generationCalls_snoc, Hcalls, He.
    eexists. split; [rewrite <- app_assoc; reflexivity|reflexivity].
Qed.

(** The chat endpoint of [server/server.js] when the generation fails on
    what the handler passes to it. *)
Lemma server_chat_fallback
    (pdfCollections : gmap jsstring Server.PdfData) (req : ChatRequest)
    (data : Server.PdfData) (found : list jsstring) :
  query req <> [] ->
  pdfId req <> [] ->
  pdfCollections !! pdfId req = Some data ->
  isSmallTalk (query req) = false ->
  invoke env (pdfId req) (query req) (Server.retrieverK (depth req))
  = Returned found ->
  found <> [] ->
  Server.generationFails env (query req)
    (Server.filterRelevantContent toLowerCase (join (js " ") found)
       (query req) (orElse (Server.pdfType data) (js "general")))
    (extractPageNumbers (join (js " ") found))
    (orElse (Server.pdfType data) (js "general"))
    (orElse (depth req) (js "normal")) ->
  exists log,
    run (Server.chat toLowerCase env pdfCollections req)
    = (Returned
         (Status200
            {| payloadQuery := query req;
               results :=
                 Server.fallbackAnswer (query req)
                   (extractPageNumbers (join (js " ") found));
               pageReferences := extractPageNumbers (join (js " ") found);
               count := Z.of_nat (length found) |}),
       Retrieval (pdfId req) (query req) (Server.retrieverK (depth req))
       :: log)
    /\ retrievalCalls log = 0%nat.
Proof.
  intros Hq Hid Hpdf Hsmall Hinv Hfound Hfails.
  unfold run, Server.chat, tryCatch. rewrite Hpdf, Hsmall.
  destruct (query req) as [|c q] eqn:Eq; [contradiction|].
  destruct (pdfId req) as [|d i] eqn:Ei; [contradiction|].
  unfold bind at 1, callRetrieve. cbn [app]. rewrite Hinv.
  destruct found as [|chunk found]; [contradiction|].
  unfold bind, ret.
  destruct (generateEnhancedAnswer_fallback_at _ _ _ _ _
              [Retrieval (d :: i) (c :: q) (Server.retrieverK (depth req))]
              eq_refl Hfails) as (log & E & Hlog).
  rewrite E. exists log. split; [reflexivity|exact Hlog].
Qed.

(** The same for the chat endpoint of the variant backend, which cleans
    the context before it ranks it and has no document type. *)
Lemma variant_chat_fallback
    (pdfCollections : gmap jsstring Variant.PdfData) (req : ChatRequest)
    (data : Variant.PdfData) (found : list jsstring) :
  query req <> [] ->
  pdfId req <> [] ->
  pdfCollections !! pdfId req = Some data ->
  isSmallTalk (query req) = false ->
  invoke env (pdfId req) (query req) 10 = Returned found ->
  found <> [] ->
  Variant.generationFails env (query req)
    (Variant.filterRelevantContent toLowerCase
       (Variant.cleanContext (join (js " ") found)) (query req))
    (extractPageNumbers (join (js " ") found))
    (orElse (depth req) (js "normal")) ->
  exists log,
    run (Variant.chat toLowerCase env pdfCollections req)
    = (Returned
         (Status200
            {| payloadQuery := query req;
               results :=
                 Variant.fallbackAnswer (query req)
                   (extractPageNumbers (join (js " ") found));
               pageReferences := extractPageNumbers (join (js " ") found);
               count := Z.of_nat (length found) |}),
       Retrieval (pdfId req) (query req) 10 :: log)
    /\ retrievalCalls log = 0%nat.
Proof.
  intros Hq Hid Hpdf Hsmall Hinv Hfound Hfails.
  unfold run, Variant.chat, tryCatch. rewrite Hpdf, Hsmall.
  destruct (query req) as [|c q] eqn:Eq; [contradiction|].
  destruct (pdfId req) as [|d i] eqn:Ei; [contradiction|].
  unfold bind at 1, callRetrieve. cbn [app]. rewrite Hinv.
  destruct found as [|chunk found]; [contradiction|].
  unfold bind, ret.
  destruct (generateNaturalAnswer_fallback_at _ _ _ _
              [Retrieval (d :: i) (c :: q) 10] eq_refl Hfails)
    as (log & E & Hlog).
  rewrite E. exists log. split; [reflexivity|exact Hlog].
Qed.

End FailureInChat.

(** C9.  When the generation raises an error, in either backend, the error
    does not leave the generator: the run returns the templated answer,
    which holds the text of the query and, when there are page references,
    the citation.  So a chat request whose handler has called the generator
    on these arguments, the page numbers of the chunks being in the exact
    range, completes with status 200 and a payload: the query, the
    templated answer, the page references and the number of chunks. *)
Theorem generation_failure_is_masked
    (b : Assembler.backend) (env : Env) (query context : jsstring)
    (pageReferences : list Z) (pdfType depth : jsstring) :
  Assembler.generationFails env b query context pageReferences pdfType depth ->
  (exists log,
     run (Assembler.generate env b query context pageReferences pdfType depth)
     = (Returned (Assembler.fallbackAnswer b query pageReferences), log))
  /\ includes (Assembler.fallbackAnswer b query pageReferences) query = true
  /\ (pageReferences <> [] ->
      includes (Assembler.fallbackAnswer b query pageReferences)
        (pageRefText pageReferences) = true)
  /\ (forall (toLowerCase : jsstring -> jsstring)
        (pdfCollections : gmap jsstring Server.PdfData) (req : ChatRequest)
        (data : Server.PdfData) (found : list jsstring),
        b = Assembler.InServer ->
        Shared.query req = query ->
        query <> [] ->
        pdfId req <> [] ->
        pdfCollections !! pdfId req = Some data ->
        isSmallTalk query = false ->
        invoke env (pdfId req) query (Server.retrieverK (Shared.depth req))
        = Returned found ->
        found <> [] ->
        exactPages (join (js " ") found) = true ->
        pageReferences = extractPageNumbers (join (js " ") found) ->
        pdfType = orElse (Server.pdfType data) (js "general") ->
        context
        = Server.filterRelevantContent toLowerCase (join (js " ") found)
            query pdfType ->
        depth = orElse (Shared.depth req) (js "normal") ->
        exists log,
          run (Server.chat toLowerCase env pdfCollections req)
          = (Returned
               (Status200
                  {| payloadQuery := query;
                     results := Server.fallbackAnswer query pageReferences;
                     Shared.pageReferences := pageReferences;
                     count := Z.of_nat (length found) |}),
             Retrieval (pdfId req) query
               (Server.retrieverK (Shared.depth req)) :: log)
          /\ retrievalCalls log = 0%nat)
  /\ (forall (toLowerCase : jsstring -> jsstring)
        (pdfCollections : gmap jsstring Variant.PdfData) (req : ChatRequest)
        (data : Variant.PdfData) (found : list jsstring),
        b = Assembler.InVariant ->
        Shared.query req = query ->
        query <> [] ->
        pdfId req <> [] ->
        pdfCollections !! pdfId req = Some data ->
        isSmallTalk query = false ->
        invoke env (pdfId req) query 10 = Returned found ->
        found <> [] ->
        exactPages (join (js " ") found) = true ->
        pageReferences = extractPageNumbers (join (js " ") found) ->
        context
        = Variant.filterRelevantContent toLowerCase
            (Variant.cleanContext (join (js " ") found)) query ->
        depth = orElse (Shared.depth req) (js "normal") ->
        exists log,
          run (Variant.chat toLowerCase env pdfCollections req)
          = (Returned
               (Status200
                  {| payloadQuery := query;
                     results := Variant.fallbackAnswer query pageReferences;
                     Shared.pageReferences := pageReferences;
                     count := Z.of_nat (length found) |}),
             Retrieval (pdfId req) query 10 :: log)
          /\ retrievalCalls log = 0%nat).
Proof.
  intros H. split; [|split; [|split; [|split]]].
  - destruct b; simpl in H |- *.
    + apply generateEnhancedAnswer_fallback, H.
    + apply generateNaturalAnswer_fallback, H.
  - destruct b; [apply server_fallbackAnswer_cites
                |apply variant_fallbackAnswer_cites].
  - destruct b; [apply server_fallbackAnswer_cites
                |apply variant_fallbackAnswer_cites].
  - intros toLowerCase pdfCollections req data found -> <- Hq Hid Hpdf
      Hsmall Hinv Hfound _ -> -> -> ->.
    apply (server_chat_fallback toLowerCase env pdfCollections req data
             found Hq Hid Hpdf Hsmall Hinv Hfound H).
  - intros toLowerCase pdfCollections req data found -> <- Hq Hid Hpdf
      Hsmall Hinv Hfound _ -> -> ->.
    apply (variant_chat_fallback toLowerCase env pdfCollections req data
             found Hq Hid Hpdf Hsmall Hinv Hfound H).
Qed.

Lemma generation_failure_is_masked_witness :
  Assembler.generationFails Examples.outOfQuota Assembler.InServer
    (js "capital of France")
    (Server.filterRelevantContent asciiToLowerCase
       (js "Paris [Page 3] is the capital of France.")
       (js "capital of France") (js "general"))
    [3] (js "general") (js "normal")
  /\ (exists log,
        run (Server.generateEnhancedAnswer Examples.outOfQuota
               (js "capital of France")
               (Server.filterRelevantContent asciiToLowerCase
                  (js "Paris [Page 3] is the capital of France.")
                  (js "capital of France") (js "general"))
               [3] (js "general") (js "normal"))
        = (Returned
             (js "Based on the document, I found relevant information about "
              ++ dq ++ js "capital of France" ++ dq
              ++ js ". This information can be found on pages 3."), log))
  /\ includes
       (Assembler.fallbackAnswer Assembler.InServer (js "capital of France")
          [3])
       (js "This information can be found on pages 3.") = true
  /\ (exists log,
        run (Server.chat asciiToLowerCase Examples.outOfQuota Examples.pdfs
               (Examples.request "capital of France"))
        = (Returned
             (Status200
                {| payloadQuery := js "capital of France";
                   results :=
                     Server.fallbackAnswer (js "capital of France") [3];
                   Shared.pageReferences := [3];
                   count := Z.of_nat
                              (length
                                 [js "Paris [Page 3] is the capital of France."])
                |}),
           Retrieval (js "3f9a") (js "capital of France")
             (Server.retrieverK []) :: log)
        /\ retrievalCalls log = 0%nat)
  /\ (exists log,
        run (Variant.chat asciiToLowerCase Examples.outOfQuota
               {[ js "3f9a" :=
                    {| Variant.filename := js "report.pdf";
                       Variant.uploadedAt := js "2025-01-01T00:00:00.000Z"
                    |} ]}
               (Examples.request "capital of France"))
        = (Returned
             (Status200
                {| payloadQuery := js "capital of France";
                   results :=
                     Variant.fallbackAnswer (js "capital of France") [3];
                   Shared.pageReferences := [3];
                   count := Z.of_nat
                              (length
                                 [js "Paris [Page 3] is the capital of France."])
                |}),
           Retrieval (js "3f9a") (js "capital of France") 10 :: log)
        /\ retrievalCalls log = 0%nat).
Proof.
  assert (Hfail : Assembler.generationFails Examples.outOfQuota
                    Assembler.InServer (js "capital of France")
                    (Server.filterRelevantContent asciiToLowerCase
                       (js "Paris [Page 3] is the capital of France.")
                       (js "capital of France") (js "general"))
                    [3] (js "general") (js "normal")).
  { right. exists (js "429 Too Many Requests"). reflexivity. }
  split; [exact Hfail|].
  destruct (generation_failure_is_masked Assembler.InServer
              Examples.outOfQuota (js "capital of France")
              (Server.filterRelevantContent asciiToLowerCase
                 (js "Paris [Page 3] is the capital of France.")
                 (js "capital of France") (js "general"))
              [3] (js "general") (js "normal") Hfail)
    as (Hrun & _ & Hcite & Hserver & _).
  split; [exact Hrun|]. split; [apply Hcite; discriminate|]. split.
  - apply (Hserver asciiToLowerCase Examples.pdfs
             (Examples.request "capital of France") Examples.report
             [js "Paris [Page 3] is the capital of France."]).
    + reflexivity.
    + reflexivity.
    + discriminate.
    + discriminate.
    + vm_compute; reflexivity.
    + vm_compute; reflexivity.
    + reflexivity.
    + discriminate.
    + vm_compute; reflexivity.
    + vm_compute; reflexivity.
    + reflexivity.
    + reflexivity.
    + reflexivity.
  - assert (Hfail' : Assembler.generationFails Examples.outOfQuota
                       Assembler.InVariant (js "capital of France")
                       (Variant.filterRelevantContent asciiToLowerCase
                          (Variant.cleanContext
                             (js "Paris [Page 3] is the capital of France."))
                          (js "capital of France"))
                       [3] (js "general") (js "normal")).
    { right. left. exists (js "429 Too Many Requests"). reflexivity. }
    destruct (generation_failure_is_masked Assembler.InVariant
                Examples.outOfQuota (js "capital of France")
                (Variant.filterRelevantContent asciiToLowerCase
                   (Variant.cleanContext
                      (js "Paris [Page 3] is the capital of France."))
                   (js "capital of France"))
                [3] (js "general") (js "normal") Hfail')
      as (_ & _ & _ & _ & Hvariant).
    apply (Hvariant asciiToLowerCase
             {[ js "3f9a" :=
                  {| Variant.filename := js "report.pdf";
                     Variant.uploadedAt := js "2025-01-01T00:00:00.000Z" |} ]}
             (Examples.request "capital of France")
             {| Variant.filename := js "report.pdf";
                Variant.uploadedAt := js "2025-01-01T00:00:00.000Z" |}
             [js "Paris [Page 3] is the capital of France."]).
    + reflexivity.
    + reflexivity.
    + discriminate.
    + discriminate.
    + vm_compute; reflexivity.
    + vm_compute; reflexivity.
    + reflexivity.
    + discriminate.
    + vm_compute; reflexivity.
    + vm_compute; reflexivity.
    + reflexivity.
    + reflexivity.
Defined.

Section ChatCompletes.

Variable toLowerCase : jsstring -> jsstring.
Variable env : Env.

Lemma generateEnhancedAnswer_returns (query context : jsstring)
    (pageReferences : list Z) (pdfType depth : jsstring)
    (log0 : list event) :
  exists answer log,
    Server.generateEnhancedAnswer env query context pageReferences pdfType
      depth log0 = (Returned answer, log).
Proof.
  unfold Server.generateEnhancedAnswer, tryCatch, bind, throw, ret,
    callGenerate.
  destruct (GOOGLE_API_KEY env); cbn [negb].
  - destruct (generateContent env _ _); eexists; eexists; reflexivity.
  - eexists; eexists; reflexivity.
Qed.

(** Once retrieval has answered, the request ends with a payload whatever
    the generation does. *)
Lemma chat_completes_after_retrieval
    (pdfCollections : gmap jsstring Server.PdfData) (req : ChatRequest)
    (data : Server.PdfData) (found : list jsstring) :
  query req <> [] ->
  pdfId req <> [] ->
  pdfCollections !! pdfId req = Some data ->
  invoke env (pdfId req) (query req) (Server.retrieverK (depth req))
  = Returned found ->
  exists payload log,
    run (Server.chat toLowerCase env pdfCollections req)
    = (Returned (Status200 payload), log).
Proof.
  intros Hq Hid Hpdf Hfound.
  unfold run, Server.chat, tryCatch. rewrite Hpdf.
  destruct (query req) as [|c q] eqn:Eq; [contradiction|].
  destruct (pdfId req) as [|d i] eqn:Ei; [contradiction|].
  destruct (isSmallTalk (c :: q)); [eexists; eexists; reflexivity|].
  unfold bind at 1, callRetrieve. rewrite Hfound.
  destruct found as [|chunk found]; [eexists; eexists; reflexivity|].
  unfold bind.
  match goal with
  | |- context [Server.generateEnhancedAnswer env ?a ?b ?c ?d ?e ?l] =>
      destruct (generateEnhancedAnswer_returns a b c d e l)
        as (answer & log & ->)
  end.
  eexists; eexists; reflexivity.
Qed.

End ChatCompletes.

(** * Further properties of the code *)

(** ** The extractor reports every page marker *)

Section ExtractorComplete.

Lemma spanChars_app (p : char -> bool) (run rest : jsstring) :
  forallb p run = true ->
  match rest with c :: _ => p c = false | [] => True end ->
  spanChars p (run ++ rest) = (run, rest).
Proof.
  intros Hrun Hrest. induction run as [|c run IH]; simpl.
  - destruct rest as [|c rest]; [reflexivity|]. simpl. rewrite Hrest.
    reflexivity.
  - simpl in Hrun. apply andb_true_iff in Hrun. destruct Hrun as [Hc Hrun].
    rewrite Hc, (IH Hrun). reflexivity.
Qed.

Lemma pageRegex_complete (ds rest : jsstring) :
  ds <> [] -> forallb isDigit ds = true ->
  pageRegex (pageMarker ds ++ rest) = Some (ds, (6 + length ds + 1)%nat).
Proof.
  intros Hne Hds. unfold pageRegex, pageMarker.
  rewrite <- app_assoc. rewrite startsWith_app.
  change 6%nat with (length (js "[Page ")) at 1.
  rewrite skipn_app, skipn_all, Nat.sub_diag.
  rewrite app_nil_l, <- app_assoc.
  change (skipn 0 (ds ++ js "]" ++ rest)) with (ds ++ js "]" ++ rest).
  rewrite (spanChars_app isDigit ds (js "]" ++ rest) Hds eq_refl).
  destruct ds as [|d ds]; [contradiction|]. reflexivity.
Qed.

(** After its bracket a marker holds no other bracket. *)
Lemma pageMarker_tail (g : jsstring) :
  forallb isDigit g = true ->
  exists tail,
    pageMarker g = 91%N :: tail
    /\ Forall (fun c => c <> 91%N) tail
    /\ length tail = (6 + length g)%nat.
Proof.
  intros Hg. exists (js "Page " ++ g ++ js "]"). split; [reflexivity|]. split.
  - apply Forall_app. split; [repeat constructor; discriminate|].
    apply Forall_app. split; [|repeat constructor; discriminate].
    apply List.Forall_forall. intros c Hc.
    rewrite forallb_forall in Hg. specialize (Hg c Hc). intros ->.
    discriminate Hg.
  - rewrite !length_app. simpl. lia.
Qed.

Lemma bracket_after (tail rest before x : jsstring) :
  Forall (fun c => c <> 91%N) tail ->
  tail ++ rest = before ++ 91%N :: x ->
  (length tail <= length before)%nat.
Proof.
  intros Htail. revert before.
  induction Htail as [|c tail Hc Htail IH]; intros before E; simpl.
  - lia.
  - destruct before as [|b before]; simpl in E.
    + injection E as -> _. contradiction.
    + injection E as _ E. specialize (IH before E). simpl. lia.
Qed.

Lemma execFrom_complete (s before ds after : jsstring) (skip : nat) :
  s = before ++ pageMarker ds ++ after ->
  ds <> [] -> forallb isDigit ds = true ->
  (skip <= length before)%nat ->
  In ds (execFrom pageRegex skip s).
Proof.
  intros E Hne Hds. revert skip before E.
  induction s as [|c s IH]; intros skip before E Hskip.
  - destruct before; discriminate E.
  - destruct before as [|b before].
    + destruct skip; [|simpl in Hskip; lia].
      change ([] ++ pageMarker ds ++ after)
        with (pageMarker ds ++ after) in E.
      cbn [execFrom].
      rewrite E, (pageRegex_complete ds after Hne Hds).
      rewrite Nat.add_1_r. apply in_eq.
    + pose proof (f_equal (@tl char) E) as E'. cbn [tl app] in E'.
      assert (Hlater : forall k, (k <= length before)%nat ->
                In ds (execFrom pageRegex k s)).
      { intros k Hk. apply (IH k before E' Hk). }
      cbn [execFrom]. destruct skip as [|k].
      * destruct (pageRegex (c :: s)) as [[g [|k]]|] eqn:Hm;
          try (apply Hlater; lia).
        apply in_cons, Hlater.
        apply pageRegex_spec in Hm.
        destruct Hm as (rest & Hs & _ & Hg & Hn).
        destruct (pageMarker_tail g Hg) as (tail & Hmark & Htail & Hlen).
        destruct (pageMarker_tail ds Hds) as (tail' & Hmark' & _ & _).
        rewrite Hmark in Hs.
        pose proof (f_equal (@tl char) Hs) as Hs'. cbn [tl app] in Hs'.
        rewrite E', Hmark' in Hs'. symmetry in Hs'.
        rewrite <- app_comm_cons in Hs'.
        pose proof (bracket_after tail rest before _ Htail Hs') as Hb.
        unfold jsstring, char in *. lia.
      * apply Hlater. simpl in Hskip. lia.
Qed.

End ExtractorComplete.

(** X1.  Inside the exact range, the numbers that [extractPageNumbers]
    returns are exactly the numbers that stand in a page marker of the
    text: no marker is missed, whatever surrounds it. *)
Theorem extractPageNumbers_exactly_cited (content : jsstring) (n : Z) :
  exactPages content = true ->
  In n (extractPageNumbers content) <-> citedIn content n.
Proof.
  intros _. rewrite extractPageNumbers_In. split.
  - apply matches_cited.
  - intros (before & ds & after & E & Hne & Hds & <-).
    unfold matches, execAll. apply in_map.
    apply (execFrom_complete content before ds after 0 E Hne Hds). lia.
Qed.

Lemma extractPageNumbers_exactly_cited_witness :
  exactPages (js "see [Page [Page 12] and [Page 4x] then [Page 04]") = true
  /\ extractPageNumbers
       (js "see [Page [Page 12] and [Page 4x] then [Page 04]") = [4; 12]
  /\ (In 12
        (extractPageNumbers
           (js "see [Page [Page 12] and [Page 4x] then [Page 04]"))
      <-> citedIn (js "see [Page [Page 12] and [Page 4x] then [Page 04]")
            12).
Proof.
  split; [vm_compute; reflexivity|]. split; [vm_compute; reflexivity|].
  apply (extractPageNumbers_exactly_cited
           (js "see [Page [Page 12] and [Page 4x] then [Page 04]") 12).
  vm_compute; reflexivity.
Defined.

(** ** Every answer of the generators cites the pages *)

Section Citations.

Variable env : Env.

Lemma server_addPageReferences_cites (finalResponse : jsstring)
    (pageReferences : list Z) :
  pageReferences <> [] ->
  includes (Server.addPageReferences finalResponse pageReferences)
    (pageRefText pageReferences) = true.
Proof.
  intros Hne. unfold Server.addPageReferences.
  destruct (pageRefText pageReferences) as [|c t] eqn:E.
  - destruct pageReferences; [contradiction | discriminate E].
  - destruct (includes finalResponse (c :: t)) eqn:Hinc; simpl negb; cbv iota.
    + exact Hinc.
    + do 3 apply includes_skip. apply includes_self.
Qed.

Lemma variant_addPageReferences_cites (finalResponse : jsstring)
    (pageReferences : list Z) :
  pageReferences <> [] ->
  includes (Variant.addPageReferences finalResponse pageReferences)
    (pageRefText pageReferences) = true
  \/ includes (Variant.addPageReferences finalResponse pageReferences)
       Variant.couldntFind = true.
Proof.
  intros Hne. unfold Variant.addPageReferences.
  destruct (pageRefText pageReferences) as [|c t] eqn:E.
  - destruct pageReferences; [contradiction | discriminate E].
  - destruct (includes finalResponse (c :: t)) eqn:Hinc; simpl negb;
      cbn [andb]; [left; exact Hinc|].
    destruct (includes finalResponse Variant.couldntFind) eqn:Hcf;
      simpl negb; cbv iota; [right; exact Hcf|].
    left. do 2 apply includes_skip. apply includes_self.
Qed.

(** What a run of the generator of [server/server.js] can be, from any
    log. *)
Lemma generateEnhancedAnswer_cases (query context : jsstring)
    (pageReferences : list Z) (pdfType depth : jsstring)
    (log0 : list event) :
  exists answer log,
    Server.generateEnhancedAnswer env query context pageReferences pdfType
      depth log0 = (Returned answer, log0 ++ log)
    /\ (length log <= 1)%nat
    /\ forallb isGeneration log = true
    /\ (pageReferences <> [] ->
        includes answer (pageRefText pageReferences) = true).
Proof.
  unfold Server.generateEnhancedAnswer, tryCatch, bind, throw, ret,
    callGenerate.
  destruct (GOOGLE_API_KEY env); cbn [negb].
  - destruct (generateContent env _ _) as [first|e]; eexists; eexists;
      (split; [reflexivity|]); (split; [simpl; lia|]);
      (split; [reflexivity|]).
    + apply server_addPageReferences_cites.
    + apply server_fallbackAnswer_cites.
  - exists (Server.fallbackAnswer query pageReferences), [].
    rewrite app_nil_r. split; [reflexivity|]. split; [simpl; lia|].
    split; [reflexivity|]. apply server_fallbackAnswer_cites.
Qed.

Lemma generateNaturalAnswer_cases (query context : jsstring)
    (pageReferences : list Z) (depth : jsstring) (log0 : list event) :
  exists answer log,
    Variant.generateNaturalAnswer env query context pageReferences depth
      log0 = (Returned answer, log0 ++ log)
    /\ (length log <= 2)%nat
    /\ forallb isGeneration log = true
    /\ (pageReferences <> [] ->
        includes answer (pageRefText pageReferences) = true
        \/ includes answer Variant.couldntFind = true).
Proof.
  unfold Variant.generateNaturalAnswer, tryCatch, bind, throw, ret,
    callGenerate.
  destruct (GOOGLE_API_KEY env); cbn [negb].
  - destruct (generateContent env _ _) as [first|e].
    + destruct (Variant.isNonAnswer first).
      * destruct (generateContent env _ _) as [second|e];
          eexists; eexists;
          (split; [rewrite <- app_assoc; reflexivity|]);
          (split; [simpl; lia|]); (split; [reflexivity|]).
        -- apply variant_addPageReferences_cites.
        -- intros Hne. left. apply variant_fallbackAnswer_cites, Hne.
      * eexists; eexists; (split; [reflexivity|]); (split; [simpl; lia|]);
          (split; [reflexivity|]).
        apply variant_addPageReferences_cites.
    + eexists; eexists; (split; [reflexivity|]); (split; [simpl; lia|]);
        (split; [reflexivity|]).
      intros Hne. left. apply variant_fallbackAnswer_cites, Hne.
  - exists (Variant.fallbackAnswer query pageReferences), [].
    rewrite app_nil_r. split; [reflexivity|]. split; [simpl; lia|].
    split; [reflexivity|]. intros Hne. left.
    apply variant_fallbackAnswer_cites, Hne.
Qed.

End Citations.

(** X2.  Whatever the model does, the generator of [server/server.js]
    returns an answer that holds the citation of the pages as soon as there
    are page references: the answer of the model holds it or gets it
    appended, and the templated answer ends with it. *)
Theorem generateEnhancedAnswer_always_cites
    (env : Env) (query context : jsstring) (pageReferences : list Z)
    (pdfType depth : jsstring) :
  pageReferences <> [] ->
  exists answer log,
    run (Server.generateEnhancedAnswer env query context pageReferences
           pdfType depth) = (Returned answer, log)
    /\ includes answer (pageRefText pageReferences) = true.
Proof.
  intros Hne.
  destruct (generateEnhancedAnswer_cases env query context pageReferences
              pdfType depth []) as (answer & log & Hrun & _ & _ & Hcite).
  exists answer, log. split; [exact Hrun | exact (Hcite Hne)].
Qed.

Lemma generateEnhancedAnswer_always_cites_witness :
  [3; 7] <> ([] : list Z)
  /\ run (Server.generateEnhancedAnswer Examples.terse
            (js "capital of France") (js "Paris is the capital of France.")
            [3; 7] (js "general") (js "normal"))
     = (Returned
          (js "ok" ++ nl ++ nl
           ++ js "This information can be found on pages 3, 7."),
        [ Generation (js "gemini-2.0-flash")
            (Server.generationConfig (js "normal"))
            (Server.prompt (js "capital of France")
               (js "Paris is the capital of France.") [3; 7] (js "general")
               (js "normal")) ])
  /\ exists answer log,
       run (Server.generateEnhancedAnswer Examples.terse
              (js "capital of France")
              (js "Paris is the capital of France.") [3; 7] (js "general")
              (js "normal")) = (Returned answer, log)
       /\ includes answer (pageRefText [3; 7]) = true.
Proof.
  split; [discriminate|]. split; [vm_compute; reflexivity|].
  apply (generateEnhancedAnswer_always_cites Examples.terse). discriminate.
Defined.

(** X3.  The generator of the variant backend returns an answer that holds
    the citation of the pages, or else the phrase of a not-found answer, as
    soon as there are page references. *)
Theorem generateNaturalAnswer_cites_or_declines
    (env : Env) (query context : jsstring) (pageReferences : list Z)
    (depth : jsstring) :
  pageReferences <> [] ->
  exists answer log,
    run (Variant.generateNaturalAnswer env query context pageReferences
           depth) = (Returned answer, log)
    /\ (includes answer (pageRefText pageReferences) = true
        \/ includes answer (js "I couldn't find") = true).
Proof.
  intros Hne.
  destruct (generateNaturalAnswer_cases env query context pageReferences
              depth []) as (answer & log & Hrun & _ & _ & Hcite).
  exists answer, log. split; [exact Hrun | exact (Hcite Hne)].
Qed.

Lemma generateNaturalAnswer_cites_or_declines_witness :
  [3] <> ([] : list Z)
  /\ fst (run (Variant.generateNaturalAnswer Examples.secondTry
                 (js "capital of France")
                 (js "Paris is the capital of France.") [3] (js "normal")))
     = Returned
         (js "Paris is the capital of France, as the text states plainly. This information can be found on pages 3.")
  /\ exists answer log,
       run (Variant.generateNaturalAnswer Examples.secondTry
              (js "capital of France")
              (js "Paris is the capital of France.") [3] (js "normal"))
       = (Returned answer, log)
       /\ (includes answer (pageRefText [3]) = true
           \/ includes answer (js "I couldn't find") = true).
Proof.
  split; [discriminate|]. split; [vm_compute; reflexivity|].
  apply (generateNaturalAnswer_cites_or_declines Examples.secondTry).
  discriminate.
Defined.

(** X4.  Without an API key neither generator calls the model: the
    templated answer is returned and the log of external calls stays
    empty. *)
Theorem missing_key_calls_nothing
    (b : Assembler.backend) (env : Env) (query context : jsstring)
    (pageReferences : list Z) (pdfType depth : jsstring) :
  GOOGLE_API_KEY env = false ->
  run (Assembler.generate env b query context pageReferences pdfType depth)
  = (Returned (Assembler.fallbackAnswer b query pageReferences), []).
Proof.
  intros Hkey. destruct b; unfold run; simpl Assembler.generate;
    simpl Assembler.fallbackAnswer.
  - unfold Server.generateEnhancedAnswer, tryCatch, throw, ret.
    rewrite Hkey. reflexivity.
  - unfold Variant.generateNaturalAnswer, tryCatch, throw, ret.
    rewrite Hkey. reflexivity.
Qed.

Lemma missing_key_calls_nothing_witness :
  GOOGLE_API_KEY Cases.noKey = false
  /\ run (Server.generateEnhancedAnswer Cases.noKey (js "capital of France")
            (js "Paris is the capital of France.") [3] (js "general")
            (js "deep"))
     = (Returned
          (js "Based on the document, I found relevant information about "
           ++ dq ++ js "capital of France" ++ dq
           ++ js ". This information can be found on pages 3."), []).
Proof.
  split; [reflexivity|].
  exact (missing_key_calls_nothing Assembler.InServer Cases.noKey
           (js "capital of France") (js "Paris is the capital of France.")
           [3] (js "general") (js "deep") eq_refl).
Defined.

(** ** The paths of the chat endpoint *)

Section ChatPaths.

Variable toLowerCase : jsstring -> jsstring.
Variable env : Env.

Lemma chat_after_retrieval
    (pdfCollections : gmap jsstring Server.PdfData) (req : ChatRequest)
    (data : Server.PdfData) :
  query req <> [] ->
  pdfId req <> [] ->
  pdfCollections !! pdfId req = Some data ->
  isSmallTalk (query req) = false ->
  run (Server.chat toLowerCase env pdfCollections req)
  = match invoke env (pdfId req) (query req)
            (Server.retrieverK (depth req)) with
    | Thrown e =>
        (Returned (Status500 (js "Internal server error") e),
         [Retrieval (pdfId req) (query req) (Server.retrieverK (depth req))])
    | Returned [] =>
        (Returned
           (Status200
              {| payloadQuery := query req;
                 results := Server.notFoundAnswer (query req);
                 pageReferences := [];
                 count := 0 |}),
         [Retrieval (pdfId req) (query req) (Server.retrieverK (depth req))])
    | Returned found =>
        match
          Server.generateEnhancedAnswer env (query req)
            (Server.filterRelevantContent toLowerCase (join (js " ") found)
               (query req) (orElse (Server.pdfType data) (js "general")))
            (extractPageNumbers (join (js " ") found))
            (orElse (Server.pdfType data) (js "general"))
            (orElse (depth req) (js "normal"))
            [Retrieval (pdfId req) (query req)
               (Server.retrieverK (depth req))]
        with
        | (Returned aiResponse, log) =>
            (Returned
               (Status200
                  {| payloadQuery := query req;
                     results := aiResponse;
                     pageReferences :=
                       extractPageNumbers (join (js " ") found);
                     count := Z.of_nat (length found) |}), log)
        | (Thrown e, log) =>
            (Returned (Status500 (js "Internal server error") e), log)
        end
    end.
Proof.
  intros Hq Hid Hpdf Hsmall.
  unfold run, Server.chat, tryCatch. rewrite Hpdf, Hsmall.
  destruct (query req) as [|c q] eqn:Eq; [contradiction|].
  destruct (pdfId req) as [|d i] eqn:Ei; [contradiction|].
  unfold bind at 1, callRetrieve. cbn [app].
  destruct (invoke env (d :: i) (c :: q) (Server.retrieverK (depth req)))
    as [[|chunk found]|e]; try reflexivity.
  unfold bind, ret.
  destruct (Server.generateEnhancedAnswer _ _ _ _ _ _ _) as [[a|e] log];
    reflexivity.
Qed.

End ChatPaths.

(** X5.  A request without a query, without a document id or with the id of
    a document that was never uploaded is answered with status 400, the
    missing query being reported first, and nothing leaves the process. *)
Theorem chat_rejects_bad_request
    (toLowerCase : jsstring -> jsstring) (env : Env)
    (pdfCollections : gmap jsstring Server.PdfData) (req : ChatRequest) :
  query req = [] \/ pdfId req = [] \/ pdfCollections !! pdfId req = None ->
  run (Server.chat toLowerCase env pdfCollections req)
  = (Returned
       (Status400
          (match query req with
           | [] => js "Query parameter is required"
           | _ :: _ => js "Valid PDF ID is required"
           end)), []).
Proof.
  intros H. unfold run, Server.chat, tryCatch.
  destruct (query req) as [|c q]; [reflexivity|].
  destruct H as [H|[H|H]]; [discriminate H | rewrite H; reflexivity|].
  rewrite H. destruct (pdfId req); reflexivity.
Qed.

Lemma chat_rejects_bad_request_witness :
  Examples.pdfs
    !! pdfId {| query := js "What is the capital?"; pdfId := js "0000";
                depth := [] |} = None
  /\ run (Server.chat asciiToLowerCase Cases.healthy Examples.pdfs
            {| query := js "What is the capital?"; pdfId := js "0000";
               depth := [] |})
     = (Returned (Status400 (js "Valid PDF ID is required")), []).
Proof.
  split; [vm_compute; reflexivity|].
  apply (chat_rejects_bad_request asciiToLowerCase Cases.healthy
           Examples.pdfs
           {| query := js "What is the capital?"; pdfId := js "0000";
              depth := [] |}).
  right; right. vm_compute; reflexivity.
Defined.

(** X6.  When retrieval throws, the endpoint answers with status 500 and
    the message of the error as details, after the single retrieval call
    and without any generation call. *)
Theorem chat_retrieval_error
    (toLowerCase : jsstring -> jsstring) (env : Env)
    (pdfCollections : gmap jsstring Server.PdfData) (req : ChatRequest)
    (data : Server.PdfData) (e : jsstring) :
  query req <> [] ->
  pdfId req <> [] ->
  pdfCollections !! pdfId req = Some data ->
  isSmallTalk (query req) = false ->
  invoke env (pdfId req) (query req) (Server.retrieverK (depth req))
  = Thrown e ->
  run (Server.chat toLowerCase env pdfCollections req)
  = (Returned (Status500 (js "Internal server error") e),
     [Retrieval (pdfId req) (query req) (Server.retrieverK (depth req))]).
Proof.
  intros Hq Hid Hpdf Hsmall Hinv.
  rewrite (chat_after_retrieval toLowerCase env pdfCollections req data)
    by assumption.
  rewrite Hinv. reflexivity.
Qed.

Lemma chat_retrieval_error_witness :
  query (Examples.request "What is the capital of France?") <> []
  /\ isSmallTalk (js "What is the capital of France?") = false
  /\ run (Server.chat asciiToLowerCase Cases.storeDown Examples.pdfs
            (Examples.request "What is the capital of France?"))
     = (Returned
          (Status500 (js "Internal server error")
             (js "connect ECONNREFUSED")),
        [Retrieval (js "3f9a") (js "What is the capital of France?") 7]).
Proof.
  split; [discriminate|]. split; [vm_compute; reflexivity|].
  apply (chat_retrieval_error asciiToLowerCase Cases.storeDown Examples.pdfs
           (Examples.request "What is the capital of France?")
           Examples.report).
  - discriminate.
  - discriminate.
  - vm_compute; reflexivity.
  - vm_compute; reflexivity.
  - reflexivity.
Defined.

(** X7.  When retrieval finds nothing, the endpoint answers with status 200,
    a not-found text that quotes the query, no page reference and a count
    of zero, and it does not call the model. *)
Theorem chat_nothing_found
    (toLowerCase : jsstring -> jsstring) (env : Env)
    (pdfCollections : gmap jsstring Server.PdfData) (req : ChatRequest)
    (data : Server.PdfData) :
  query req <> [] ->
  pdfId req <> [] ->
  pdfCollections !! pdfId req = Some data ->
  isSmallTalk (query req) = false ->
  invoke env (pdfId req) (query req) (Server.retrieverK (depth req))
  = Returned [] ->
  run (Server.chat toLowerCase env pdfCollections req)
  = (Returned
       (Status200
          {| payloadQuery := query req;
             results := Server.notFoundAnswer (query req);
             pageReferences := [];
             count := 0 |}),
     [Retrieval (pdfId req) (query req) (Server.retrieverK (depth req))])
  /\ includes (Server.notFoundAnswer (query req)) (query req) = true.
Proof.
  intros Hq Hid Hpdf Hsmall Hinv. split.
  - rewrite (chat_after_retrieval toLowerCase env pdfCollections req data)
      by assumption.
    rewrite Hinv. reflexivity.
  - unfold Server.notFoundAnswer. do 2 apply includes_skip.
    apply includes_prefix.
Qed.

Lemma chat_nothing_found_witness :
  query (Examples.request "What is quantum tunneling?") <> []
  /\ isSmallTalk (js "What is quantum tunneling?") = false
  /\ invoke Examples.terse (js "3f9a") (js "What is quantum tunneling?") 7
     = Returned []
  /\ fst (run (Server.chat asciiToLowerCase Examples.terse Examples.pdfs
                 (Examples.request "What is quantum tunneling?")))
     = Returned
         (Status200
            {| payloadQuery := js "What is quantum tunneling?";
               results :=
                 Server.notFoundAnswer (js "What is quantum tunneling?");
               pageReferences := [];
               count := 0 |}).
Proof.
  split; [discriminate|]. split; [vm_compute; reflexivity|].
  split; [reflexivity|].
  destruct (chat_nothing_found asciiToLowerCase Examples.terse Examples.pdfs
              (Examples.request "What is quantum tunneling?")
              Examples.report) as [H _].
  - discriminate.
  - discriminate.
  - vm_compute; reflexivity.
  - vm_compute; reflexivity.
  - reflexivity.
  - rewrite H. reflexivity.
Defined.

(** X8.  When retrieval finds chunks whose page numbers are in the exact
    range, the endpoint answers with status 200 whatever the generation
    does: the page references are those of the chunks joined by a space, in
    strictly ascending order, the count is the number of chunks, the answer
    holds the citation when there are page references, and the process has
    made the one retrieval call and at most one generation call. *)
Theorem chat_answer_found
    (toLowerCase : jsstring -> jsstring) (env : Env)
    (pdfCollections : gmap jsstring Server.PdfData) (req : ChatRequest)
    (data : Server.PdfData) (found : list jsstring) :
  query req <> [] ->
  pdfId req <> [] ->
  pdfCollections !! pdfId req = Some data ->
  isSmallTalk (query req) = false ->
  invoke env (pdfId req) (query req) (Server.retrieverK (depth req))
  = Returned found ->
  found <> [] ->
  exactPages (join (js " ") found) = true ->
  exists aiResponse log,
    run (Server.chat toLowerCase env pdfCollections req)
    = (Returned
         (Status200
            {| payloadQuery := query req;
               results := aiResponse;
               pageReferences := extractPageNumbers (join (js " ") found);
               count := Z.of_nat (length found) |}),
       Retrieval (pdfId req) (query req) (Server.retrieverK (depth req))
       :: log)
    /\ StronglySorted Z.lt (extractPageNumbers (join (js " ") found))
    /\ Forall (fun n => 0 <= n /\ n <= maxExactInteger)
         (extractPageNumbers (join (js " ") found))
    /\ (extractPageNumbers (join (js " ") found) <> [] ->
        includes aiResponse
          (pageRefText (extractPageNumbers (join (js " ") found))) = true)
    /\ retrievalCalls log = 0%nat
    /\ (generationCalls log <= 1)%nat.
Proof.
  intros Hq Hid Hpdf Hsmall Hinv Hfound Hexact.
  assert (Hrange : Forall (fun n => 0 <= n /\ n <= maxExactInteger)
                     (extractPageNumbers (join (js " ") found))).
  { apply List.Forall_forall. intros n Hn.
    apply extractPageNumbers_In in Hn. split.
    - apply (matches_cited _ _ Hn).
    - unfold exactPages in Hexact. rewrite forallb_forall in Hexact.
      apply Z.leb_le, (Hexact n Hn). }
  rewrite (chat_after_retrieval toLowerCase env pdfCollections req data)
    by assumption.
  rewrite Hinv. destruct found as [|chunk found]; [contradiction|].
  match goal with
  | |- context [Server.generateEnhancedAnswer env ?a ?b ?c ?d ?e ?l] =>
      destruct (generateEnhancedAnswer_cases env a b c d e l)
        as (answer & log & -> & Hlen & Hgen & Hcite)
  end.
  exists answer, log. split; [reflexivity|].
  split; [apply extractPageNumbers_sorted|]. split; [exact Hrange|].
  split; [exact Hcite|].
  assert (Hcalls : forall l, forallb isGeneration l = true ->
            retrievalCalls l = 0%nat /\ generationCalls l = length l).
  { unfold retrievalCalls, generationCalls.
    induction l as [|ev l IH]; simpl; [auto|].
    destruct ev; simpl; [discriminate|]. intros H.
    destruct (IH H) as [-> ->]. split; reflexivity. }
  destruct (Hcalls log Hgen) as [-> ->]. split; [reflexivity | exact Hlen].
Qed.

Lemma chat_answer_found_witness :
  isSmallTalk (js "What is the capital of France?") = false
  /\ exactPages
       (join (js " ")
          [ js "Paris [Page 3] is the capital of France.";
            js "[Page 7] It has a population of over 2 million [Page 7]." ])
     = true
  /\ fst (run (Server.chat asciiToLowerCase Cases.healthy Examples.pdfs
                 (Examples.request "What is the capital of France?")))
     = Returned
         (Status200
            {| payloadQuery := js "What is the capital of France?";
               results :=
                 js "Paris is the capital of France." ++ nl ++ nl
                 ++ js "This information can be found on pages 3, 7.";
               pageReferences := [3; 7];
               count := 2 |})
  /\ exists aiResponse log,
       run (Server.chat asciiToLowerCase Cases.healthy Examples.pdfs
              (Examples.request "What is the capital of France?"))
       = (Returned
            (Status200
               {| payloadQuery := js "What is the capital of France?";
                  results := aiResponse;
                  pageReferences := [3; 7];
                  count := 2 |}),
          Retrieval (js "3f9a") (js "What is the capital of France?") 7
          :: log)
       /\ (generationCalls log <= 1)%nat.
Proof.
  split; [vm_compute; reflexivity|]. split; [vm_compute; reflexivity|].
  split; [vm_compute; reflexivity|].
  destruct (chat_answer_found asciiToLowerCase Cases.healthy Examples.pdfs
              (Examples.request "What is the capital of France?")
              Examples.report
              [ js "Paris [Page 3] is the capital of France.";
                js "[Page 7] It has a population of over 2 million [Page 7]." ])
    as (aiResponse & log & Hrun & _ & _ & _ & _ & Hgen).
  - discriminate.
  - discriminate.
  - vm_compute; reflexivity.
  - vm_compute; reflexivity.
  - reflexivity.
  - discriminate.
  - vm_compute; reflexivity.
  - exists aiResponse, log. split; [exact Hrun | exact Hgen].
Defined.

(** ** More on the ranker *)

Section RankerOrder.

Lemma splitChars_substrings (sep : char -> bool) (s : jsstring) :
  (exists piece rest after,
     splitChars sep s = piece :: rest /\ s = piece ++ after)
  /\ forall piece, In piece (splitChars sep s) ->
       exists before after, s = before ++ piece ++ after.
Proof.
  induction s as [|c s [(p & r & a & Hsplit & Hs) IH]]; simpl.
  - split.
    + exists [], [], []. split; reflexivity.
    + intros piece [<-|[]]. exists [], []. reflexivity.
  - destruct (sep c).
    + split.
      * exists [], (splitChars sep s), (c :: s). split; reflexivity.
      * intros piece [<-|Hin].
        -- exists [], (c :: s). reflexivity.
        -- destruct (IH piece Hin) as (b & a' & ->).
           exists (c :: b), a'. reflexivity.
    + rewrite Hsplit. split.
      * exists (c :: p), r, a. split; [reflexivity|]. rewrite Hs. reflexivity.
      * intros piece [<-|Hin].
        -- exists [], a. rewrite Hs. reflexivity.
        -- destruct (IH piece) as (b & a' & ->).
           { rewrite Hsplit. right. exact Hin. }
           exists (c :: b), a'. reflexivity.
Qed.

Lemma StronglySorted_weaken {A : Type} (R S : A -> A -> Prop) (l : list A) :
  (forall x y, R x y -> S x y) ->
  StronglySorted R l -> StronglySorted S l.
Proof.
  intros HRS. induction 1 as [|x l Hl IH Hx]; constructor; [exact IH|].
  rewrite List.Forall_forall in Hx |- *. intros y Hy. apply HRS, Hx, Hy.
Qed.

End RankerOrder.

(** X9.  The ranker of [server/server.js] returns the best candidates,
    best first: the candidates with a positive score are the selected ones
    followed by the ones left out, and along that whole sequence the score
    never goes up. *)
Theorem filterRelevantContent_best_first
    (toLowerCase : jsstring -> jsstring) (content query pdfType : jsstring) :
  exists leftOut,
    Permutation
      (List.filter (fun item => 0 <? Server.score item)
         (Server.scoredSentences toLowerCase content query pdfType))
      (Server.topRanked toLowerCase content query pdfType ++ leftOut)
    /\ StronglySorted (fun a b => Server.score b <= Server.score a)
         (Server.topRanked toLowerCase content query pdfType ++ leftOut).
Proof.
  unfold Server.topRanked, slice0.
  set (positive := List.filter _ _).
  exists (skipn 7 (sort (fun a b => Server.score b - Server.score a)
                     positive)).
  rewrite firstn_skipn. split.
  - symmetry. apply sort_perm.
  - eapply StronglySorted_weaken; [|apply sort_sorted].
    + unfold precedes. intros x y H. lia.
    + unfold precedes. intros x y. lia.
    + unfold precedes. intros x y z. lia.
Qed.

(** X10.  The ranker makes nothing up: every sentence that it returns is a
    stretch of the text, holds no sentence terminator, and is longer than
    ten characters once trimmed. *)
Theorem filterRelevantContent_quotes_the_text
    (toLowerCase : jsstring -> jsstring) (content query pdfType : jsstring) :
  Forall
    (fun s =>
       (exists before after, content = before ++ s ++ after)
       /\ separators Server.isTerminator s = 0%nat
       /\ (10 < length (trim s))%nat)
    (List.map Server.sentence
       (Server.topRanked toLowerCase content query pdfType)).
Proof.
  apply List.Forall_forall. intros s Hs.
  apply in_map_iff in Hs. destruct Hs as (item & <- & Hitem).
  apply topRanked_In in Hitem. destruct Hitem as [Hitem _].
  split; [|split].
  - unfold Server.scoredSentences, Server.sentences in Hitem.
    apply in_map_iff in Hitem. destruct Hitem as (s & <- & Hs).
    apply filter_In in Hs. destruct Hs as [Hs _]. simpl.
    apply (proj2 (splitChars_substrings Server.isTerminator content)), Hs.
  - eapply scoredSentences_pieces, Hitem.
  - unfold Server.scoredSentences, Server.sentences in Hitem.
    apply in_map_iff in Hitem. destruct Hitem as (s & <- & Hs).
    apply filter_In in Hs. destruct Hs as [_ Hlen]. simpl.
    apply Nat.ltb_lt, Hlen.
Qed.

(** X11.  For a document of type qa the score of a candidate is the score
    of the specification plus five points when the lowercased sentence
    holds "question" or "answer". *)
Theorem scoreSentence_qa
    (toLowerCase : jsstring -> jsstring) (query pdfType s : jsstring) :
  str_eqb pdfType (js "qa") = true ->
  Server.score (Server.scoreSentence toLowerCase query pdfType s)
  = Server.specScore toLowerCase query s
    + (if includes (toLowerCase s) (js "question")
          || includes (toLowerCase s) (js "answer")
       then 5 else 0).
Proof.
  intros Hqa. unfold Server.scoreSentence, Server.specScore,
    Server.isDefinitional.
  cbn [Server.score]. rewrite Hqa. cbn [andb]. rewrite accumulate_matches.
  repeat match goal with
         | |- context [if ?b then _ else _] => destruct b
         end; unfold jsstring; lia.
Qed.

Lemma scoreSentence_qa_witness :
  str_eqb (js "qa") (js "qa") = true
  /\ Server.score
       (Server.scoreSentence asciiToLowerCase (js "capital of France")
          (js "qa") (js "Answer: Paris is the capital of France"))
     = 21
  /\ Server.score
       (Server.scoreSentence asciiToLowerCase (js "capital of France")
          (js "qa") (js "Answer: Paris is the capital of France"))
     = Server.specScore asciiToLowerCase (js "capital of France")
         (js "Answer: Paris is the capital of France")
       + (if includes
               (asciiToLowerCase (js "Answer: Paris is the capital of France"))
               (js "question")
             || includes
                  (asciiToLowerCase
                     (js "Answer: Paris is the capital of France"))
                  (js "answer")
          then 5 else 0).
Proof.
  split; [reflexivity|]. split; [vm_compute; reflexivity|].
  apply (scoreSentence_qa asciiToLowerCase). reflexivity.
Defined.

Section VariantKeywords.

Variable toLowerCase : jsstring -> jsstring.

Lemma variant_score_lower_bound (query s : jsstring) :
  3 * Z.of_nat
        (length
           (List.filter (includes (toLowerCase s))
              (Variant.queryKeywords toLowerCase query)))
  <= Variant.score (Variant.scoreSentence toLowerCase query s).
Proof.
  unfold Variant.scoreSentence. cbn [Variant.score].
  rewrite accumulate_matches.
  repeat match goal with
         | |- context [if ?b then _ else _] => destruct b
         end; unfold jsstring; lia.
Qed.

End VariantKeywords.

(** X12.  In the variant ranker every keyword counts, the empty one as
    well: when the lowercased query begins with white space, splitting it
    gives an empty keyword, which every sentence holds, so every candidate
    scores at least three, none is filtered out, and the ranker returns
    the first five candidates that the order by score gives. *)
Theorem variant_leading_space_matches_all
    (toLowerCase : jsstring -> jsstring) (content query : jsstring)
    (c : char) (rest : jsstring) :
  toLowerCase query = c :: rest ->
  isWhiteSpace c = true ->
  Forall (fun item => 3 <= Variant.score item)
    (Variant.scoredSentences toLowerCase content query)
  /\ length (Variant.topRanked toLowerCase content query)
     = Nat.min 5 (length (Variant.sentences content)).
Proof.
  intros Hq Hc.
  assert (Hall : Forall (fun item => 3 <= Variant.score item)
                   (Variant.scoredSentences toLowerCase content query)).
  { apply List.Forall_forall. intros item Hitem.
    unfold Variant.scoredSentences in Hitem. apply in_map_iff in Hitem.
    destruct Hitem as (s & <- & _).
    pose proof (variant_score_lower_bound toLowerCase query s) as Hlow.
    unfold Variant.queryKeywords, splitRuns in Hlow. rewrite Hq in Hlow.
    cbn [splitRunsFrom] in Hlow. rewrite Hc in Hlow.
    cbn [List.filter] in Hlow.
    rewrite (includes_startsWith (toLowerCase s) [] eq_refl) in Hlow.
    cbn [length] in Hlow. lia. }
  split; [exact Hall|].
  unfold Variant.topRanked, slice0.
  rewrite length_firstn, sort_length.
  replace (List.filter (fun item => 0 <? Variant.score item)
             (Variant.scoredSentences toLowerCase content query))
    with (Variant.scoredSentences toLowerCase content query).
  - unfold Variant.scoredSentences. rewrite length_map. reflexivity.
  - symmetry. apply forallb_filter_id. apply forallb_forall.
    rewrite List.Forall_forall in Hall. intros item Hitem.
    apply Z.ltb_lt. specialize (Hall item Hitem). lia.
Qed.

Lemma variant_leading_space_matches_all_witness :
  asciiToLowerCase (js " Zebra") = 32%N :: js "zebra"
  /\ isWhiteSpace 32%N = true
  /\ Variant.filterRelevantContent asciiToLowerCase
       (js "The sky is blue today. It rained all night long.")
       (js " Zebra")
     = js "The sky is blue today.  It rained all night long."
  /\ Server.filterRelevantContent asciiToLowerCase
       (js "The sky is blue today. It rained all night long.")
       (js " Zebra") (js "general")
     = js "."
  /\ length
       (Variant.topRanked asciiToLowerCase
          (js "The sky is blue today. It rained all night long.")
          (js " Zebra"))
     = Nat.min 5
         (length
            (Variant.sentences
               (js "The sky is blue today. It rained all night long."))).
Proof.
  split; [reflexivity|]. split; [reflexivity|].
  split; [vm_compute; reflexivity|]. split; [vm_compute; reflexivity|].
  apply (variant_leading_space_matches_all asciiToLowerCase
           (js "The sky is blue today. It rained all night long.")
           (js " Zebra") 32%N (js "zebra")); reflexivity.
Defined.

(** ** What the cleaner guarantees *)

Section CleanerOutput.

Lemma execAll_none (m : capturing) (s : jsstring) :
  (forall before rest, s = before ++ rest -> m rest = None) ->
  execAll m s = [].
Proof.
  unfold execAll. induction s as [|c s IH]; intros H; simpl.
  - reflexivity.
  - rewrite (H [] (c :: s) eq_refl). apply IH.
    intros before rest ->. apply (H (c :: before) rest). reflexivity.
Qed.

Lemma kept_no_marker (r : jsstring) :
  Forall (fun c => Variant.isKept c = true) r ->
  forall before rest, r = before ++ rest -> pageRegex rest = None.
Proof.
  intros Hkept before [|c rest] E; [reflexivity|].
  subst r. apply Forall_app in Hkept. destruct Hkept as [_ Hk].
  inversion Hk as [|? ? Hc _]; subst.
  unfold pageRegex. change (js "[Page ") with (91%N :: js "Page ").
  cbn [startsWith]. rewrite (kept_not_bracket c Hc). reflexivity.
Qed.

Lemma cleanContext_length (content : jsstring) :
  (length (Variant.cleanContext content) <= length content)%nat.
Proof.
  unfold Variant.cleanContext.
  pose proof (replaceFrom_length (matchLength pageRegex) [] 0 content) as H1.
  pose proof (replaceFrom_length Variant.dotRun [] 0
                (replaceAll (matchLength pageRegex) [] content)) as H2.
  pose proof (replaceFrom_length Variant.whiteSpaceRun (js " ") 0
                (replaceAll Variant.dotRun []
                   (replaceAll (matchLength pageRegex) [] content))) as H3.
  pose proof (cleanContext_tail_length
                (replaceAll Variant.whiteSpaceRun (js " ")
                   (replaceAll Variant.dotRun []
                      (replaceAll (matchLength pageRegex) [] content))))
    as H4.
  unfold replaceAll in *. simpl in H1, H2, H3. lia.
Qed.

End CleanerOutput.

(** X13.  No page marker survives the cleaner: the cleaned text holds no
    opening bracket, and the extractor finds no page number in it.  The
    chat endpoint of the variant backend therefore has to read the page
    numbers off the raw text, as it does. *)
Theorem cleanContext_erases_markers (content : jsstring) :
  includes (Variant.cleanContext content) (js "[") = false
  /\ extractPageNumbers (Variant.cleanContext content) = [].
Proof.
  pose proof (cleanContext_kept content) as Hkept. split.
  - destruct (includes (Variant.cleanContext content) (js "[")) eqn:E;
      [|reflexivity].
    apply startsWith_suffix in E. destruct E as (before & rest & E & Hst).
    rewrite E in Hkept. apply Forall_app in Hkept. destruct Hkept as [_ Hk].
    destruct rest as [|c rest]; [discriminate Hst|].
    inversion Hk as [|? ? Hc _]; subst.
    change (js "[") with [91%N] in Hst. cbn [startsWith] in Hst.
    rewrite (kept_not_bracket c Hc) in Hst. discriminate Hst.
  - unfold extractPageNumbers, matches.
    rewrite (execAll_none pageRegex (Variant.cleanContext content)
               (kept_no_marker _ Hkept)).
    reflexivity.
Qed.

(** X14.  The cleaned text is never longer than the raw text; it holds only
    the characters that the last replacement keeps, which are the word
    characters, white space, the marks . , ! ? ; : - and the single and the
    double quote (parentheses and brackets are removed); its white space is
    made of plain spaces only; and it neither begins nor ends with white
    space. *)
Theorem cleanContext_normal_form (content : jsstring) :
  (length (Variant.cleanContext content) <= length content)%nat
  /\ Forall (fun c => Variant.isKept c = true) (Variant.cleanContext content)
  /\ Forall (fun c => isWordChar c = true \/ isWhiteSpace c = true
                      \/ In c [46; 44; 33; 63; 59; 58; 39; 34; 45]%N)
       (Variant.cleanContext content)
  /\ Forall (fun c => isWhiteSpace c = true -> c = 32%N)
       (Variant.cleanContext content)
  /\ trim (Variant.cleanContext content) = Variant.cleanContext content.
Proof.
  split; [apply cleanContext_length|].
  split; [apply cleanContext_kept|].
  split; [|split; [apply cleanContext_spaces | apply cleanContext_trimmed]].
  eapply Forall_impl; [|apply cleanContext_kept].
  intros c Hc. unfold Variant.isKept in Hc.
  apply orb_true_iff in Hc as [Hc|Hc];
    [apply orb_true_iff in Hc as [Hc|Hc]; [left|right; left]; exact Hc|].
  right. right. apply existsb_exists in Hc as (x & Hx & Heq).
  apply char_eqb_eq in Heq. subst x. exact Hx.
Qed.

(** ** The classifier and the responder agree *)

Section CaseFolding.

Lemma asciiToLowerCase_map (s : jsstring) :
  asciiToLowerCase s = List.map asciiLowerChar s.
Proof. reflexivity. Qed.

Lemma fold_char (c p : char) :
  isLowerPattern p = true ->
  char_eqb (canonicalize c) (canonicalize p) = char_eqb (asciiLowerChar c) p.
Proof.
  unfold isLowerPattern, canonicalize, asciiLowerChar, char_eqb.
  intros Hp. apply negb_true_iff in Hp.
  apply eq_true_iff_eq. rewrite !N.eqb_eq.
  destruct ((97 <=? Z.of_N c) && (Z.of_N c <=? 122)) eqn:Hc1;
    destruct ((97 <=? Z.of_N p) && (Z.of_N p <=? 122)) eqn:Hp1;
    destruct ((65 <=? Z.of_N c) && (Z.of_N c <=? 90)) eqn:Hc2;
    rewrite ?andb_true_iff, ?andb_false_iff, ?Z.leb_le, ?Z.leb_gt in *;
    lia.
Qed.

Lemma letter_not_white_space (c : char) :
  65 <= Z.of_N c <= 122 -> isWhiteSpace c = false.
Proof.
  intros Hc. unfold isWhiteSpace. cbv zeta.
  repeat (apply orb_false_iff; split);
    try (apply Z.eqb_neq; lia);
    apply andb_false_iff; rewrite !Z.leb_gt; lia.
Qed.

Lemma fold_white_space (c : char) :
  isWhiteSpace (asciiLowerChar c) = isWhiteSpace c.
Proof.
  unfold asciiLowerChar. cbv zeta.
  destruct ((65 <=? Z.of_N c) && (Z.of_N c <=? 90)) eqn:Hc; [|reflexivity].
  apply andb_true_iff in Hc. rewrite !Z.leb_le in Hc.
  rewrite !letter_not_white_space by lia. reflexivity.
Qed.

Lemma fold_startsWith (s p : jsstring) :
  forallb isLowerPattern p = true ->
  startsWith (List.map canonicalize s) (List.map canonicalize p)
  = startsWith (List.map asciiLowerChar s) p.
Proof.
  revert s. induction p as [|b p IH]; intros s Hp; [reflexivity|].
  simpl in Hp. apply andb_true_iff in Hp. destruct Hp as [Hb Hp].
  destruct s as [|a s]; [reflexivity|]. cbn [List.map startsWith].
  rewrite (fold_char a b Hb), (IH s Hp). reflexivity.
Qed.

Lemma fold_includes (s p : jsstring) :
  forallb isLowerPattern p = true ->
  includes (List.map canonicalize s) (List.map canonicalize p)
  = includes (List.map asciiLowerChar s) p.
Proof.
  intros Hp. induction s as [|a s IH].
  - pose proof (fold_startsWith [] p Hp) as H. cbn [List.map] in H.
    cbn [List.map includes]. rewrite H. reflexivity.
  - pose proof (fold_startsWith (a :: s) p Hp) as H. cbn [List.map] in H.
    cbn [List.map includes]. rewrite H, IH. reflexivity.
Qed.

Lemma fold_str_eqb (s p : jsstring) :
  forallb isLowerPattern p = true ->
  str_eqb (List.map canonicalize s) (List.map canonicalize p)
  = str_eqb (List.map asciiLowerChar s) p.
Proof.
  revert s. induction p as [|b p IH]; intros s Hp.
  - destruct s; reflexivity.
  - simpl in Hp. apply andb_true_iff in Hp. destruct Hp as [Hb Hp].
    destruct s as [|a s]; [reflexivity|]. cbn [List.map str_eqb].
    rewrite (fold_char a b Hb), (IH s Hp). reflexivity.
Qed.

Lemma fold_endsWith (s p : jsstring) :
  forallb isLowerPattern p = true ->
  endsWith (List.map canonicalize s) (List.map canonicalize p)
  = endsWith (List.map asciiLowerChar s) p.
Proof.
  intros Hp. unfold endsWith. rewrite <- !map_rev.
  apply fold_startsWith. rewrite forallb_forall in Hp |- *.
  intros c Hc. apply Hp. apply in_rev. exact Hc.
Qed.

Lemma fold_alternative (s : jsstring) (a : alternative) :
  forallb isLowerPattern (literal a) = true ->
  testAlternative (List.map canonicalize s) (canonicalizeAlternative a)
  = testAlternative (List.map asciiLowerChar s) a.
Proof.
  intros Ha. unfold testAlternative, canonicalizeAlternative. simpl.
  destruct (anchoredStart a), (anchoredEnd a).
  - apply fold_str_eqb, Ha.
  - apply fold_startsWith, Ha.
  - apply fold_endsWith, Ha.
  - apply fold_includes, Ha.
Qed.

(** A pattern of small letters matches without regard to case what it
    matches in the lowercased subject. *)
Lemma fold_test (alts : list alternative) (s : jsstring) :
  forallb (fun a => forallb isLowerPattern (literal a)) alts = true ->
  test {| alternatives := alts; ignoreCase := true |} s
  = test {| alternatives := alts; ignoreCase := false |}
      (List.map asciiLowerChar s).
Proof.
  unfold test. cbn [ignoreCase alternatives].
  induction alts as [|a alts IH]; intros H; [reflexivity|].
  simpl in H. apply andb_true_iff in H. destruct H as [Ha H].
  cbn [existsb]. rewrite (fold_alternative s a Ha), (IH H). reflexivity.
Qed.

Lemma trimStart_map (s : jsstring) :
  trimStart (List.map asciiLowerChar s)
  = List.map asciiLowerChar (trimStart s).
Proof.
  induction s as [|c s IH]; [reflexivity|]. cbn [List.map trimStart].
  rewrite fold_white_space. destruct (isWhiteSpace c); [exact IH|].
  reflexivity.
Qed.

Lemma trimEnd_map (s : jsstring) :
  trimEnd (List.map asciiLowerChar s) = List.map asciiLowerChar (trimEnd s).
Proof.
  induction s as [|c s IH]; [reflexivity|]. cbn [List.map trimEnd].
  rewrite IH, fold_white_space.
  destruct (trimEnd s); [destruct (isWhiteSpace c)|]; reflexivity.
Qed.

Lemma trim_map (s : jsstring) :
  trim (asciiToLowerCase s) = List.map asciiLowerChar (trim s).
Proof.
  unfold trim. rewrite asciiToLowerCase_map, trimStart_map, trimEnd_map.
  reflexivity.
Qed.

End CaseFolding.

Section Agreement.

Lemma fold_RegExp (source : string) (s : jsstring) :
  forallb (fun a => forallb isLowerPattern (literal a))
    (alternatives (RegExp source noFlags)) = true ->
  test (RegExp source "i") s
  = test (RegExp source noFlags) (List.map asciiLowerChar s).
Proof.
  intros H. apply (fold_test (alternatives (RegExp source noFlags)) s H).
Qed.

Lemma echo_not_default (query tail : jsstring) :
  (length defaultReply < length tail)%nat ->
  query ++ tail <> defaultReply.
Proof.
  intros Hlen E. apply (f_equal (@length char)) in E.
  rewrite length_app in E. lia.
Qed.

End Agreement.

(** X15.  On a query that lowercasing changes in its ASCII capitals only,
    the classifier and the responder of [server/server.js] agree: the
    query is small talk exactly when the responder finds a pattern for it,
    so the chat endpoint never sends the default reply of the responder. *)
Theorem small_talk_reply_matches_classifier
    (toLowerCase : jsstring -> jsstring) (query : jsstring) :
  toLowerCase query = asciiToLowerCase query ->
  isSmallTalk query = true
  <-> Server.getSmallTalkResponse toLowerCase query <> defaultReply.
Proof.
  intros Hq. unfold isSmallTalk, smallTalkPatterns,
    Server.getSmallTalkResponse.
  cbv zeta. rewrite Hq, trim_map. cbn [existsb].
  rewrite !fold_RegExp by reflexivity.
  set (lowered := List.map asciiLowerChar (trim query)).
  repeat match goal with
         | |- context [test ?r lowered] =>
             destruct (test r lowered);
             [split; [intros _|reflexivity]|]
         end;
    try (intros E; apply (f_equal (@length char)) in E;
         vm_compute in E; discriminate E);
    try (apply echo_not_default; vm_compute; lia).
  split; [discriminate|]. intros H. exfalso. apply H. reflexivity.
Qed.

Lemma small_talk_reply_matches_classifier_witness :
  asciiToLowerCase (js "  THANKS a lot ")
  = asciiToLowerCase (js "  THANKS a lot ")
  /\ isSmallTalk (js "  THANKS a lot ") = true
  /\ Server.getSmallTalkResponse asciiToLowerCase (js "  THANKS a lot ")
     = js "You're welcome! I'm glad I could help. Is there anything else you'd like to know about your document?"
  /\ Server.getSmallTalkResponse asciiToLowerCase (js "  THANKS a lot ")
     <> defaultReply.
Proof.
  split; [reflexivity|]. split; [vm_compute; reflexivity|].
  split; [vm_compute; reflexivity|].
  apply (small_talk_reply_matches_classifier asciiToLowerCase
           (js "  THANKS a lot ") eq_refl).
  vm_compute; reflexivity.
Defined.

(** ** The text normalisation of the upload endpoint *)

Section Collapse.

Import Variant.

Lemma replaceFrom_skip (m : matcher) (repl t r : jsstring) :
  replaceFrom m repl (length t) (t ++ r) = replaceFrom m repl 0 r.
Proof. induction t as [|c t IH]; [reflexivity | exact IH]. Qed.

Lemma spanChars_trimStart (s : jsstring) :
  snd (spanChars isWhiteSpace s) = trimStart s.
Proof.
  induction s as [|c s IH]; [reflexivity|]. simpl.
  destruct (isWhiteSpace c); [|reflexivity].
  destruct (spanChars isWhiteSpace s). exact IH.
Qed.

Lemma collapse_step (c : char) (s : jsstring) :
  replaceAll whiteSpaceRun (js " ") (c :: s)
  = if isWhiteSpace c
    then 32%N :: replaceAll whiteSpaceRun (js " ") (trimStart s)
    else c :: replaceAll whiteSpaceRun (js " ") s.
Proof.
  unfold replaceAll. cbn [replaceFrom]. unfold whiteSpaceRun at 1.
  simpl spanChars. destruct (isWhiteSpace c); [|reflexivity].
  pose proof (spanChars_trimStart s) as Hrest.
  destruct (spanChars isWhiteSpace s) as [run rest] eqn:Hspan.
  apply spanChars_spec in Hspan. destruct Hspan as [Hs _].
  simpl in Hrest. subst rest. cbn [length app js].
  rewrite Hs at 1. rewrite replaceFrom_skip. reflexivity.
Qed.

Lemma trimStart_length (s : jsstring) :
  (length (trimStart s) <= length s)%nat.
Proof.
  induction s as [|c s IH]; simpl; [lia|].
  destruct (isWhiteSpace c); simpl; lia.
Qed.

Lemma collapse_head (s : jsstring) :
  match s with c :: _ => isWhiteSpace c = false | [] => True end ->
  startsWith (replaceAll whiteSpaceRun (js " ") s) (js " ") = false.
Proof.
  destruct s as [|c s]; [reflexivity|]. intros Hc.
  rewrite collapse_step, Hc. change (js " ") with [32%N].
  cbn [startsWith]. destruct (char_eqb c 32%N) eqn:E; [|reflexivity].
  apply char_eqb_eq in E. subst c. discriminate Hc.
Qed.

Lemma collapse_no_double_bounded (n : nat) (s : jsstring) :
  (length s <= n)%nat ->
  includes (replaceAll whiteSpaceRun (js " ") s) (js "  ") = false.
Proof.
  revert s. induction n as [|n IH]; intros s Hlen.
  - destruct s; [reflexivity | simpl in Hlen; lia].
  - destruct s as [|c s]; [reflexivity|]. simpl in Hlen.
    rewrite collapse_step. destruct (isWhiteSpace c) eqn:Hc.
    + cbn [includes]. rewrite IH
        by (pose proof (trimStart_length s); lia).
      rewrite orb_false_r. change (js "  ") with (32%N :: js " ").
      cbn [startsWith]. rewrite (collapse_head (trimStart s)).
      * apply andb_false_r.
      * apply trimStart_head.
    + cbn [includes]. rewrite IH by lia. rewrite orb_false_r.
      change (js "  ") with (32%N :: js " "). cbn [startsWith].
      destruct (char_eqb c 32%N) eqn:E; [|reflexivity].
      apply char_eqb_eq in E. subst c. discriminate Hc.
Qed.

Lemma trim_substring (s : jsstring) :
  exists before after, s = before ++ trim s ++ after.
Proof.
  assert (Hstart : forall t, exists before, t = before ++ trimStart t).
  { induction t as [|c t [b IH]]; [exists []; reflexivity|]. simpl.
    destruct (isWhiteSpace c).
    - exists (c :: b). rewrite IH at 1. reflexivity.
    - exists []. reflexivity. }
  assert (Hend : forall t, exists after, t = trimEnd t ++ after).
  { induction t as [|c t [a IH]]; [exists []; reflexivity|]. simpl.
    destruct (trimEnd t) as [|d u] eqn:E.
    - destruct (isWhiteSpace c).
      + exists (c :: t). reflexivity.
      + exists t. reflexivity.
    - exists a. rewrite IH at 1. reflexivity. }
  destruct (Hstart s) as [before Hb].
  destruct (Hend (trimStart s)) as [after Ha].
  exists before, after. unfold trim. rewrite <- Ha. exact Hb.
Qed.

Lemma includes_trim (s p : jsstring) :
  includes s p = false -> includes (trim s) p = false.
Proof.
  intros H. destruct (includes (trim s) p) eqn:E; [|reflexivity].
  apply includes_split in E. destruct E as (a & b & E).
  destruct (trim_substring s) as (before & after & Hs).
  rewrite E in Hs. rewrite Hs in H.
  rewrite <- !app_assoc in H. rewrite app_assoc in H.
  rewrite includes_app in H. discriminate H.
Qed.

End Collapse.

(** X16.  The text that [cleanAndStructureText] returns is normalised: its
    white space is made of single plain spaces, none at either end; and the
    function leaves such a text as it is, so that normalising twice is
    normalising once.  Without a second argument the type is general. *)
Theorem cleanAndStructureText_idempotent
    (text : jsstring) (pdfType : option jsstring) :
  Upload.structuredText
    (Upload.cleanAndStructureText
       (Upload.structuredText (Upload.cleanAndStructureText text pdfType))
       pdfType)
  = Upload.structuredText (Upload.cleanAndStructureText text pdfType)
  /\ includes
       (Upload.structuredText (Upload.cleanAndStructureText text pdfType))
       (js "  ") = false
  /\ Forall (fun c => isWhiteSpace c = true -> c = 32%N)
       (Upload.structuredText (Upload.cleanAndStructureText text pdfType))
  /\ trim (Upload.structuredText (Upload.cleanAndStructureText text pdfType))
     = Upload.structuredText (Upload.cleanAndStructureText text pdfType)
  /\ Upload.structuredType (Upload.cleanAndStructureText text None)
     = js "general".
Proof.
  unfold Upload.cleanAndStructureText. cbn [Upload.structuredText
    Upload.structuredType].
  set (collapsed := replaceAll Variant.whiteSpaceRun (js " ") text).
  assert (Hdouble : includes (trim collapsed) (js "  ") = false).
  { apply includes_trim.
    apply (collapse_no_double_bounded (length text)). lia. }
  assert (Hsp : Forall (fun c => isWhiteSpace c = true -> c = 32%N)
                  (trim collapsed)).
  { apply trim_Forall. apply whiteSpaceRun_output. }
  split; [|split; [exact Hdouble | split; [exact Hsp|]]].
  - rewrite (whiteSpaceRun_fixed (trim collapsed) Hsp Hdouble).
    apply trim_idempotent.
  - split; [apply trim_idempotent | reflexivity].
Qed.

(** ** The upload endpoint and the map of documents *)

Section UploadFacts.

Import Upload.

Lemma toHex_length (bytes : list N) :
  length (toHex bytes) = (2 * length bytes)%nat.
Proof.
  unfold toHex. induction bytes as [|b bytes IH]; simpl; [reflexivity|].
  rewrite IH. lia.
Qed.

(** What an upload can be. *)
Lemma upload_cases (world : World)
    (pdfCollections : gmap jsstring Server.PdfData)
    (reqFile : option UploadedFile) :
  (exists payload effects,
     upload world pdfCollections reqFile
     = (Uploaded payload,
        <[ payloadPdfId payload :=
             {| Server.filename := originalname (file payload);
                Server.uploadedAt := toISOString world;
                Server.pdfType := js "general" |} ]> pdfCollections,
        effects)
     /\ reqFile = Some (file payload)
     /\ payloadPdfId payload = generatePdfId world
     /\ payloadPdfType payload = js "general")
  \/ (exists error effects,
        upload world pdfCollections reqFile
        = (Refused error, pdfCollections, effects)
        \/ upload world pdfCollections reqFile
           = (Failed error, pdfCollections, effects)).
Proof.
  unfold upload. destruct reqFile as [reqFile|].
  - destruct (extractTextFromPDF world (path reqFile)) as [text|e].
    + destruct (writeFileSync world _ _) as [[]|e].
      * destruct (add world _) as [[]|e].
        -- left. eexists (Build_UploadPayload _ _ _ _ _). eexists.
           split; [reflexivity|]. repeat split; reflexivity.
        -- right. eexists. eexists. right. reflexivity.
      * right. eexists. eexists. right. reflexivity.
    + right. eexists. eexists. right. reflexivity.
  - right. eexists. eexists. left. reflexivity.
Qed.

End UploadFacts.

(** X17.  An upload that does not end with status 200 leaves the map of
    documents as it was: the document is registered last, after the text
    has been extracted and written and the job queued. *)
Theorem upload_failure_registers_nothing
    (world : Upload.World) (pdfCollections : gmap jsstring Server.PdfData)
    (reqFile : option Upload.UploadedFile) (error : jsstring) :
  fst (fst (Upload.upload world pdfCollections reqFile))
  = Upload.Failed error
  \/ fst (fst (Upload.upload world pdfCollections reqFile))
     = Upload.Refused error ->
  snd (fst (Upload.upload world pdfCollections reqFile)) = pdfCollections.
Proof.
  intros H.
  destruct (upload_cases world pdfCollections reqFile)
    as [(payload & effects & E & _)|(e & effects & [E|E])];
    rewrite E in *; simpl in *; [|reflexivity|reflexivity].
  destruct H as [H|H]; discriminate H.
Qed.

Lemma upload_failure_registers_nothing_witness :
  Upload.upload Worlds.queueDown Examples.pdfs (Some Worlds.thesis)
  = (Upload.Failed (js "Internal server error"), Examples.pdfs,
     [ Upload.Loaded (js "uploads/1700000000000-123456789-thesis.pdf");
       Upload.Written
         (js "uploads/a7a7a7a7a7a7a7a7a7a7a7a7a7a7a7a7_temp.txt")
         (js "Chapter 1 Introduction");
       Upload.Queued
         {| Upload.jobFilename := js "thesis.pdf";
            Upload.jobDestination := js "uploads/";
            Upload.jobPath :=
              js "uploads/1700000000000-123456789-thesis.pdf";
            Upload.textPath :=
              js "uploads/a7a7a7a7a7a7a7a7a7a7a7a7a7a7a7a7_temp.txt";
            Upload.jobPdfId := js "a7a7a7a7a7a7a7a7a7a7a7a7a7a7a7a7";
            Upload.jobPdfType := js "general" |} ])
  /\ snd (fst (Upload.upload Worlds.queueDown Examples.pdfs
                 (Some Worlds.thesis))) = Examples.pdfs.
Proof.
  split; [reflexivity|].
  apply (upload_failure_registers_nothing Worlds.queueDown Examples.pdfs
           (Some Worlds.thesis) (js "Internal server error")).
  left. reflexivity.
Defined.

Section ChatAccepts.

Variable toLowerCase : jsstring -> jsstring.
Variable env : Env.

(** A request with a query and the id of a registered document is never
    answered with status 400. *)
Lemma chat_accepts (pdfCollections : gmap jsstring Server.PdfData)
    (req : ChatRequest) (data : Server.PdfData) (error : jsstring) :
  query req <> [] ->
  pdfId req <> [] ->
  pdfCollections !! pdfId req = Some data ->
  fst (run (Server.chat toLowerCase env pdfCollections req))
  <> Returned (Status400 error).
Proof.
  intros Hq Hid Hpdf.
  destruct (isSmallTalk (query req)) eqn:Hsmall.
  - rewrite (chat_small_talk toLowerCase env pdfCollections req data)
      by assumption.
    discriminate.
  - rewrite (chat_after_retrieval toLowerCase env pdfCollections req data)
      by assumption.
    destruct (invoke env _ _ _) as [[|chunk found]|e]; try discriminate.
    destruct (Server.generateEnhancedAnswer _ _ _ _ _ _ _) as [[a|e] log];
      discriminate.
Qed.

End ChatAccepts.

(** X18.  After an upload that ends with status 200, the map of documents
    holds the new document under the id of the response, with the name of
    the file, the time of the upload and the type general; the id is made
    of thirty-two characters when the random source gives its sixteen
    bytes; the other documents are as before; and a chat request with a
    query and that id is not answered with status 400. *)
Theorem upload_then_chat
    (world : Upload.World) (pdfCollections : gmap jsstring Server.PdfData)
    (reqFile : option Upload.UploadedFile) (payload : Upload.UploadPayload)
    (toLowerCase : jsstring -> jsstring) (env : Env) (req : ChatRequest) :
  fst (fst (Upload.upload world pdfCollections reqFile))
  = Upload.Uploaded payload ->
  length (Upload.randomBytes world 16) = 16%nat ->
  query req <> [] ->
  pdfId req = Upload.payloadPdfId payload ->
  snd (fst (Upload.upload world pdfCollections reqFile))
    !! Upload.payloadPdfId payload
  = Some {| Server.filename := Upload.originalname (Upload.file payload);
            Server.uploadedAt := Upload.toISOString world;
            Server.pdfType := js "general" |}
  /\ length (Upload.payloadPdfId payload) = 32%nat
  /\ (forall other : jsstring,
        other <> Upload.payloadPdfId payload ->
        snd (fst (Upload.upload world pdfCollections reqFile)) !! other
        = pdfCollections !! other)
  /\ forall error,
       fst (run (Server.chat toLowerCase env
                   (snd (fst (Upload.upload world pdfCollections reqFile)))
                   req))
       <> Returned (Status400 error).
Proof.
  intros Hup Hbytes Hq Hid.
  destruct (upload_cases world pdfCollections reqFile)
    as [(payload' & effects & E & _ & Hpid & _)|(e & effects & [E|E])];
    rewrite E in Hup |- *; simpl in Hup; try discriminate Hup.
  injection Hup as <-. cbn [fst snd].
  assert (Hlen : length (Upload.payloadPdfId payload') = 32%nat).
  { rewrite Hpid. unfold Upload.generatePdfId.
    rewrite toHex_length, Hbytes. reflexivity. }
  split; [apply lookup_insert_eq|]. split; [exact Hlen|]. split.
  - intros other Hother. apply lookup_insert_ne. congruence.
  - intros error. eapply chat_accepts.
    + exact Hq.
    + rewrite Hid. intros Hnil. rewrite Hnil in Hlen. discriminate Hlen.
    + rewrite Hid. apply lookup_insert_eq.
Qed.

Lemma upload_then_chat_witness :
  fst (fst (Upload.upload Worlds.working Examples.pdfs (Some Worlds.thesis)))
  = Upload.Uploaded
      {| Upload.message := js "File uploaded successfully";
         Upload.file := Worlds.thesis;
         Upload.payloadPdfId := js "a7a7a7a7a7a7a7a7a7a7a7a7a7a7a7a7";
         Upload.payloadPdfType := js "general";
         Upload.status := js "Processing started" |}
  /\ length (Upload.randomBytes Worlds.working 16) = 16%nat
  /\ snd (fst (Upload.upload Worlds.working Examples.pdfs
                 (Some Worlds.thesis)))
       !! js "a7a7a7a7a7a7a7a7a7a7a7a7a7a7a7a7"
     = Some {| Server.filename := js "thesis.pdf";
               Server.uploadedAt := js "2025-01-01T00:00:00.000Z";
               Server.pdfType := js "general" |}
  /\ snd (fst (Upload.upload Worlds.working Examples.pdfs
                 (Some Worlds.thesis))) !! js "3f9a"
     = Some Examples.report.
Proof.
  split; [reflexivity|]. split; [reflexivity|].
  destruct (upload_then_chat Worlds.working Examples.pdfs
              (Some Worlds.thesis)
              {| Upload.message := js "File uploaded successfully";
                 Upload.file := Worlds.thesis;
                 Upload.payloadPdfId := js "a7a7a7a7a7a7a7a7a7a7a7a7a7a7a7a7";
                 Upload.payloadPdfType := js "general";
                 Upload.status := js "Processing started" |}
              asciiToLowerCase Cases.healthy
              {| query := js "What is chapter 1 about?";
                 pdfId := js "a7a7a7a7a7a7a7a7a7a7a7a7a7a7a7a7";
                 depth := [] |})
    as (Hnew & _ & Hold & _).
  - reflexivity.
  - reflexivity.
  - discriminate.
  - reflexivity.
  - split; [exact Hnew|].
    rewrite (Hold (js "3f9a")) by discriminate. vm_compute; reflexivity.
Defined.

(** X19.  Every document that the server holds has the type general: the
    map of documents starts empty and the upload endpoint, the only writer,
    never passes a type to [cleanAndStructureText].  So the ranker never
    gives the bonus of the type qa to an uploaded document: its scores are
    those of the specification. *)
Theorem uploaded_documents_are_general
    (pdfCollections : gmap jsstring Server.PdfData) (id : jsstring)
    (data : Server.PdfData) :
  Upload.reachable pdfCollections ->
  pdfCollections !! id = Some data ->
  Server.pdfType data = js "general"
  /\ forall (toLowerCase : jsstring -> jsstring) (content query : jsstring),
       List.map Server.score
         (Server.scoredSentences toLowerCase content query
            (orElse (Server.pdfType data) (js "general")))
       = List.map (Server.specScore toLowerCase query)
           (Server.sentences content).
Proof.
  intros Hreach. revert id data.
  assert (Hgeneral : forall id data,
            pdfCollections !! id = Some data ->
            Server.pdfType data = js "general").
  { induction Hreach as [|world store reqFile Hreach IH]; intros id data Hid.
    - rewrite lookup_empty in Hid. discriminate Hid.
    - destruct (upload_cases world store reqFile)
        as [(payload & effects & E & _)|(e & effects & [E|E])];
        rewrite E in Hid; cbn [fst snd] in Hid;
        try (apply (IH id data Hid)).
      destruct (decide (Upload.payloadPdfId payload = id)) as [<-|Hne].
      + rewrite lookup_insert_eq in Hid. injection Hid as <-. reflexivity.
      + rewrite lookup_insert_ne in Hid by exact Hne.
        apply (IH id data Hid). }
  intros id data Hid. split; [apply (Hgeneral id data Hid)|].
  intros toLowerCase content query. rewrite (Hgeneral id data Hid).
  unfold Server.scoredSentences. rewrite map_map. apply map_ext.
  intros s. apply scoreSentence_spec. reflexivity.
Qed.

Lemma uploaded_documents_are_general_witness :
  Upload.reachable
    (snd (fst (Upload.upload Worlds.working ∅ (Some Worlds.thesis))))
  /\ snd (fst (Upload.upload Worlds.working ∅ (Some Worlds.thesis)))
       !! js "a7a7a7a7a7a7a7a7a7a7a7a7a7a7a7a7"
     = Some {| Server.filename := js "thesis.pdf";
               Server.uploadedAt := js "2025-01-01T00:00:00.000Z";
               Server.pdfType := js "general" |}
  /\ Server.pdfType
       {| Server.filename := js "thesis.pdf";
          Server.uploadedAt := js "2025-01-01T00:00:00.000Z";
          Server.pdfType := js "general" |} = js "general".
Proof.
  assert (Hreach : Upload.reachable
            (snd (fst (Upload.upload Worlds.working ∅
                         (Some Worlds.thesis))))).
  { apply Upload.reachable_upload, Upload.reachable_empty. }
  assert (Hid : snd (fst (Upload.upload Worlds.working ∅
                            (Some Worlds.thesis)))
                  !! js "a7a7a7a7a7a7a7a7a7a7a7a7a7a7a7a7"
                = Some {| Server.filename := js "thesis.pdf";
                          Server.uploadedAt := js "2025-01-01T00:00:00.000Z";
                          Server.pdfType := js "general" |}).
  { vm_compute; reflexivity. }
  split; [exact Hreach|]. split; [exact Hid|].
  apply (uploaded_documents_are_general _ _ _ Hreach Hid).
Defined.

(** ** The worker *)

Section WorkerFacts.

Import Worker.

Variable services : Services.

Lemma failedProbes_S (failures : nat) :
  failedProbes (S failures) = [Listed; Waited 5000] ++ failedProbes failures.
Proof. reflexivity. Qed.

Lemma failedProbes_isProbe (failures : nat) :
  forallb isProbe (failedProbes failures) = true.
Proof.
  induction failures as [|failures IH]; [reflexivity|].
  rewrite failedProbes_S. cbn [app forallb isProbe andb]. exact IH.
Qed.

Lemma waited_app (a b : list event) : waited (a ++ b) = waited a + waited b.
Proof.
  induction a as [|e a IH]; [reflexivity|].
  cbn [app waited fold_right]. fold (waited (a ++ b)). fold (waited a).
  rewrite IH. destruct e; lia.
Qed.

Lemma waited_failedProbes (failures : nat) :
  waited (failedProbes failures) = 5000 * Z.of_nat failures.
Proof.
  induction failures as [|failures IH]; [reflexivity|].
  rewrite failedProbes_S, waited_app, IH.
  change (waited [Listed; Waited 5000]) with 5000. lia.
Qed.

Lemma checkQdrantLoop_cases (remaining : nat) (log0 : list event) :
  exists failures,
    ((failures < remaining)%nat
     /\ checkQdrantLoop services remaining log0
        = (Returned true, log0 ++ failedProbes failures ++ [Listed]))
    \/ (failures = remaining
        /\ checkQdrantLoop services remaining log0
           = (Thrown (js "Qdrant is not available after multiple attempts"),
              log0 ++ failedProbes failures)).
Proof.
  revert log0. induction remaining as [|remaining IH]; intros log0.
  - exists 0%nat. right. split; [reflexivity|].
    cbn [checkQdrantLoop]. unfold throw.
    change (failedProbes 0) with (@nil event). now rewrite app_nil_r.
  - cbn [checkQdrantLoop].
    destruct (getCollections services log0) as [collections|e].
    + exists 0%nat. left. split; [lia|reflexivity].
    + unfold bind, delay.
      destruct (IH ((log0 ++ [Listed]) ++ [Waited 5000]))
        as (failures & [[Hlt E]|[Heq E]]); exists (S failures).
      * left. split; [lia|]. rewrite E, failedProbes_S.
        now rewrite <- !app_assoc.
      * right. split; [lia|]. rewrite E, failedProbes_S.
        now rewrite <- !app_assoc.
Qed.

Lemma failedStores_S (batch : list jsstring) (c : jsstring)
    (first failures : nat) :
  failedStores batch c first (S failures)
  = [Stored batch c false; Waited (5000 * Z.of_nat first)]
    ++ failedStores batch c (S first) failures.
Proof. reflexivity. Qed.

Lemma storeBatch_cases (batch : list jsstring) (c : jsstring)
    (remaining : nat) :
  forall (fuel retries : nat) (log0 : list event),
    (0 < remaining)%nat ->
    (retries + remaining = maxRetries)%nat ->
    (remaining <= fuel)%nat ->
    exists failures,
      ((failures < remaining)%nat
       /\ storeBatch services fuel retries batch c log0
          = (Returned tt,
             log0 ++ failedStores batch c (S retries) failures
             ++ [Stored batch c true; Waited 2000]))
      \/ (S failures = remaining
          /\ exists e,
               storeBatch services fuel retries batch c log0
               = (Thrown e,
                  log0 ++ failedStores batch c (S retries) failures
                  ++ [Stored batch c false])).
Proof.
  induction remaining as [|remaining IH]; intros fuel retries log0 Hpos Hsum
    Hfuel; [lia|].
  destruct fuel as [|fuel]; [lia|]. cbn [storeBatch].
  assert (Hcond : (retries <? maxRetries)%nat = true)
    by (apply Nat.ltb_lt; lia).
  rewrite Hcond.
  destruct (fromDocuments services log0 batch c) as [u|e].
  - exists 0%nat. left. split; [lia|]. unfold delay.
    change (failedStores batch c (S retries) 0) with (@nil event).
    cbn [app]. now rewrite <- app_assoc.
  - cbv zeta. destruct (maxRetries <=? S retries)%nat eqn:Hlast.
    + apply Nat.leb_le in Hlast. exists 0%nat. right. split; [lia|].
      exists e. reflexivity.
    + apply Nat.leb_gt in Hlast. unfold bind, delay.
      destruct (IH fuel (S retries)
                  ((log0 ++ [Stored batch c false])
                   ++ [Waited (5000 * Z.of_nat (S retries))]))
        as (failures & [[Hlt E]|[Heq (e' & E)]]); try lia;
        exists (S failures).
      * left. split; [lia|]. rewrite E, failedStores_S.
        now rewrite <- !app_assoc.
      * right. split; [lia|]. exists e'. rewrite E, failedStores_S.
        now rewrite <- !app_assoc.
Qed.

Lemma storedBatches_app (a b : list event) :
  storedBatches (a ++ b) = storedBatches a ++ storedBatches b.
Proof. apply flat_map_app. Qed.

Lemma storedBatches_failedStores (batch : list jsstring) (c : jsstring)
    (failures first : nat) :
  storedBatches (failedStores batch c first failures) = [].
Proof.
  revert first. induction failures as [|failures IH]; intros first;
    [reflexivity|].
  rewrite failedStores_S, storedBatches_app, IH. reflexivity.
Qed.

Lemma storedBatches_none (log : list event) :
  forallb (fun e => negb (isStore e)) log = true -> storedBatches log = [].
Proof.
  induction log as [|e log IH]; [reflexivity|].
  cbn [forallb]. intros H. apply andb_prop in H as [He H].
  change (e :: log) with ([e] ++ log).
  rewrite storedBatches_app, (IH H). destruct e; try reflexivity.
  discriminate He.
Qed.

Lemma storeAttempts_app (a b : list event) :
  storeAttempts (a ++ b) = (storeAttempts a + storeAttempts b)%nat.
Proof.
  unfold storeAttempts. now rewrite List.filter_app, length_app.
Qed.

Lemma storeAttempts_failedStores (batch : list jsstring) (c : jsstring)
    (failures first : nat) :
  storeAttempts (failedStores batch c first failures) = failures.
Proof.
  revert first. induction failures as [|failures IH]; intros first;
    [reflexivity|].
  rewrite failedStores_S, storeAttempts_app, IH. reflexivity.
Qed.

Lemma waited_failedStores (batch : list jsstring) (c : jsstring)
    (failures first : nat) :
  2 * waited (failedStores batch c first failures)
  = 5000 * Z.of_nat failures
    * (2 * Z.of_nat first + Z.of_nat failures - 1).
Proof.
  revert first. induction failures as [|failures IH]; intros first;
    [reflexivity|].
  rewrite failedStores_S, waited_app, Z.mul_add_distr_l, IH.
  assert (E : waited [Stored batch c false; Waited (5000 * Z.of_nat first)]
              = 5000 * Z.of_nat first + 0) by reflexivity.
  rewrite E. nia.
Qed.

(** One batch: what the log keeps of it. *)
Lemma storeBatch_stored (batch : list jsstring) (c : jsstring)
    (log0 : list event) :
  exists log,
    (storeBatch services maxRetries 0 batch c log0
     = (Returned tt, log0 ++ log)
     /\ storedBatches log = [batch])
    \/ (exists e,
          storeBatch services maxRetries 0 batch c log0
          = (Thrown e, log0 ++ log)
          /\ storedBatches log = []).
Proof.
  destruct (storeBatch_cases batch c maxRetries maxRetries 0 log0)
    as (failures & [[Hlt E]|[Heq (e & E)]]);
    try (unfold maxRetries; lia).
  - eexists. left. split; [exact E|].
    now rewrite storedBatches_app, storedBatches_failedStores.
  - eexists. right. exists e. split; [exact E|].
    now rewrite storedBatches_app, storedBatches_failedStores.
Qed.

Lemma slice_batch (i : nat) (chunks : list jsstring) :
  slice i (i + batchSize) chunks = firstn batchSize (skipn i chunks).
Proof. unfold slice. f_equal. lia. Qed.

Lemma storeFrom_cases (chunks : list jsstring) (c : jsstring) (fuel : nat) :
  forall (i : nat) (log0 : list event),
    (length chunks - i <= fuel)%nat ->
    exists log,
      (storeFrom services fuel i chunks c log0 = (Returned tt, log0 ++ log)
       /\ concat (storedBatches log) = skipn i chunks
       /\ List.Forall (fun b => (1 <= length b <= batchSize)%nat)
            (storedBatches log))
      \/ (exists e rest,
            storeFrom services fuel i chunks c log0
            = (Thrown e, log0 ++ log)
            /\ concat (storedBatches log) ++ rest = skipn i chunks
            /\ rest <> []
            /\ List.Forall (fun b => length b = batchSize)
                 (storedBatches log)).
Proof.
  assert (Hdone : forall i log0,
            (length chunks <= i)%nat ->
            exists log : list event,
              ((@Returned unit tt, log0) = (Returned tt, log0 ++ log)
               /\ concat (storedBatches log) = skipn i chunks
               /\ List.Forall (fun b => (1 <= length b <= batchSize)%nat)
                    (storedBatches log))).
  { intros i log0 Hi. exists []. rewrite app_nil_r.
    split; [reflexivity|]. split; [|constructor].
    symmetry. apply skipn_all2. exact Hi. }
  induction fuel as [|fuel IH]; intros i log0 Hfuel.
  - destruct (Hdone i log0 ltac:(lia)) as (log & H). exists log. left.
    exact H.
  - cbn [storeFrom]. destruct (i <? length chunks)%nat eqn:Hi.
    2:{ apply Nat.ltb_ge in Hi.
        destruct (Hdone i log0 Hi) as (log & H). exists log. left.
        exact H. }
    apply Nat.ltb_lt in Hi. rewrite slice_batch. unfold bind.
    set (rest := skipn i chunks).
    assert (Hrest : length rest = (length chunks - i)%nat)
      by apply length_skipn.
    assert (Hnext : skipn (i + batchSize) chunks = skipn batchSize rest).
    { unfold rest. rewrite skipn_skipn. f_equal. lia. }
    destruct (storeBatch_stored (firstn batchSize rest) c log0)
      as (log1 & [[E1 S1]|(e & E1 & S1)]); rewrite E1.
    + destruct (IH (i + batchSize)%nat (log0 ++ log1))
        as (log2 & [(E2 & C2 & F2)|(e & tail & E2 & C2 & Hne & F2)]).
      { unfold batchSize. lia. }
      * exists (log1 ++ log2). left. rewrite E2, app_assoc.
        split; [reflexivity|]. rewrite storedBatches_app, S1.
        cbn [app concat]. rewrite C2, Hnext.
        split; [apply firstn_skipn|]. constructor; [|exact F2].
        rewrite length_firstn, Hrest. unfold batchSize. lia.
      * exists (log1 ++ log2). right. exists e, tail.
        rewrite E2, app_assoc. split; [reflexivity|].
        rewrite storedBatches_app, S1. cbn [app concat].
        rewrite <- app_assoc, C2, Hnext. split; [apply firstn_skipn|].
        split; [exact Hne|]. constructor; [|exact F2].
        assert (Hlen : (0 < length (skipn batchSize rest))%nat).
        { rewrite <- Hnext, <- C2, length_app.
          destruct tail; [congruence|]. cbn [length]. lia. }
        rewrite length_skipn in Hlen. rewrite length_firstn. lia.
    + exists log1. right. exists e, rest. split; [reflexivity|].
      rewrite S1. split; [reflexivity|]. split; [|constructor].
      intros Hnil. rewrite Hnil in Hrest. cbn [length] in Hrest. lia.
Qed.

Lemma storesInto_app (c : jsstring) (a b : list event) :
  storesInto c a -> storesInto c b -> storesInto c (a ++ b).
Proof.
  intros Ha Hb batch c' ok Hin. apply in_app_or in Hin as [Hin|Hin];
    [apply (Ha _ _ _ Hin)|apply (Hb _ _ _ Hin)].
Qed.

Lemma storesInto_none (c : jsstring) (log : list event) :
  forallb (fun e => negb (isStore e)) log = true -> storesInto c log.
Proof.
  intros H batch c' ok Hin.
  rewrite forallb_forall in H. specialize (H _ Hin). discriminate H.
Qed.

Lemma failedStores_storesInto (batch : list jsstring) (c : jsstring)
    (failures first : nat) :
  storesInto c (failedStores batch c first failures).
Proof.
  revert first. induction failures as [|failures IH]; intros first.
  - intros b c' ok [].
  - rewrite failedStores_S. apply storesInto_app; [|apply IH].
    intros b c' ok [H|[H|[]]]; [|discriminate H].
    injection H as _ <- _. reflexivity.
Qed.

Lemma storeBatch_storesInto (batch : list jsstring) (c : jsstring)
    (log0 : list event) :
  exists r log,
    storeBatch services maxRetries 0 batch c log0 = (r, log0 ++ log)
    /\ storesInto c log.
Proof.
  destruct (storeBatch_cases batch c maxRetries maxRetries 0 log0)
    as (failures & [[Hlt E]|[Heq (e & E)]]);
    try (unfold maxRetries; lia);
    eexists; eexists; (split; [exact E|]);
    (apply storesInto_app; [apply failedStores_storesInto|]).
  - intros b c' ok [H|[H|[]]]; [|discriminate H].
    injection H as _ <- _. reflexivity.
  - intros b c' ok [H|[]]. injection H as _ <- _. reflexivity.
Qed.

Lemma storeFrom_storesInto (chunks : list jsstring) (c : jsstring)
    (fuel : nat) :
  forall (i : nat) (log0 : list event),
  exists r log,
    storeFrom services fuel i chunks c log0 = (r, log0 ++ log)
    /\ storesInto c log.
Proof.
  induction fuel as [|fuel IH]; intros i log0.
  - exists (Returned tt), []. rewrite app_nil_r. split; [reflexivity|].
    intros b c' ok [].
  - cbn [storeFrom]. destruct (i <? length chunks)%nat.
    2:{ exists (Returned tt), []. rewrite app_nil_r. split; [reflexivity|].
        intros b c' ok []. }
    unfold bind.
    destruct (storeBatch_storesInto (slice i (i + batchSize) chunks) c log0)
      as (r1 & log1 & E1 & S1). rewrite E1. destruct r1 as [u|e].
    + destruct (IH (i + batchSize)%nat (log0 ++ log1))
        as (r2 & log2 & E2 & S2).
      exists r2, (log1 ++ log2). rewrite E2, app_assoc.
      split; [reflexivity|]. apply storesInto_app; assumption.
    + exists (Thrown e), log1. split; [reflexivity|exact S1].
Qed.

Lemma storeBatch_succeeds (fuel : nat) (batch : list jsstring)
    (c : jsstring) (log0 : list event) :
  fromDocuments services log0 batch c = Returned tt ->
  storeBatch services (S fuel) 0 batch c log0
  = (Returned tt, log0 ++ [Stored batch c true; Waited 2000]).
Proof.
  intros H. cbn [storeBatch].
  change (0 <? maxRetries)%nat with true. cbv beta iota. rewrite H.
  unfold delay. now rewrite <- app_assoc.
Qed.

Lemma storeBatch_first_try (batch : list jsstring) (c : jsstring)
    (log0 : list event) :
  fromDocuments services log0 batch c = Returned tt ->
  storeBatch services maxRetries 0 batch c log0
  = (Returned tt, log0 ++ [Stored batch c true; Waited 2000]).
Proof. exact (storeBatch_succeeds 9 batch c log0). Qed.

(** When the store never fails, each batch takes one attempt. *)
Lemma storeFrom_steady (chunks : list jsstring) (c : jsstring) (fuel : nat) :
  (forall log batch, fromDocuments services log batch c = Returned tt) ->
  forall (i : nat) (log0 : list event),
  exists log,
    storeFrom services fuel i chunks c log0 = (Returned tt, log0 ++ log)
    /\ storeAttempts log = length (storedBatches log)
    /\ waited log = 2000 * Z.of_nat (length (storedBatches log)).
Proof.
  intros Hok. induction fuel as [|fuel IH]; intros i log0.
  - exists []. rewrite app_nil_r. repeat split.
  - cbn [storeFrom]. destruct (i <? length chunks)%nat.
    2:{ exists []. rewrite app_nil_r. repeat split. }
    unfold bind. rewrite (storeBatch_first_try _ _ _ (Hok _ _)).
    destruct (IH (i + batchSize)%nat
                (log0 ++ [Stored (slice i (i + batchSize) chunks) c true;
                          Waited 2000])) as (log & E & Ha & Hw).
    exists ([Stored (slice i (i + batchSize) chunks) c true; Waited 2000]
            ++ log).
    rewrite E. split; [now rewrite <- !app_assoc|].
    rewrite storeAttempts_app, storedBatches_app, length_app, waited_app,
      Ha, Hw.
    split; [reflexivity|].
    change (waited [Stored (slice i (i + batchSize) chunks) c true;
                    Waited 2000]) with 2000.
    change (length
              (storedBatches
                 [Stored (slice i (i + batchSize) chunks) c true;
                  Waited 2000])) with 1%nat.
    lia.
Qed.

Lemma cleanupLoop_cases (current : jsstring) (oneDayAgo : Z)
    (collections : list Collection) :
  forall log0 : list event,
  exists r log,
    cleanupLoop services current oneDayAgo collections log0
    = (r, log0 ++ log)
    /\ forallb (fun e => negb (isStore e)) log = true
    /\ forall n,
         In (Deleted n) log ->
         exists collection,
           In collection collections /\ name collection = n
           /\ unused current oneDayAgo collection.
Proof.
  induction collections as [|collection collections IH]; intros log0.
  - exists (Returned tt), []. rewrite app_nil_r. split; [reflexivity|].
    split; [reflexivity|]. intros n [].
  - assert (Hskip : exists r log,
              cleanupLoop services current oneDayAgo collections log0
              = (r, log0 ++ log)
              /\ forallb (fun e => negb (isStore e)) log = true
              /\ forall n,
                   In (Deleted n) log ->
                   exists c,
                     In c (collection :: collections) /\ name c = n
                     /\ unused current oneDayAgo c).
    { destruct (IH log0) as (r & log & E & Hs & Hd).
      exists r, log. split; [exact E|]. split; [exact Hs|].
      intros n Hn. destruct (Hd n Hn) as (c & Hc & H).
      exists c. split; [apply in_cons, Hc|exact H]. }
    cbn [cleanupLoop].
    destruct (str_eqb (name collection) current
              || startsWith (name collection) (js ".")) eqn:Hcond;
      [exact Hskip|].
    apply orb_false_iff in Hcond as [Hne Hdot].
    destruct (creation_time collection) as [t|] eqn:Ht; [|exact Hskip].
    destruct (negb (t =? 0) && (t <? oneDayAgo)) eqn:Hold; [|exact Hskip].
    apply andb_prop in Hold as [Hnz Hlt].
    apply negb_true_iff, Z.eqb_neq in Hnz. apply Z.ltb_lt in Hlt.
    assert (Hunused : unused current oneDayAgo collection).
    { split.
      - intros Heq. apply str_eqb_eq in Heq. congruence.
      - split; [exact Hdot|]. exists t. repeat split; assumption. }
    destruct (deleteCollection services log0 (name collection)) as [u|e].
    + unfold bind, delay.
      destruct (IH ((log0 ++ [Deleted (name collection)])
                    ++ [Waited 1000])) as (r & log & E & Hs & Hd).
      exists r, ([Deleted (name collection); Waited 1000] ++ log).
      rewrite E. split; [now rewrite <- !app_assoc|].
      split; [exact Hs|].
      intros n [Hn|[Hn|Hn]]; [|discriminate Hn|].
      * injection Hn as <-. exists collection.
        split; [apply in_eq|]. split; [reflexivity|exact Hunused].
      * destruct (Hd n Hn) as (c & Hc & H).
        exists c. split; [apply in_cons, Hc|exact H].
    + exists (Thrown e), [Deleted (name collection)].
      split; [reflexivity|]. split; [reflexivity|].
      intros n [Hn|[]]. injection Hn as <-. exists collection.
      split; [apply in_eq|]. split; [reflexivity|exact Hunused].
Qed.

Lemma cleanupLoop_deletes (current : jsstring) (oneDayAgo : Z)
    (collections : list Collection) :
  (forall log n, deleteCollection services log n = Returned tt) ->
  forall log0 : list event,
  exists log,
    cleanupLoop services current oneDayAgo collections log0
    = (Returned tt, log0 ++ log)
    /\ forall collection,
         In collection collections ->
         unused current oneDayAgo collection ->
         In (Deleted (name collection)) log.
Proof.
  intros Hok.
  induction collections as [|collection collections IH]; intros log0.
  - exists []. rewrite app_nil_r. split; [reflexivity|]. intros c [].
  - cbn [cleanupLoop].
    destruct (str_eqb (name collection) current
              || startsWith (name collection) (js ".")) eqn:Hcond.
    { destruct (IH log0) as (log & E & Hd). exists log. split; [exact E|].
      intros c [<-|Hc] Hunused; [|apply (Hd c Hc Hunused)].
      destruct Hunused as (Hne & Hdot & _).
      apply orb_true_iff in Hcond as [Heq|Hdot'];
        [apply str_eqb_eq in Heq|]; congruence. }
    destruct (creation_time collection) as [t|] eqn:Ht.
    2:{ destruct (IH log0) as (log & E & Hd). exists log. split; [exact E|].
        intros c [<-|Hc] Hunused; [|apply (Hd c Hc Hunused)].
        destruct Hunused as (_ & _ & t & Ht' & _). congruence. }
    destruct (negb (t =? 0) && (t <? oneDayAgo)) eqn:Hold.
    2:{ destruct (IH log0) as (log & E & Hd). exists log. split; [exact E|].
        intros c [<-|Hc] Hunused; [|apply (Hd c Hc Hunused)].
        destruct Hunused as (_ & _ & t' & Ht' & Hnz & Hlt).
        assert (t' = t) as -> by congruence.
        apply andb_false_iff in Hold as [Hold|Hold].
        - apply negb_false_iff, Z.eqb_eq in Hold. contradiction.
        - apply Z.ltb_ge in Hold. lia. }
    rewrite Hok. unfold bind, delay.
    destruct (IH ((log0 ++ [Deleted (name collection)]) ++ [Waited 1000]))
      as (log & E & Hd).
    exists ([Deleted (name collection); Waited 1000] ++ log).
    rewrite E. split; [now rewrite <- !app_assoc|].
    intros c [<-|Hc] Hunused; [apply in_eq|].
    apply in_cons, in_cons, (Hd c Hc Hunused).
Qed.

Lemma cleanupUnusedCollections_cases (current : jsstring)
    (log0 : list event) :
  exists log,
    cleanupUnusedCollections services current log0
    = (Returned tt, log0 ++ log)
    /\ forallb (fun e => negb (isStore e)) log = true
    /\ forall n,
         In (Deleted n) log ->
         exists collections collection,
           getCollections services log0 = Returned collections
           /\ In collection collections /\ name collection = n
           /\ unused current (dateNow services - 86400000) collection.
Proof.
  unfold cleanupUnusedCollections, tryCatch.
  destruct (getCollections services log0) as [collections|e].
  - cbv zeta.
    change (24 * 60 * 60 * 1000) with 86400000.
    destruct (cleanupLoop_cases current (dateNow services - 86400000)
                collections (log0 ++ [Listed]))
      as (r & log & E & Hs & Hd).
    rewrite E. exists ([Listed] ++ log).
    split; [destruct r as [[]|e]; unfold ret; now rewrite <- app_assoc|].
    split; [exact Hs|].
    intros n [Hn|Hn]; [discriminate Hn|].
    destruct (Hd n Hn) as (c & Hc & H). exists collections, c.
    split; [reflexivity|]. split; [exact Hc|exact H].
  - exists [Listed]. split; [reflexivity|]. split; [reflexivity|].
    intros n [Hn|[]]. discriminate Hn.
Qed.

End WorkerFacts.

(** The probes of [checkQdrantLoop] one by one: the k-th of them sees the
    log after k failed probes and their waits. *)
Lemma checkQdrantLoop_trace (services : Worker.Services) (remaining : nat) :
  forall log0 : list Worker.event,
  exists failures,
    (forall k, (k < failures)%nat ->
       exists e,
         Worker.getCollections services (log0 ++ Worker.failedProbes k)
         = Thrown e)
    /\ (((failures < remaining)%nat
         /\ (exists collections,
               Worker.getCollections services
                 (log0 ++ Worker.failedProbes failures)
               = Returned collections)
         /\ Worker.checkQdrantLoop services remaining log0
            = (Returned true,
               log0 ++ Worker.failedProbes failures ++ [Worker.Listed]))
        \/ (failures = remaining
            /\ Worker.checkQdrantLoop services remaining log0
               = (Thrown
                    (js "Qdrant is not available after multiple attempts"),
                  log0 ++ Worker.failedProbes failures))).
Proof.
  induction remaining as [|remaining IH]; intros log0.
  - exists 0%nat. split; [intros k Hk; lia|]. right. split; [reflexivity|].
    cbn [Worker.checkQdrantLoop]. unfold Worker.throw.
    change (Worker.failedProbes 0) with (@nil Worker.event).
    now rewrite app_nil_r.
  - cbn [Worker.checkQdrantLoop].
    destruct (Worker.getCollections services log0) as [collections|e]
      eqn:Hprobe.
    + exists 0%nat. split; [intros k Hk; lia|]. left. split; [lia|].
      change (Worker.failedProbes 0) with (@nil Worker.event).
      rewrite app_nil_r. split; [exists collections; exact Hprobe|].
      reflexivity.
    + unfold Worker.bind, Worker.delay.
      assert (Hshift : forall k,
                ((log0 ++ [Worker.Listed]) ++ [Worker.Waited 5000])
                ++ Worker.failedProbes k
                = log0 ++ Worker.failedProbes (S k)).
      { intros k. rewrite failedProbes_S. now rewrite <- !app_assoc. }
      destruct (IH ((log0 ++ [Worker.Listed]) ++ [Worker.Waited 5000]))
        as (failures & Hfailed & Hend).
      exists (S failures). split.
      * intros [|k] Hk.
        -- exists e. change (Worker.failedProbes 0) with (@nil Worker.event).
           rewrite app_nil_r. exact Hprobe.
        -- destruct (Hfailed k ltac:(lia)) as (e' & He').
           exists e'. rewrite <- Hshift. exact He'.
      * destruct Hend as [(Hlt & (collections & Hok) & E)|(Heq & E)].
        -- left. split; [lia|]. split.
           ++ exists collections. rewrite <- Hshift. exact Hok.
           ++ rewrite E, failedProbes_S. now rewrite <- !app_assoc.
        -- right. split; [lia|]. rewrite E, failedProbes_S.
           now rewrite <- !app_assoc.
Qed.

(** X20.  [checkQdrantAvailability] probes the store at most [maxRetries]
    times and waits five seconds after each probe that failed.  It returns
    [true] at the first probe that the store answers, every probe before it
    having thrown; and it throws only when [maxRetries] probes in a row have
    thrown, having waited after the last one too. *)
Theorem checkQdrantAvailability_probes (services : Worker.Services)
    (maxRetries : nat) (log0 : list Worker.event) :
  exists failures,
    (forall k, (k < failures)%nat ->
       exists e,
         Worker.getCollections services (log0 ++ Worker.failedProbes k)
         = Thrown e)
    /\ (((failures < maxRetries)%nat
         /\ (exists collections,
               Worker.getCollections services
                 (log0 ++ Worker.failedProbes failures)
               = Returned collections)
         /\ Worker.checkQdrantAvailability services maxRetries log0
            = (Returned true,
               log0 ++ Worker.failedProbes failures ++ [Worker.Listed]))
        \/ (failures = maxRetries
            /\ Worker.checkQdrantAvailability services maxRetries log0
               = (Thrown
                    (js "Qdrant is not available after multiple attempts"),
                  log0 ++ Worker.failedProbes failures)
            /\ Worker.waited (Worker.failedProbes failures)
               = 5000 * Z.of_nat maxRetries)).
Proof.
  destruct (checkQdrantLoop_trace services maxRetries log0)
    as (failures & Hfailed & Hend).
  exists failures. split; [exact Hfailed|].
  destruct Hend as [(Hlt & Hok & E)|(Heq & E)].
  - left. split; [exact Hlt|]. split; [exact Hok|exact E].
  - right. split; [exact Heq|]. split; [exact E|].
    rewrite waited_failedProbes, Heq. reflexivity.
Qed.

(** X21.  The loop that stores one batch tries at most ten times.  After
    the k-th failure it waits 5000 * k milliseconds, so that the waits grow
    by five seconds each time; the tenth failure is thrown at once.  A
    success is followed by a wait of two seconds.  Ten turns of the loop are
    enough: more fuel changes nothing. *)
Theorem storeBatch_gives_up_after_ten (services : Worker.Services)
    (batch : list jsstring) (c : jsstring) (extra : nat)
    (log0 : list Worker.event) :
  exists failures,
    ((failures < 10)%nat
     /\ Worker.storeBatch services (Worker.maxRetries + extra) 0 batch c log0
        = (Returned tt,
           log0 ++ Worker.failedStores batch c 1 failures
           ++ [Worker.Stored batch c true; Worker.Waited 2000]))
    \/ (failures = 9%nat
        /\ exists e,
             Worker.storeBatch services (Worker.maxRetries + extra) 0 batch
               c log0
             = (Thrown e,
                log0 ++ Worker.failedStores batch c 1 failures
                ++ [Worker.Stored batch c false])).
Proof.
  destruct (storeBatch_cases services batch c Worker.maxRetries
              (Worker.maxRetries + extra) 0 log0)
    as (failures & [[Hlt E]|[Heq (e & E)]]);
    try (unfold Worker.maxRetries; lia); exists failures.
  - left. split; [exact Hlt|exact E].
  - right. split; [unfold Worker.maxRetries in Heq; lia|].
    exists e. exact E.
Qed.

(** X22.  Storing one batch takes between one and ten attempts and at most
    227 seconds of waiting; when it throws, ten attempts were made and 225
    seconds were spent waiting between them. *)
Theorem storeBatch_bounded (services : Worker.Services)
    (batch : list jsstring) (c : jsstring) (log0 : list Worker.event) :
  exists r log,
    Worker.storeBatch services Worker.maxRetries 0 batch c log0
    = (r, log0 ++ log)
    /\ (1 <= Worker.storeAttempts log <= 10)%nat
    /\ 0 <= Worker.waited log <= 227000
    /\ (forall e, r = Thrown e ->
        Worker.storeAttempts log = 10%nat /\ Worker.waited log = 225000).
Proof.
  destruct (storeBatch_cases services batch c Worker.maxRetries
              Worker.maxRetries 0 log0)
    as (failures & [[Hlt E]|[Heq (e & E)]]);
    try (unfold Worker.maxRetries; lia);
    unfold Worker.maxRetries in *;
    pose proof (waited_failedStores batch c failures 1) as Hw;
    eexists; eexists; (split; [exact E|]);
    rewrite storeAttempts_app, waited_app, storeAttempts_failedStores.
  - change (Worker.storeAttempts
              [Worker.Stored batch c true; Worker.Waited 2000]) with 1%nat.
    change (Worker.waited
              [Worker.Stored batch c true; Worker.Waited 2000]) with 2000.
    split; [lia|]. split; [nia|]. intros e He. discriminate He.
  - change (Worker.storeAttempts [Worker.Stored batch c false]) with 1%nat.
    change (Worker.waited [Worker.Stored batch c false]) with 0.
    assert (failures = 9%nat) as -> by lia.
    change (Z.of_nat 9) with 9 in Hw. change (Z.of_nat 1) with 1 in Hw.
    split; [lia|]. split; [lia|]. intros e' _. split; [reflexivity|lia].
Qed.

(** X23.  The loop over the batches stores every chunk once and in order,
    in batches of one to twenty chunks, all in the collection of the file.
    When a batch fails for good the loop throws: the batches stored until
    then are full ones and make a proper prefix of the chunks. *)
Theorem storeAll_each_chunk_once (services : Worker.Services)
    (chunks : list jsstring) (c : jsstring) (log0 : list Worker.event) :
  exists log,
    Worker.storesInto c log
    /\ ((Worker.storeAll services chunks c log0 = (Returned tt, log0 ++ log)
         /\ concat (Worker.storedBatches log) = chunks
         /\ List.Forall (fun b => (1 <= length b <= 20)%nat)
              (Worker.storedBatches log))
        \/ (exists e rest,
              Worker.storeAll services chunks c log0
              = (Thrown e, log0 ++ log)
              /\ concat (Worker.storedBatches log) ++ rest = chunks
              /\ rest <> []
              /\ List.Forall (fun b => length b = 20%nat)
                   (Worker.storedBatches log))).
Proof.
  unfold Worker.storeAll.
  destruct (storeFrom_storesInto services chunks c (length chunks) 0 log0)
    as (r & log' & E' & Hinto).
  destruct (storeFrom_cases services chunks c (length chunks) 0 log0)
    as (log & H); [lia|].
  assert (Hlog : log = log').
  { destruct H as [(E & _)|(e & rest & E & _)]; rewrite E in E';
      injection E' as _ E'; apply (app_inv_head _ _ _ E'). }
  subst log'. exists log. split; [exact Hinto|exact H].
Qed.

(** X24.  [cleanupUnusedCollections] never throws, whatever the store
    answers, and it asks to delete only collections of the listing that are
    not the current one, whose name does not start with a dot and whose
    creation time is set and more than a day old. *)
Theorem cleanup_never_throws (services : Worker.Services)
    (current : jsstring) (log0 : list Worker.event) :
  exists log,
    Worker.cleanupUnusedCollections services current log0
    = (Returned tt, log0 ++ log)
    /\ Worker.storedBatches log = []
    /\ forall n,
         In (Worker.Deleted n) log ->
         exists collections collection,
           Worker.getCollections services log0 = Returned collections
           /\ In collection collections
           /\ Worker.name collection = n
           /\ Worker.unused current (Worker.dateNow services - 86400000)
                collection.
Proof.
  destruct (cleanupUnusedCollections_cases services current log0)
    as (log & E & Hs & Hd).
  exists log. split; [exact E|]. split; [|exact Hd].
  apply storedBatches_none, Hs.
Qed.

(** X25.  When deletions succeed, the clean-up after a job asks to delete
    every listed collection of another file that is more than a day old:
    the worker of one file removes the vectors of the others. *)
Theorem cleanup_deletes_stale (services : Worker.Services)
    (current : jsstring) (log0 : list Worker.event)
    (collections : list Worker.Collection) (collection : Worker.Collection) :
  Worker.getCollections services log0 = Returned collections ->
  (forall log n, Worker.deleteCollection services log n = Returned tt) ->
  In collection collections ->
  Worker.unused current (Worker.dateNow services - 86400000) collection ->
  exists log,
    Worker.cleanupUnusedCollections services current log0
    = (Returned tt, log0 ++ log)
    /\ In (Worker.Deleted (Worker.name collection)) log.
Proof.
  intros Hlist Hok Hin Hunused.
  unfold Worker.cleanupUnusedCollections, Worker.tryCatch.
  rewrite Hlist. cbv zeta. change (24 * 60 * 60 * 1000) with 86400000.
  destruct (cleanupLoop_deletes services current
              (Worker.dateNow services - 86400000) collections Hok
              (log0 ++ [Worker.Listed])) as (log & E & Hd).
  rewrite E. exists ([Worker.Listed] ++ log).
  split; [now rewrite <- app_assoc|].
  apply in_cons, (Hd collection Hin Hunused).
Qed.

Lemma cleanup_deletes_stale_witness :
  exists log,
    Worker.cleanupUnusedCollections Runs.steady (js "a7a7") []
    = (Returned tt, [] ++ log)
    /\ In (Worker.Deleted (Worker.name Runs.stale)) log.
Proof.
  apply (cleanup_deletes_stale Runs.steady (js "a7a7") []
           [Runs.stale; Runs.fresh; Runs.internal; Runs.own] Runs.stale).
  - reflexivity.
  - intros log n. reflexivity.
  - apply in_eq.
  - split; [intros H; vm_compute in H; discriminate H|].
    split; [vm_compute; reflexivity|].
    exists 1600000000000. split; [reflexivity|].
    split; [intros H; discriminate H|vm_compute; reflexivity].
Defined.

(** X26.  A job whose data, path or file identifier is missing is refused
    with an error, and the worker does nothing for it but list the
    collections and wait; since it probes the store before it looks at the
    data, the refusal may come after five failed probes, as the error of
    the store. *)
Theorem processor_rejects_incomplete_job (services : Worker.Services)
    (job : option Worker.JobData) (log0 : list Worker.event) :
  (forall data,
     job = Some data ->
     Worker.path data = [] \/ Worker.pdfId data = []) ->
  exists e log,
    Worker.processor services job log0 = (Thrown e, log0 ++ log)
    /\ forallb Worker.isProbe log = true
    /\ (e = js "Job data is missing required fields"
        \/ e = js "Qdrant is not available after multiple attempts").
Proof.
  intros Hjob.
  unfold Worker.processor, Worker.tryCatch, Worker.bind,
    Worker.checkQdrantAvailability.
  destruct (checkQdrantLoop_cases services 5 log0)
    as (failures & [[Hlt E]|[Heq E]]); rewrite E.
  - exists (js "Job data is missing required fields"),
      (Worker.failedProbes failures ++ [Worker.Listed]).
    split.
    + destruct job as [data|]; [|reflexivity].
      destruct (Hjob data eq_refl) as [H|H]; rewrite H;
        [|destruct (Worker.path data)]; reflexivity.
    + split; [|left; reflexivity].
      rewrite forallb_app, failedProbes_isProbe. reflexivity.
  - exists (js "Qdrant is not available after multiple attempts"),
      (Worker.failedProbes failures).
    split; [reflexivity|]. split; [apply failedProbes_isProbe|].
    right. reflexivity.
Qed.

Lemma processor_rejects_incomplete_job_witness :
  exists e log,
    Worker.processor Runs.steady Runs.noPath [] = (Thrown e, [] ++ log)
    /\ forallb Worker.isProbe log = true
    /\ (e = js "Job data is missing required fields"
        \/ e = js "Qdrant is not available after multiple attempts").
Proof.
  apply (processor_rejects_incomplete_job Runs.steady Runs.noPath []).
  intros data H. injection H as <-. left. reflexivity.
Defined.

(** X27.  A job that the worker reports as done was a complete one, its
    file was loaded and split, and every chunk was stored once and in
    order, in the collection named by the identifier of the file; the
    result counts the chunks. *)
Theorem processor_done_stored_everything (services : Worker.Services)
    (job : option Worker.JobData) (log0 log : list Worker.event)
    (result : Worker.JobResult) :
  Worker.processor services job log0 = (Returned result, log) ->
  exists data docs chunks log',
    job = Some data
    /\ log = log0 ++ log'
    /\ Worker.load services (Worker.path data) = Returned docs
    /\ Worker.splitDocuments services docs = Returned chunks
    /\ result = {| Worker.success := true;
                   Worker.chunks := Z.of_nat (length chunks);
                   Worker.resultPdfId := Worker.pdfId data |}
    /\ concat (Worker.storedBatches log') = chunks
    /\ Worker.storesInto (Worker.pdfId data) log'.
Proof.
  unfold Worker.processor, Worker.tryCatch, Worker.bind,
    Worker.checkQdrantAvailability.
  destruct (checkQdrantLoop_cases services 5 log0)
    as (failures & [[Hlt E]|[Heq E]]); rewrite E; [|discriminate].
  destruct job as [data|]; [|discriminate].
  destruct (Worker.path data) as [|p0 p] eqn:Hpath; [discriminate|].
  destruct (Worker.pdfId data) as [|i0 i] eqn:Hid; [discriminate|].
  destruct (Worker.fileExists services (p0 :: p)); [|discriminate].
  cbn [negb]. cbv iota.
  destruct (Worker.load services (p0 :: p)) as [docs|e] eqn:Hload;
    [|discriminate].
  destruct docs as [|d0 docs]; [discriminate|].
  destruct (Worker.splitDocuments services (d0 :: docs)) as [chunks|e]
    eqn:Hsplit; [|discriminate].
  set (log1 := (log0 ++ Worker.failedProbes failures ++ [Worker.Listed])
               ++ [Worker.Loaded (p0 :: p); Worker.Split (d0 :: docs)]).
  destruct (storeFrom_storesInto services chunks (i0 :: i) (length chunks)
              0 log1) as (r & log2' & E2' & Hinto).
  destruct (storeFrom_cases services chunks (i0 :: i) (length chunks) 0 log1)
    as (log2 & [(E2 & C2 & _)|(e & rest & E2 & _)]); [lia| |];
    unfold Worker.storeAll; rewrite E2; [|discriminate].
  assert (log2' = log2) as ->.
  { rewrite E2 in E2'. injection E2' as _ E2'.
    symmetry. apply (app_inv_head _ _ _ E2'). }
  destruct (cleanupUnusedCollections_cases services (i0 :: i)
              (log1 ++ log2)) as (log3 & E3 & Hs3 & _).
  rewrite E3. unfold Worker.ret. intros H. injection H as <- <-.
  exists data, (d0 :: docs), chunks,
    ((Worker.failedProbes failures ++ [Worker.Listed])
     ++ [Worker.Loaded (p0 :: p); Worker.Split (d0 :: docs)]
     ++ log2 ++ log3).
  split; [reflexivity|]. split.
  { unfold log1. now rewrite <- !app_assoc. }
  rewrite Hpath, Hid. split; [exact Hload|]. split; [exact Hsplit|].
  split; [reflexivity|].
  assert (Hprobes : forallb (fun e => negb (Worker.isStore e))
                      (Worker.failedProbes failures ++ [Worker.Listed])
                    = true).
  { rewrite forallb_app. apply andb_true_intro. split; [|reflexivity].
    clear. induction failures as [|failures IH]; [reflexivity|].
    rewrite failedProbes_S. exact IH. }
  split.
  - rewrite (storedBatches_app (_ ++ _)), (storedBatches_none _ Hprobes),
      (storedBatches_app [_; _]), (storedBatches_app log2),
      (storedBatches_none _ Hs3), app_nil_r.
    exact C2.
  - apply storesInto_app; [apply storesInto_none, Hprobes|].
    apply storesInto_app; [apply storesInto_none; reflexivity|].
    apply storesInto_app; [exact Hinto|apply storesInto_none, Hs3].
Qed.

Lemma processor_done_stored_everything_witness :
  exists data docs chunks log',
    Runs.job = Some data
    /\ snd (Worker.processor Runs.steady Runs.job []) = [] ++ log'
    /\ Worker.load Runs.steady (Worker.path data) = Returned docs
    /\ Worker.splitDocuments Runs.steady docs = Returned chunks
    /\ {| Worker.success := true;
          Worker.chunks := 4;
          Worker.resultPdfId := js "a7a7" |}
       = {| Worker.success := true;
            Worker.chunks := Z.of_nat (length chunks);
            Worker.resultPdfId := Worker.pdfId data |}
    /\ concat (Worker.storedBatches log') = chunks
    /\ Worker.storesInto (Worker.pdfId data) log'.
Proof.
  apply (processor_done_stored_everything Runs.steady Runs.job []).
  vm_compute; reflexivity.
Defined.

Lemma checkQdrantLoop_first (services : Worker.Services) (remaining : nat)
    (log0 : list Worker.event) (collections : list Worker.Collection) :
  Worker.getCollections services log0 = Returned collections ->
  Worker.checkQdrantLoop services (S remaining) log0
  = (Returned true, log0 ++ [Worker.Listed]).
Proof. intros H. cbn [Worker.checkQdrantLoop]. now rewrite H. Qed.

Lemma storeAttempts_none (log : list Worker.event) :
  forallb (fun e => negb (Worker.isStore e)) log = true ->
  Worker.storeAttempts log = 0%nat.
Proof.
  unfold Worker.storeAttempts.
  induction log as [|e log IH]; [reflexivity|].
  cbn [forallb List.filter]. intros H. apply andb_prop in H as [He H].
  apply negb_true_iff in He. rewrite He. apply (IH H).
Qed.

(** X28.  A complete job whose file exists, loads into at least one page
    and splits is done as soon as the first probe of the store is answered
    and no store of a batch fails: the worker returns the count of the
    chunks, and every batch took one attempt.  What the clean-up meets does
    not matter. *)
Theorem processor_completes (services : Worker.Services)
    (data : Worker.JobData) (collections : list Worker.Collection)
    (docs chunks : list jsstring) (log0 : list Worker.event) :
  Worker.path data <> [] ->
  Worker.pdfId data <> [] ->
  Worker.getCollections services log0 = Returned collections ->
  Worker.existsSync services (Worker.path data) = Returned true ->
  Worker.load services (Worker.path data) = Returned docs ->
  docs <> [] ->
  Worker.splitDocuments services docs = Returned chunks ->
  (forall log batch,
     Worker.fromDocuments services log batch (Worker.pdfId data)
     = Returned tt) ->
  exists log,
    Worker.processor services (Some data) log0
    = (Returned {| Worker.success := true;
                   Worker.chunks := Z.of_nat (length chunks);
                   Worker.resultPdfId := Worker.pdfId data |},
       log0 ++ log)
    /\ Worker.storeAttempts log = length (Worker.storedBatches log).
Proof.
  intros Hpath Hid Hprobe Hexists Hload Hdocs Hsplit Hstore.
  unfold Worker.processor, Worker.tryCatch, Worker.bind,
    Worker.checkQdrantAvailability.
  rewrite (checkQdrantLoop_first services 4 log0 collections Hprobe).
  unfold Worker.fileExists. rewrite Hexists, Hload.
  destruct (Worker.path data) as [|p0 p] eqn:Epath; [congruence|].
  destruct (Worker.pdfId data) as [|i0 i] eqn:Eid; [congruence|].
  cbn [negb]. cbv iota.
  destruct docs as [|d0 docs]; [congruence|]. rewrite Hsplit.
  unfold Worker.storeAll.
  destruct (storeFrom_steady services chunks (i0 :: i) (length chunks)
              Hstore 0%nat
              ((log0 ++ [Worker.Listed])
               ++ [Worker.Loaded (p0 :: p); Worker.Split (d0 :: docs)]))
    as (log2 & E2 & Ha & _).
  rewrite E2.
  destruct (cleanupUnusedCollections_cases services (i0 :: i)
              (((log0 ++ [Worker.Listed])
                ++ [Worker.Loaded (p0 :: p); Worker.Split (d0 :: docs)])
               ++ log2)) as (log3 & E3 & Hs3 & _).
  rewrite E3. unfold Worker.ret.
  exists ([Worker.Listed; Worker.Loaded (p0 :: p);
           Worker.Split (d0 :: docs)] ++ log2 ++ log3).
  split; [now rewrite <- !app_assoc|].
  rewrite (storeAttempts_app [_; _; _]), (storedBatches_app [_; _; _]),
    storeAttempts_app, storedBatches_app, Ha, (storeAttempts_none _ Hs3),
    (storedBatches_none _ Hs3), !length_app.
  reflexivity.
Qed.

Lemma processor_completes_witness :
  exists log,
    Worker.processor Runs.steady
      (Some {| Worker.path := js "uploads/thesis.pdf";
               Worker.pdfId := js "a7a7" |}) []
    = (Returned {| Worker.success := true;
                   Worker.chunks :=
                     Z.of_nat
                       (length [js "page one"; js "page two";
                                js "page one"; js "page two"]);
                   Worker.resultPdfId := js "a7a7" |},
       [] ++ log)
    /\ Worker.storeAttempts log = length (Worker.storedBatches log).
Proof.
  apply (processor_completes Runs.steady
           {| Worker.path := js "uploads/thesis.pdf";
              Worker.pdfId := js "a7a7" |}
           [Runs.stale; Runs.fresh; Runs.internal; Runs.own]
           [js "page one"; js "page two"]
           [js "page one"; js "page two"; js "page one"; js "page two"] []).
  - intros H; vm_compute in H; discriminate H.
  - intros H; vm_compute in H; discriminate H.
  - reflexivity.
  - reflexivity.
  - reflexivity.
  - intros H; discriminate H.
  - reflexivity.
  - intros log batch. reflexivity.
Defined.

(** ** The front end and the chat endpoint *)

(** X29.  What the chat component posts always carries a query and a
    document id, the query being the typed message as it is; so the
    endpoint never answers it with status 400 when the document is
    registered, and for a message that is small talk it answers at once,
    whatever the depth. *)
Theorem posted_request_is_accepted
    (toLowerCase : jsstring -> jsstring) (env : Env)
    (pdfCollections : gmap jsstring Server.PdfData)
    (component : Client.Component) (req : ChatRequest)
    (data : Server.PdfData) :
  Client.posted toLowerCase component = Some req ->
  pdfCollections !! Client.currentPdfId component = Some data ->
  query req = Client.inputMessage component
  /\ pdfId req = Client.currentPdfId component
  /\ (forall error,
        fst (run (Server.chat toLowerCase env pdfCollections req))
        <> Returned (Status400 error))
  /\ (isSmallTalk (Client.inputMessage component) = true ->
      run (Server.chat toLowerCase env pdfCollections req)
      = (Returned
           (Status200
              {| payloadQuery := Client.inputMessage component;
                 results :=
                   Server.getSmallTalkResponse toLowerCase
                     (Client.inputMessage component);
                 pageReferences := [];
                 count := 0 |}), [])).
Proof.
  unfold Client.posted. intros Hposted Hpdf.
  destruct (trim (Client.inputMessage component)) as [|c0 t] eqn:Htrim;
    [discriminate Hposted|].
  destruct (Client.isLoading component); [discriminate Hposted|].
  destruct (Client.currentPdfId component) as [|i0 i] eqn:Hid;
    [discriminate Hposted|].
  injection Hposted as <-. cbn [query pdfId].
  assert (Hq : Client.inputMessage component <> []).
  { intros Hnil. rewrite Hnil in Htrim. discriminate Htrim. }
  split; [reflexivity|]. split; [reflexivity|]. split.
  - intros error. apply (chat_accepts toLowerCase env pdfCollections _ data).
    + exact Hq.
    + discriminate.
    + exact Hpdf.
  - intros Hsmall.
    rewrite (chat_small_talk toLowerCase env pdfCollections _ data).
    + reflexivity.
    + exact Hsmall.
    + discriminate.
    + exact Hpdf.
Qed.

Lemma posted_request_is_accepted_witness :
  Client.posted asciiToLowerCase
    {| Client.currentPdfId := js "a7a7";
       Client.inputMessage := js "hello";
       Client.isLoading := false;
       Client.responseDepth := js "normal" |}
  = Some {| query := js "hello"; pdfId := js "a7a7";
            depth := js "normal" |}
  /\ query {| query := js "hello"; pdfId := js "a7a7";
              depth := js "normal" |} = js "hello"
  /\ pdfId {| query := js "hello"; pdfId := js "a7a7";
              depth := js "normal" |} = js "a7a7"
  /\ (forall error,
        fst (run (Server.chat asciiToLowerCase Cases.healthy
                    (<[js "a7a7" :=
                         {| Server.filename := js "thesis.pdf";
                            Server.uploadedAt := js "2025-01-01";
                            Server.pdfType := js "general" |}]> ∅)
                    {| query := js "hello"; pdfId := js "a7a7";
                       depth := js "normal" |}))
        <> Returned (Status400 error))
  /\ (isSmallTalk (js "hello") = true ->
      run (Server.chat asciiToLowerCase Cases.healthy
             (<[js "a7a7" :=
                  {| Server.filename := js "thesis.pdf";
                     Server.uploadedAt := js "2025-01-01";
                     Server.pdfType := js "general" |}]> ∅)
             {| query := js "hello"; pdfId := js "a7a7";
                depth := js "normal" |})
      = (Returned
           (Status200
              {| payloadQuery := js "hello";
                 results :=
                   Server.getSmallTalkResponse asciiToLowerCase
                     (js "hello");
                 pageReferences := [];
                 count := 0 |}), [])).
Proof.
  split; [vm_compute; reflexivity|].
  apply (posted_request_is_accepted asciiToLowerCase Cases.healthy
           (<[js "a7a7" := {| Server.filename := js "thesis.pdf";
                              Server.uploadedAt := js "2025-01-01";
                              Server.pdfType := js "general" |}]> ∅)
           {| Client.currentPdfId := js "a7a7";
              Client.inputMessage := js "hello";
              Client.isLoading := false;
              Client.responseDepth := js "normal" |}
           {| query := js "hello"; pdfId := js "a7a7";
              depth := js "normal" |}
           {| Server.filename := js "thesis.pdf";
              Server.uploadedAt := js "2025-01-01";
              Server.pdfType := js "general" |}).
  - vm_compute; reflexivity.
  - vm_compute; reflexivity.
Defined.
